(** * rendergit-lite: file triage, folder tree and selection model

    A shallow embedding of [rendergit.py]: the Python side (classifier,
    scanner, folder-tree builder) and the script embedded in the page it
    emits (selection actions and the CXML export).

    Conventions.
    - A Python [str] and a JavaScript string are a [string] holding the
      UTF-8 bytes of the text; byte-wise lexicographic order on valid
      UTF-8 is code-point order, which is the order Python's [sorted]
      uses on [str].
    - A [pathlib.Path] is the list of its components; [os.sep] is "/".
    - The file system is an explicit record of observations; a call that
      can raise returns a [result]. *)

From Stdlib Require Import Bool Arith ZArith List Lia Sorted Permutation.
From Stdlib.Strings Require Import Ascii String Byte.
From Stdlib Require Import DecimalString.
From Stdlib Require OrderedTypeEx.
Import ListNotations.

Set Implicit Arguments.

Local Open Scope string_scope.
Local Open Scope list_scope.

(* ================================================================== *)
(** * Part I: definitions *)
(* ================================================================== *)

(** ** String operations of the Python and JavaScript runtimes *)

Module Str.

Definition slash : ascii := "/"%char.
Definition dot : ascii := "."%char.
Definition newline : string := String (ascii_of_nat 10) "".
Definition dquote : string := String (ascii_of_nat 34) "".

(** [needle in hay] on Python strings, [hay.includes(needle)] in JS. *)
Fixpoint includes (needle hay : string) : bool :=
  if String.prefix needle hay then true
  else match hay with
       | EmptyString => false
       | String _ hay' => includes needle hay'
       end.

(** [s.startswith(p)], [s.startsWith(p)]. *)
Definition startswith (s p : string) : bool := String.prefix p s.

(** [s.endsWith(suffix)]. *)
Fixpoint endswith (s suffix : string) : bool :=
  if String.eqb s suffix then true
  else match s with
       | EmptyString => false
       | String _ s' => endswith s' suffix
       end.

(** [s.split("/")]: never empty, keeps empty fields. *)
Fixpoint split (s : string) : list string :=
  match s with
  | EmptyString => [EmptyString]
  | String c s' =>
      if Ascii.eqb c slash then EmptyString :: split s'
      else match split s' with
           | [] => [String c EmptyString]
           | field :: fields => String c field :: fields
           end
  end.

(** ["/".join(parts)]. *)
Definition join (parts : list string) : string := String.concat "/" parts.

(** [s.rfind(c)], [None] for -1. *)
Fixpoint rfind (c : ascii) (s : string) : option nat :=
  match s with
  | EmptyString => None
  | String a s' =>
      match rfind c s' with
      | Some i => Some (S i)
      | None => if Ascii.eqb a c then Some 0 else None
      end
  end.

(** [s[i:]]. *)
Definition from (i : nat) (s : string) : string :=
  String.substring i (String.length s - i) s.

(** [s.rstrip("/")]. *)
Fixpoint rstrip (s : string) : string :=
  match s with
  | EmptyString => EmptyString
  | String c s' =>
      match rstrip s' with
      | EmptyString => if Ascii.eqb c slash then EmptyString else String c EmptyString
      | r => String c r
      end
  end.

(** [s.lower()], as far as a comparison with ASCII text can tell (the
    extension tables are ASCII).  The characters whose lowercase is an
    ASCII character are the letters A to Z and U+212A KELVIN SIGN (bytes
    E2 84 AA), which lowers to "k"; these are lowered.  Every other
    character lowers to non-ASCII text and is kept as it is, so the
    result is a given ASCII string exactly when [s.lower()] is. *)
Definition lower_ascii (c : ascii) : ascii :=
  let n := nat_of_ascii c in
  if ((65 <=? n) && (n <=? 90))%nat then ascii_of_nat (n + 32) else c.

Fixpoint lower (s : string) : string :=
  match s with
  | EmptyString => EmptyString
  | String "226" (String "132" (String "170" s')) => String "k" (lower s')
  | String c s' => String (lower_ascii c) (lower s')
  end.

(** [x in table] for a table of strings. *)
Definition mem (x : string) (table : list string) : bool :=
  existsb (String.eqb x) table.

(** [posixpath.basename]: [p[p.rfind("/") + 1:]]. *)
Definition basename (p : string) : string :=
  match rfind slash p with
  | Some i => from (i + 1) p
  | None => p
  end.

(** Decimal rendering of a number inside a template literal. *)
Definition of_nat (n : nat) : string := NilZero.string_of_uint (Nat.to_uint n).

End Str.

(** ** Exceptions *)

Inductive exn : Type :=
| ValueError          (* [relative_to] on a path outside the root *)
| FileNotFoundError   (* ENOENT *)
| OtherOSError.       (* any other [OSError]: EACCES, ENOTDIR, ELOOP, ... *)

Inductive result (A : Type) : Type :=
| Ok (a : A)
| Raise (e : exn).

Arguments Ok {A} a.
Arguments Raise {A} e.

Definition bind {A B : Type} (m : result A) (k : A -> result B) : result B :=
  match m with
  | Ok a => k a
  | Raise e => Raise e
  end.

Notation "'try!' x <- m ; k" := (bind m (fun x => k))
  (at level 10, x name, m at level 100, k at level 200).

(** ** The file system as the classifier observes it *)

Definition Path := list string.

Record FileSystem : Type := {
  (** [path.stat().st_size], or the [OSError] it raises *)
  fs_stat : Path -> result Z;
  (** the bytes of the file, or [None] when [open] or [read] raises *)
  fs_read : Path -> option (list byte);
  (** [root.rglob("*")] *)
  fs_rglob : Path -> list Path;
  (** [path.is_symlink()] and [path.is_file()], or the [OSError] they
      raise (they return [False] for a missing file and re-raise the
      other errors of [lstat] and [stat], [PermissionError] among them) *)
  fs_is_symlink : Path -> result bool;
  fs_is_file : Path -> result bool
}.

(** ** Classifier *)

Module Classifier.

Definition MAX_DEFAULT_BYTES : Z := 50 * 1024.

Definition BLOAT_PATTERNS : list string :=
  ["package-lock.json"; "yarn.lock"; "poetry.lock"; "Cargo.lock"; "pnpm-lock.yaml";
   "Gemfile.lock"; "composer.lock"; "Pipfile.lock"; "go.sum"].

Definition BLOAT_DIRS : list string :=
  ["node_modules"; ".venv"; "venv"; "__pycache__"; "dist"; "build";
   ".next"; ".nuxt"; "target"; "out"; ".gradle"; ".cache"].

Definition BINARY_EXTENSIONS : list string :=
  [".png"; ".jpg"; ".jpeg"; ".gif"; ".webp"; ".bmp"; ".svg"; ".ico";
   ".pdf"; ".zip"; ".tar"; ".gz"; ".bz2"; ".xz"; ".7z"; ".rar";
   ".mp3"; ".mp4"; ".mov"; ".avi"; ".mkv"; ".wav"; ".ogg"; ".flac";
   ".ttf"; ".otf"; ".eot"; ".woff"; ".woff2";
   ".so"; ".dll"; ".dylib"; ".class"; ".jar"; ".exe"; ".bin"].

Record RenderDecision : Type := {
  include : bool;
  reason : string   (* "ok" | "binary" | "too_large" | "ignored" | "bloat" *)
}.

Record FileInfo : Type := {
  path : Path;
  rel : string;
  size : Z;
  decision : RenderDecision
}.

(** [path.name] and [path.suffix] of pathlib. *)
Definition name (p : Path) : string := last p "".

Definition suffix (p : Path) : string :=
  let nm := name p in
  match Str.rfind Str.dot nm with
  | Some i =>
      if ((0 <? i) && (i <? String.length nm - 1))%nat then Str.from i nm else ""
  | None => ""
  end.

(** [path.relative_to(root)], then [str]. *)
Fixpoint relative_to (p root : Path) : result Path :=
  match root with
  | [] => Ok p
  | r :: root' =>
      match p with
      | [] => Raise ValueError
      | c :: p' => if String.eqb c r then relative_to p' root' else Raise ValueError
      end
  end.

Definition str_of_path (p : Path) : string :=
  match p with
  | [] => "."
  | _ => Str.join p
  end.

(** Strict UTF-8 decoding succeeds ([chunk.decode("utf-8")]). *)
Definition between (lo hi : N) (b : byte) : bool :=
  (lo <=? Byte.to_N b)%N && (Byte.to_N b <=? hi)%N.

Definition cont (b : byte) : bool := between 128 191 b.

Fixpoint utf8_valid (bs : list byte) : bool :=
  match bs with
  | [] => true
  | b0 :: r0 =>
      if between 0 127 b0 then utf8_valid r0
      else match r0 with
      | [] => false
      | b1 :: r1 =>
          if between 194 223 b0 then cont b1 && utf8_valid r1
          else match r1 with
          | [] => false
          | b2 :: r2 =>
              if between 224 239 b0 then
                (if between 224 224 b0 then between 160 191 b1
                 else if between 237 237 b0 then between 128 159 b1
                 else cont b1)
                && cont b2 && utf8_valid r2
              else match r2 with
              | [] => false
              | b3 :: r3 =>
                  if between 240 244 b0 then
                    (if between 240 240 b0 then between 144 191 b1
                     else if between 244 244 b0 then between 128 143 b1
                     else cont b1)
                    && cont b2 && cont b3 && utf8_valid r3
                  else false
              end
          end
      end
  end.

(** The sniffed prefix: [f.read(8192)]. *)
Definition CHUNK : nat := 8 * 1024.

Definition looks_binary (fs : FileSystem) (p : Path) : bool :=
  let ext := Str.lower (suffix p) in
  if Str.mem ext BINARY_EXTENSIONS then true
  else match fs_read fs p with
       | Some content =>
           let chunk := firstn CHUNK content in
           if existsb (Byte.eqb x00) chunk then true
           else if utf8_valid chunk then false
           else true
       | None => true
       end.

Definition is_bloat (rel_path : string) (skip_bloat : bool) : bool :=
  if negb skip_bloat then false
  else
    let filename := Str.basename rel_path in
    if Str.mem filename BLOAT_PATTERNS then true
    else existsb (fun part => Str.mem part BLOAT_DIRS) (Str.split rel_path).

(** The [try: ... except FileNotFoundError: size = 0] of [decide_file]. *)
Definition stat_size (fs : FileSystem) (p : Path) : result Z :=
  match fs_stat fs p with
  | Ok n => Ok n
  | Raise FileNotFoundError => Ok 0%Z
  | Raise e => Raise e
  end.

Definition is_vcs (rel : string) : bool :=
  Str.includes "/.git/" ("/" ++ rel ++ "/") || Str.startswith rel ".git/".

Definition decide_file (fs : FileSystem) (p repo_root : Path)
    (max_bytes : Z) (skip_bloat : bool) : result FileInfo :=
  try! rp <- relative_to p repo_root;
  let rel := str_of_path rp in
  try! size <- stat_size fs p;
  if is_vcs rel then
    Ok {| path := p; rel := rel; size := size;
          decision := {| include := false; reason := "ignored" |} |}
  else if is_bloat rel skip_bloat then
    Ok {| path := p; rel := rel; size := size;
          decision := {| include := false; reason := "bloat" |} |}
  else if (size >? max_bytes)%Z then
    Ok {| path := p; rel := rel; size := size;
          decision := {| include := false; reason := "too_large" |} |}
  else if looks_binary fs p then
    Ok {| path := p; rel := rel; size := size;
          decision := {| include := false; reason := "binary" |} |}
  else
    Ok {| path := p; rel := rel; size := size;
          decision := {| include := true; reason := "ok" |} |}.

(** The five decisions [decide_file] can return. *)
Definition ignored : RenderDecision := {| include := false; reason := "ignored" |}.
Definition bloat : RenderDecision := {| include := false; reason := "bloat" |}.
Definition too_large : RenderDecision := {| include := false; reason := "too_large" |}.
Definition binary : RenderDecision := {| include := false; reason := "binary" |}.
Definition ok : RenderDecision := {| include := true; reason := "ok" |}.

Definition info_of (p : Path) (rp : Path) (sz : Z) (d : RenderDecision) : FileInfo :=
  {| path := p; rel := str_of_path rp; size := sz; decision := d |}.

(** The verdict strings. *)
Definition verdicts : list string := ["ok"; "binary"; "too_large"; "ignored"; "bloat"].

End Classifier.

(** ** Stable sort with a key, as Python's [sorted(xs, key=...)] *)

Section Sorting.

Variable A : Type.
Variable le : A -> A -> bool.

Fixpoint insert_sorted (x : A) (l : list A) : list A :=
  match l with
  | [] => [x]
  | y :: l' => if le x y then x :: y :: l' else y :: insert_sorted x l'
  end.

Fixpoint sorted (l : list A) : list A :=
  match l with
  | [] => []
  | x :: l' => insert_sorted x (sorted l')
  end.

End Sorting.

Definition sorted_by_key {A : Type} (key : A -> string) (l : list A) : list A :=
  sorted (fun x y => String.leb (key x) (key y)) l.

(** The order of the keys: [a <= b] on Python strings. *)
Definition le_str (a b : string) : Prop := String.leb a b = true.

(** ** Corpus scanner *)

Module Scanner.

Import Classifier.

(** Order of [pathlib] paths: component by component. *)
Fixpoint path_leb (p q : Path) : bool :=
  match p, q with
  | [], _ => true
  | _ :: _, [] => false
  | a :: p', b :: q' =>
      match String.compare a b with
      | Lt => true
      | Gt => false
      | Eq => path_leb p' q'
      end
  end.

Fixpoint collect_loop (fs : FileSystem) (repo_root : Path) (max_bytes : Z)
    (skip_bloat : bool) (ps : list Path) : result (list FileInfo) :=
  match ps with
  | [] => Ok []
  | p :: ps' =>
      try! is_symlink <- fs_is_symlink fs p;
      if is_symlink then collect_loop fs repo_root max_bytes skip_bloat ps'
      else
        try! is_file <- fs_is_file fs p;
        if is_file then
          try! info <- decide_file fs p repo_root max_bytes skip_bloat;
          try! infos <- collect_loop fs repo_root max_bytes skip_bloat ps';
          Ok (info :: infos)
        else collect_loop fs repo_root max_bytes skip_bloat ps'
  end.

Definition collect_files (fs : FileSystem) (repo_root : Path) (max_bytes : Z)
    (skip_bloat : bool) : result (list FileInfo) :=
  collect_loop fs repo_root max_bytes skip_bloat (sorted path_leb (fs_rglob fs repo_root)).

End Scanner.

(** ** Tree builder *)

Module Tree.

Import Classifier.

(** The nested [dict] built by [build_folder_tree]: keys in insertion
    order, each key once. *)
#[local] Unset Elimination Schemes.

Inductive Folders : Type :=
| Dict (items : list (string * Folders)).

#[local] Set Elimination Schemes.

Definition items (d : Folders) : list (string * Folders) :=
  match d with Dict its => its end.

(** [if part not in current: current[part] = {}], then the rest of the
    walk applied to [current[part]] (the dict is updated in place). *)
Fixpoint descend (part : string) (walk : Folders -> Folders)
    (its : list (string * Folders)) : list (string * Folders) :=
  match its with
  | [] => [(part, walk (Dict []))]
  | (k, v) :: its' =>
      if String.eqb k part then (k, walk v) :: its'
      else (k, v) :: descend part walk its'
  end.

(** The inner loop [for part in parts[:-1]] started at [current]. *)
Fixpoint add_path (parts : list string) (current : Folders) : Folders :=
  match parts with
  | [] => current
  | part :: parts' => Dict (descend part (add_path parts') (items current))
  end.

(** [info.rel.split("/")[:-1]] and [info.rel.split("/")[-1]]. *)
Definition parent_parts (info : FileInfo) : list string :=
  removelast (Str.split (rel info)).

Definition file_name (info : FileInfo) : string :=
  last (Str.split (rel info)) "".

Definition build_folders (rendered : list FileInfo) : Folders :=
  fold_left (fun folders info => add_path (parent_parts info) folders)
            rendered (Dict []).

(** The elements the emitted markup parses to: a [tree-folder] div with
    its folder checkbox and [tree-children], a [tree-file] div with its
    file checkbox.  Icons and the human-readable size are left out. *)
#[local] Unset Elimination Schemes.

Inductive Node : Type :=
| TreeFolder (level : nat) (data_folder : string) (label : string)
             (children : list Node)
| TreeFile (level : nat) (data_file : string) (label : string).

#[local] Set Elimination Schemes.

Definition folder_path_of (path folder_name : string) : string :=
  match path with
  | EmptyString => folder_name
  | _ => (path ++ "/" ++ folder_name)%string
  end.

Definition file_node (level : nat) (info : FileInfo) : Node :=
  TreeFile level (rel info) (Str.basename (rel info)).

(** [render_tree]: every key of [tree] is rendered; the keys are put in
    order after their subtrees are rendered, which yields the same list
    as rendering them in sorted order. *)
Fixpoint render_tree (rendered : list FileInfo) (tree : Folders)
    (path : string) (level : nat) : list Node :=
  let files_here :=
    filter (fun i => String.eqb (Str.join (parent_parts i)) (Str.rstrip path))
           rendered in
  let folders_here :=
    match tree with
    | Dict its =>
        map (fun kv : string * Folders =>
               let folder_path := folder_path_of path (fst kv) in
               (fst kv,
                TreeFolder level folder_path (fst kv)
                  (render_tree rendered (snd kv) folder_path (S level))))
            its
    end in
  map snd (sorted_by_key fst folders_here)
  ++ map (file_node level) (sorted_by_key file_name files_here).

Definition build_folder_tree (infos : list FileInfo) : list Node :=
  let rendered := filter (fun i => include (decision i)) infos in
  render_tree rendered (build_folders rendered) "" 0.

(** Document order of the checkboxes in a rendered tree. *)
Fixpoint file_paths (n : Node) : list string :=
  match n with
  | TreeFolder _ _ _ children => flat_map file_paths children
  | TreeFile _ f _ => [f]
  end.

Fixpoint folder_paths (n : Node) : list string :=
  match n with
  | TreeFolder _ p _ children => p :: flat_map folder_paths children
  | TreeFile _ _ _ => []
  end.

End Tree.

(** ** The page: embedded file data, checkboxes and derived views *)

Module Page.

Import Classifier.

(** One entry of the [fileData] array. *)
Record FileDatum : Type := {
  fd_path : string;
  fd_size : Z;
  fd_content : string
}.

(** The loop of [build_html] that fills [file_data]: [text] is the
    variable assigned inside the [try]; a read that raises leaves it as
    it was, and using it unbound raises [NameError]. *)
Fixpoint file_data_loop (read_text : Path -> option string)
    (rendered : list FileInfo) (text : option string) : option (list FileDatum) :=
  match rendered with
  | [] => Some []
  | i :: rendered' =>
      let text' := match read_text (path i) with
                   | Some t => Some t
                   | None => text
                   end in
      match text' with
      | None => None
      | Some t =>
          match file_data_loop read_text rendered' text' with
          | None => None
          | Some data =>
              Some ({| fd_path := rel i; fd_size := size i; fd_content := t |} :: data)
          end
      end
  end.

Definition file_data (read_text : Path -> option string)
    (infos : list FileInfo) : option (list FileDatum) :=
  file_data_loop read_text (filter (fun i => include (decision i)) infos) None.

Record FileCheckbox : Type := {
  data_file : string;
  checked : bool
}.

Record FolderCheckbox : Type := {
  data_folder : string;
  folder_checked : bool
}.

Record FileSection : Type := {
  section_file : string;
  hidden : bool
}.

(** The mutable part of the document.  [file_checkboxes] and
    [folder_checkboxes] are in document order, which is the order of the
    rendered tree; [sections] are in manifest order.  [selected_size] is
    the number handed to [formatBytes]. *)
Record Page : Type := {
  file_checkboxes : list FileCheckbox;
  folder_checkboxes : list FolderCheckbox;
  sections : list FileSection;
  selected_count : nat;
  selected_size : Z;
  llm_text : string
}.

(** The document as [build_html] writes it, before the script runs:
    every checkbox carries the [checked] attribute, no section is
    hidden, the export area is empty.  [data_file], [data_folder] and
    [section_file] are the values as written between the double quotes,
    without escaping; the page in a browser holds the same values where
    the browser reads them back as written, which excludes a path with
    an ampersand, a double quote, CR or NUL. *)
Definition emitted (infos : list FileInfo) : Page :=
  let rendered := filter (fun i => include (decision i)) infos in
  let tree := Tree.build_folder_tree infos in
  {| file_checkboxes :=
       map (fun f => {| data_file := f; checked := true |})
           (flat_map Tree.file_paths tree);
     folder_checkboxes :=
       map (fun p => {| data_folder := p; folder_checked := true |})
           (flat_map Tree.folder_paths tree);
     sections := map (fun i => {| section_file := rel i; hidden := false |}) rendered;
     selected_count := List.length rendered;
     selected_size := fold_left (fun sum i => (sum + size i)%Z) rendered 0%Z;
     llm_text := "" |}.

Section Script.

(** [const fileData = ...] *)
Variable fileData : list FileDatum.

(** [fileData.find(f => f.path === filePath)] *)
Definition find_file (filePath : string) : option FileDatum :=
  find (fun f => String.eqb (fd_path f) filePath) fileData.

(** The [forEach] of [updateLLMText], with its running [index] and the
    string built so far. *)
Fixpoint llm_loop (files : list FileDatum) (index : nat) (cxml : string) : string :=
  match files with
  | [] => cxml
  | file :: files' =>
      let cxml := (cxml ++ "<document index=" ++ Str.dquote ++ Str.of_nat (index + 1)
                        ++ Str.dquote ++ ">" ++ Str.newline)%string in
      let cxml := (cxml ++ "<source>" ++ fd_path file ++ "</source>" ++ Str.newline)%string in
      let cxml := (cxml ++ "<document_content>" ++ Str.newline)%string in
      let cxml := (cxml ++ fd_content file)%string in
      let cxml := (cxml ++ Str.newline ++ "</document_content>" ++ Str.newline)%string in
      let cxml := (cxml ++ "</document>" ++ Str.newline)%string in
      llm_loop files' (S index) cxml
  end.

Definition updateLLMText (selectedFiles : list FileDatum) : string :=
  (llm_loop selectedFiles 0 ("<documents>" ++ Str.newline) ++ "</documents>")%string.

(** [document.querySelectorAll('.file-checkbox:checked')] *)
Definition checked_boxes (pg : Page) : list FileCheckbox :=
  filter checked (file_checkboxes pg).

(** The [selectedFiles] array filled by [updateSelection]. *)
Definition selected_files (pg : Page) : list FileDatum :=
  flat_map (fun cb => match find_file (data_file cb) with
                      | Some fileInfo => [fileInfo]
                      | None => []
                      end)
           (checked_boxes pg).

Definition updateSelection (pg : Page) : Page :=
  let checkboxes := checked_boxes pg in
  let selectedFiles := selected_files pg in
  {| file_checkboxes := file_checkboxes pg;
     folder_checkboxes := folder_checkboxes pg;
     sections :=
       map (fun s =>
              let isChecked :=
                existsb (fun cb => String.eqb (data_file cb) (section_file s)) checkboxes in
              {| section_file := section_file s; hidden := negb isChecked |})
           (sections pg);
     selected_count := List.length selectedFiles;
     selected_size := fold_left (fun sum f => (sum + fd_size f)%Z) selectedFiles 0%Z;
     llm_text := updateLLMText selectedFiles |}.

(** Assignments to the [checked] property of the checkboxes. *)
Definition with_files (fcs : list FileCheckbox) (pg : Page) : Page :=
  {| file_checkboxes := fcs;
     folder_checkboxes := folder_checkboxes pg;
     sections := sections pg;
     selected_count := selected_count pg;
     selected_size := selected_size pg;
     llm_text := llm_text pg |}.

Definition with_folders (dcs : list FolderCheckbox) (pg : Page) : Page :=
  {| file_checkboxes := file_checkboxes pg;
     folder_checkboxes := dcs;
     sections := sections pg;
     selected_count := selected_count pg;
     selected_size := selected_size pg;
     llm_text := llm_text pg |}.

Definition set_checked (v : bool) (cb : FileCheckbox) : FileCheckbox :=
  {| data_file := data_file cb; checked := v |}.

Definition set_folder_checked (v : bool) (cb : FolderCheckbox) : FolderCheckbox :=
  {| data_folder := data_folder cb; folder_checked := v |}.

(** [querySelectorAll('.file-checkbox, .folder-checkbox').forEach(cb => cb.checked = v)] *)
Definition set_all (v : bool) (pg : Page) : Page :=
  with_folders (map (set_folder_checked v) (folder_checkboxes pg))
    (with_files (map (set_checked v) (file_checkboxes pg)) pg).

Definition selectAll (pg : Page) : Page := updateSelection (set_all true pg).

Definition deselectAll (pg : Page) : Page := updateSelection (set_all false pg).

Definition filterByExtension (ext : string) (pg : Page) : Page :=
  let pg := deselectAll pg in
  updateSelection
    (with_files
       (map (fun cb => if Str.endswith (data_file cb) ext then set_checked true cb else cb)
            (file_checkboxes pg))
       pg).

Definition is_test_path (filePath : string) : bool :=
  Str.includes "/test" filePath || Str.includes "/tests" filePath
  || Str.includes "_test." filePath || Str.includes ".test." filePath.

Definition toggleTests (pg : Page) : Page :=
  updateSelection
    (with_files
       (map (fun cb => if is_test_path (data_file cb)
                       then set_checked (negb (checked cb)) cb else cb)
            (file_checkboxes pg))
       pg).

(** The body of the [change] listener of a folder checkbox, for
    [folderPath = this.dataset.folder] and [isChecked = this.checked]. *)
Definition in_folder (folderPath filePath : string) : bool :=
  Str.startswith filePath (folderPath ++ "/") || String.eqb filePath folderPath.

Definition toggleFolder (folderPath : string) (isChecked : bool) (pg : Page) : Page :=
  updateSelection
    (with_files
       (map (fun fileCb => if in_folder folderPath (data_file fileCb)
                           then set_checked isChecked fileCb else fileCb)
            (file_checkboxes pg))
       pg).

(** A click on the [i]-th folder checkbox: the browser flips it, then
    the listener runs. *)
Fixpoint flip_folder (i : nat) (dcs : list FolderCheckbox) : list FolderCheckbox :=
  match dcs, i with
  | [], _ => []
  | cb :: dcs', O => set_folder_checked (negb (folder_checked cb)) cb :: dcs'
  | cb :: dcs', S i' => cb :: flip_folder i' dcs'
  end.

Definition click_folder (i : nat) (pg : Page) : Page :=
  match nth_error (folder_checkboxes pg) i with
  | None => pg
  | Some cb =>
      toggleFolder (data_folder cb) (negb (folder_checked cb))
        (with_folders (flip_folder i (folder_checkboxes pg)) pg)
  end.

(** A click on the [i]-th file checkbox: the browser flips it, then
    [updateSelection] runs as its [change] listener. *)
Fixpoint flip_file (i : nat) (fcs : list FileCheckbox) : list FileCheckbox :=
  match fcs, i with
  | [], _ => []
  | cb :: fcs', O => set_checked (negb (checked cb)) cb :: fcs'
  | cb :: fcs', S i' => cb :: flip_file i' fcs'
  end.

Definition click_file (i : nat) (pg : Page) : Page :=
  match nth_error (file_checkboxes pg) i with
  | None => pg
  | Some _ => updateSelection (with_files (flip_file i (file_checkboxes pg)) pg)
  end.

(** The user's actions and the pages they lead to from the loaded one. *)
Inductive Action : Type :=
| ClickFile (i : nat)
| ClickFolder (i : nat)
| SelectAll
| DeselectAll
| FilterByExtension (ext : string)
| ToggleTests.

Definition act (a : Action) (pg : Page) : Page :=
  match a with
  | ClickFile i => click_file i pg
  | ClickFolder i => click_folder i pg
  | SelectAll => selectAll pg
  | DeselectAll => deselectAll pg
  | FilterByExtension ext => filterByExtension ext pg
  | ToggleTests => toggleTests pg
  end.

(** The page once the script has been loaded: [updateSelection()] runs
    once, at the end of the script.  This is the page of a document
    whose script element the browser reads whole; [fileData] is written
    into the script as JSON, so a file text that holds the end tag of
    the script element cuts the script short, and then nothing runs. *)
Definition loaded (infos : list FileInfo) : Page := updateSelection (emitted infos).

Definition run (actions : list Action) (pg : Page) : Page :=
  fold_left (fun pg a => act a pg) actions pg.

End Script.

End Page.

(** ** The selection actions and the export as the specification words them *)

Module SelectionSpec.

Import Page.

Section Spec.

Variable fileData : list FileDatum.

(** [toggleFile(path, value)]: set the entry of [path], then refresh the
    derived views. *)
Definition toggleFile (path : string) (value : bool) (pg : Page) : Page :=
  updateSelection fileData
    (with_files
       (map (fun cb => if String.eqb (data_file cb) path
                       then set_checked value cb else cb)
            (file_checkboxes pg))
       pg).

(** [filterByExtension(ext)]: [deselectAll()] followed by
    [toggleFile(path, true)] for every path ending in [ext]. *)
Definition filterByExtension (ext : string) (pg : Page) : Page :=
  fold_left (fun pg path => toggleFile path true pg)
            (filter (fun path => Str.endswith path ext)
                    (map data_file (file_checkboxes pg)))
            (deselectAll fileData pg).

(** The export restricted to the selection, in manifest order. *)
Definition is_selected (pg : Page) (path : string) : bool :=
  existsb (fun cb => String.eqb (data_file cb) path) (checked_boxes pg).

Definition export_in_manifest_order (pg : Page) : list FileDatum :=
  filter (fun f => is_selected pg (fd_path f)) fileData.

(** The all/some/none view of a folder over its descendant files. *)
Inductive FolderView : Type := AllSelected | SomeSelected | NoneSelected.

Definition descendants (folderPath : string) (pg : Page) : list FileCheckbox :=
  filter (fun cb => in_folder folderPath (data_file cb)) (file_checkboxes pg).

Definition folder_view (folderPath : string) (pg : Page) : FolderView :=
  let ds := descendants folderPath pg in
  if forallb checked ds then AllSelected
  else if existsb checked ds then SomeSelected
  else NoneSelected.

End Spec.

(** Marking the checkboxes whose path is in [paths]. *)
Definition mark (paths : list string) (cb : FileCheckbox) : FileCheckbox :=
  if Str.mem (data_file cb) paths then set_checked true cb else cb.

End SelectionSpec.

(** ** Shape of a rendered tree *)

Module TreeShape.

Import Classifier Tree.

(** A relative path as the scanner produces it has no empty segment. *)
Definition wf_rel (r : string) : Prop :=
  Forall (fun seg => seg <> "") (Str.split r).

Definition wf_manifest (infos : list FileInfo) : Prop :=
  forall info, In info infos -> include (decision info) = true -> wf_rel (rel info).

(** [p] is a directory above the file: the join of a non-empty prefix of
    its directory segments. *)
Definition under_dir (p : string) (info : FileInfo) : Prop :=
  exists dirs rest, dirs <> [] /\ parent_parts info = dirs ++ rest /\ p = Str.join dirs.

#[local] Unset Elimination Schemes.

(** Every folder of the node has a file somewhere below it. *)
Inductive populated : Node -> Prop :=
| populated_file level f label : populated (TreeFile level f label)
| populated_folder level p label children :
    flat_map file_paths children <> [] ->
    Forall populated children ->
    populated (TreeFolder level p label children).

#[local] Set Elimination Schemes.

Definition is_folder (n : Node) : Prop :=
  match n with TreeFolder _ _ _ _ => True | TreeFile _ _ _ => False end.

Definition is_file (n : Node) : Prop :=
  match n with TreeFolder _ _ _ _ => False | TreeFile _ _ _ => True end.

Definition label_of (n : Node) : string :=
  match n with TreeFolder _ _ label _ => label | TreeFile _ _ label => label end.

(** At every level: folders first, then files, each group in
    non-decreasing order of the displayed name. *)
Inductive ordered : list Node -> Prop :=
| ordered_level folders files :
    Forall is_folder folders ->
    Forall is_file files ->
    Sorted le_str (map label_of folders) ->
    Sorted le_str (map label_of files) ->
    (forall level p label children,
        In (TreeFolder level p label children) folders -> ordered children) ->
    ordered (folders ++ files).

(** A segment as [split] yields it: no slash inside. *)
Fixpoint no_slash (s : string) : bool :=
  match s with
  | EmptyString => true
  | String c s' => negb (Ascii.eqb c Str.slash) && no_slash s'
  end.

(** Induction on the nested dictionaries. *)
Fixpoint Folders_nested_ind (P : Folders -> Prop)
    (step : forall its, Forall (fun kv => P (snd kv)) its -> P (Dict its))
    (t : Folders) : P t :=
  match t with
  | Dict its =>
      step its
        ((fix go (l : list (string * Folders)) : Forall (fun kv => P (snd kv)) l :=
            match l with
            | [] => Forall_nil _
            | kv :: l' => Forall_cons kv (Folders_nested_ind P step (snd kv)) (go l')
            end) its)
  end.

(** [chain] names nested keys of [t], starting at its top level. *)
Fixpoint has_chain (chain : list string) (t : Folders) : Prop :=
  match chain with
  | [] => True
  | k :: ks => exists v, In (k, v) (items t) /\ has_chain ks v
  end.

(** The path [render_tree] reaches from [path] along [chain]. *)
Definition extend (path : string) (chain : list string) : string :=
  fold_left folder_path_of chain path.

Definition files_at (rendered : list FileInfo) (path : string) : list FileInfo :=
  filter (fun i => String.eqb (Str.join (parent_parts i)) (Str.rstrip path)) rendered.

Definition folder_node (rendered : list FileInfo) (path : string) (level : nat)
    (kv : string * Folders) : string * Node :=
  (fst kv,
   TreeFolder level (folder_path_of path (fst kv)) (fst kv)
     (render_tree rendered (snd kv) (folder_path_of path (fst kv)) (S level))).

#[local] Unset Elimination Schemes.

(** Every entry of the dictionary at [pre] lies on the way to a rendered
    file, whose remaining directories are below the entry. *)
Inductive covered (rendered : list FileInfo) : list string -> Folders -> Prop :=
| covered_dict pre its :
    (forall k v,
        In (k, v) its ->
        (exists info rest,
            In info rendered /\ parent_parts info = pre ++ k :: rest /\ has_chain rest v)
        /\ covered rendered (pre ++ [k]) v) ->
    covered rendered pre (Dict its).

#[local] Set Elimination Schemes.

End TreeShape.

(** ** The export document, element by element *)

Module Cxml.

Import Page.

(** One [<document>] element of the export, with its index. *)
Definition document_entry (index : nat) (file : FileDatum) : string :=
  ("<document index=" ++ Str.dquote ++ Str.of_nat index ++ Str.dquote ++ ">" ++ Str.newline
   ++ "<source>" ++ fd_path file ++ "</source>" ++ Str.newline
   ++ "<document_content>" ++ Str.newline
   ++ fd_content file
   ++ Str.newline ++ "</document_content>" ++ Str.newline
   ++ "</document>" ++ Str.newline)%string.

(** The files paired with the indices [start], [start + 1], ... *)
Definition numbered (start : nat) (files : list FileDatum) : list (nat * FileDatum) :=
  combine (seq start (List.length files)) files.

Definition documents (start : nat) (files : list FileDatum) : string :=
  String.concat "" (map (fun entry => document_entry (fst entry) (snd entry))
                        (numbered start files)).

End Cxml.

(** ** Concrete repositories, manifests and pages *)

Module Examples.

Import Classifier Page.

(** A 150-byte file of ASCII text, [repo/notes.txt]. *)
Definition text150 : list byte := repeat x61 150.

Definition fs_notes : FileSystem :=
  {| fs_stat := fun _ => Ok 150%Z;
     fs_read := fun _ => Some text150;
     fs_rglob := fun _ => [["repo"; "notes.txt"]];
     fs_is_symlink := fun _ => Ok false;
     fs_is_file := fun _ => Ok true |}.

(** [repo/web/package-lock.json], 12 bytes. *)
Definition fs_lock : FileSystem :=
  {| fs_stat := fun _ => Ok 12%Z;
     fs_read := fun _ => Some [x7b; x7d];
     fs_rglob := fun _ => [["repo"; "web"; "package-lock.json"]];
     fs_is_symlink := fun _ => Ok false;
     fs_is_file := fun _ => Ok true |}.

Definition lock_info : FileInfo :=
  {| path := ["repo"; "web"; "package-lock.json"]; rel := "web/package-lock.json";
     size := 12; decision := bloat |}.

(** [repo/a.py] when [stat] fails with [PermissionError]. *)
Definition fs_denied : FileSystem :=
  {| fs_stat := fun _ => Raise OtherOSError;
     fs_read := fun _ => Some [x61];
     fs_rglob := fun _ => [["repo"; "a.py"]];
     fs_is_symlink := fun _ => Ok false;
     fs_is_file := fun _ => Ok true |}.

(** [repo/gone.txt], removed between the directory walk and [stat]. *)
Definition fs_gone : FileSystem :=
  {| fs_stat := fun _ => Raise FileNotFoundError;
     fs_read := fun _ => None;
     fs_rglob := fun _ => [["repo"; "gone.txt"]];
     fs_is_symlink := fun _ => Ok false;
     fs_is_file := fun _ => Ok true |}.

Definition ok_info (p : Path) (r : string) (sz : Z) : Classifier.FileInfo :=
  {| Classifier.path := p; Classifier.rel := r; Classifier.size := sz;
     Classifier.decision := {| Classifier.include := true; Classifier.reason := "ok" |} |}.

(** A repository with [a.py] and [b/c.py], nine bytes of text each. *)
Definition fs_two : FileSystem :=
  {| fs_stat := fun _ => Ok 9%Z;
     fs_read := fun p => Some (list_byte_of_string (Classifier.name p ++ " text"));
     fs_rglob := fun _ => [["repo"; "b"; "c.py"]; ["repo"; "b"]; ["repo"; "a.py"]];
     fs_is_symlink := fun _ => Ok false;
     fs_is_file := fun p => Ok (if list_eq_dec string_dec p ["repo"; "b"] then false else true) |}.

Definition manifest_two : list Classifier.FileInfo :=
  [ok_info ["repo"; "a.py"] "a.py" 9; ok_info ["repo"; "b"; "c.py"] "b/c.py" 9].

Definition read_two (p : Path) : option string :=
  Some (Classifier.name p ++ " text")%string.

Definition datum_a : FileDatum :=
  {| fd_path := "a.py"; fd_size := 9; fd_content := "a.py text" |}.

Definition datum_c : FileDatum :=
  {| fd_path := "b/c.py"; fd_size := 9; fd_content := "c.py text" |}.

Definition data_two : list FileDatum := [datum_a; datum_c].

Definition page_two : Page := loaded data_two manifest_two.

(** A repository with the single file [a/x.py]. *)
(** A page with a test file beside the file it tests. *)
Definition manifest_tests : list Classifier.FileInfo :=
  [ok_info ["repo"; "src"; "main.py"] "src/main.py" 9;
   ok_info ["repo"; "src"; "main_test.py"] "src/main_test.py" 9].

Definition data_tests : list FileDatum :=
  [{| fd_path := "src/main.py"; fd_size := 9; fd_content := "main.py text" |};
   {| fd_path := "src/main_test.py"; fd_size := 9; fd_content := "main_test.py text" |}].

Definition page_tests : Page := loaded data_tests manifest_tests.

Definition manifest_one : list Classifier.FileInfo :=
  [ok_info ["repo"; "a"; "x.py"] "a/x.py" 9].

Definition data_one : list FileDatum :=
  [{| fd_path := "a/x.py"; fd_size := 9; fd_content := "x.py text" |}].

Definition page_one : Page := loaded data_one manifest_one.

(** A manifest with files of every verdict. *)
Definition entry (r : string) (d : RenderDecision) : FileInfo :=
  {| path := "repo" :: Str.split r; rel := r; size := 200; decision := d |}.

Definition sample_manifest : list FileInfo :=
  [entry ".git/HEAD" ignored;
   entry "a.py" ok;
   entry "b.png" binary;
   entry "docs/big.txt" too_large;
   entry "lib/package-lock.json" bloat;
   entry "src/app/main.py" ok;
   entry "src/util.py" ok].

End Examples.

(** ** Further repositories and pages *)

Module MoreExamples.

Import Classifier Page.

(** 8191 ASCII letters followed by a two-byte character: valid UTF-8
    whose byte 8192 is a lead byte. *)
Definition accent_at_boundary : list byte := repeat x61 (pred CHUNK) ++ [xc3; xa9].

Definition fs_accent : FileSystem :=
  {| fs_stat := fun _ => Ok 8193%Z;
     fs_read := fun _ => Some accent_at_boundary;
     fs_rglob := fun _ => [["repo"; "notes.txt"]];
     fs_is_symlink := fun _ => Ok false;
     fs_is_file := fun _ => Ok true |}.

(** 8192 ASCII letters, then a NUL byte. *)
Definition fs_late_nul : FileSystem :=
  {| fs_stat := fun _ => Ok 8193%Z;
     fs_read := fun _ => Some (repeat x61 CHUNK ++ [x00]);
     fs_rglob := fun _ => [["repo"; "notes.txt"]];
     fs_is_symlink := fun _ => Ok false;
     fs_is_file := fun _ => Ok true |}.

(** The same file without the NUL byte at the end. *)
Definition fs_no_nul : FileSystem :=
  {| fs_stat := fun _ => Ok 8193%Z;
     fs_read := fun _ => Some (repeat x61 CHUNK ++ [x62]);
     fs_rglob := fun _ => [["repo"; "notes.txt"]];
     fs_is_symlink := fun _ => Ok false;
     fs_is_file := fun _ => Ok true |}.

(** A walk with an entry that cannot be examined: [is_file] raises
    [PermissionError] for [b], the other entries are regular files. *)
Definition fs_locked : FileSystem :=
  {| fs_stat := fun _ => Ok 9%Z;
     fs_read := fun p => Some (list_byte_of_string (Classifier.name p ++ " text"));
     fs_rglob := fun _ => [["repo"; "b"]; ["repo"; "a.py"]];
     fs_is_symlink := fun _ => Ok false;
     fs_is_file := fun p => if list_eq_dec string_dec p ["repo"; "b"]
                            then Raise OtherOSError else Ok true |}.

(** Readers: one that fails on every file, one that reads [a.py] only. *)
Definition read_none (p : Path) : option string := None.

Definition read_first_only (p : Path) : option string :=
  if list_eq_dec string_dec p ["repo"; "a.py"] then Some "a.py text" else None.

Definition data_stale : list FileDatum :=
  [{| fd_path := "a.py"; fd_size := 9; fd_content := "a.py text" |};
   {| fd_path := "b/c.py"; fd_size := 9; fd_content := "a.py text" |}].

End MoreExamples.

(** ** Files the scanner classifies *)

Module ScanShape.

(** [p.is_symlink()] returns [False] and [p.is_file()] returns [True]:
    the paths that reach [decide_file]. *)
Definition eligible (fs : FileSystem) (p : Path) : bool :=
  match fs_is_symlink fs p with
  | Ok false => match fs_is_file fs p with
                | Ok is_file => is_file
                | Raise _ => false
                end
  | _ => false
  end.

(** Both tests return for [p]; [is_file] is called on the paths that are
    not symlinks only. *)
Definition probed (fs : FileSystem) (p : Path) : Prop :=
  exists is_symlink,
    fs_is_symlink fs p = Ok is_symlink /\
    (is_symlink = false -> exists is_file, fs_is_file fs p = Ok is_file).

(** The manifest order: paths compared component by component. *)
Definition path_le (p q : Path) : Prop := Scanner.path_leb p q = true.

End ScanShape.

(** ** Anchors, output name and page title *)

Module Naming.

Section Slugify.

(** The characters of a Python [str], with [ch.isalnum()] and [==]. *)
Variable char : Type.
Variable isalnum : char -> bool.
Variable char_eqb : char -> char -> bool.
Variables hyphen underscore : char.

(** [ch.isalnum() or ch in {"-", "_"}] *)
Definition kept (ch : char) : bool :=
  isalnum ch || (char_eqb ch hyphen || char_eqb ch underscore).

Definition slugify (path_str : list char) : list char :=
  map (fun ch => if kept ch then ch else hyphen) path_str.

End Slugify.

(** [ch.isalnum()] on ASCII characters. *)
Definition ascii_isalnum (c : ascii) : bool :=
  let n := nat_of_ascii c in
  (((48 <=? n) && (n <=? 57)) || ((65 <=? n) && (n <=? 90)) || ((97 <=? n) && (n <=? 122)))%nat.

(** [s[:-n]] for [n > 0]. *)
Definition drop_last (n : nat) (s : string) : string :=
  String.substring 0 (String.length s - n) s.

(** The file name chosen by [derive_temp_output_path]; the result of the
    function is this name under [tempfile.gettempdir()]. *)
Definition derive_temp_name (repo_url : string) : string :=
  let parts := Str.split (Str.rstrip repo_url) in
  if (2 <=? List.length parts)%nat then
    let repo_name := last parts "" in
    let repo_name :=
      if Str.endswith repo_name ".git" then drop_last 4 repo_name else repo_name in
    (repo_name ++ ".html")%string
  else "repo.html".

(** [s.rstrip(chars)]: drops trailing characters that are in [chars]. *)
Fixpoint rstrip_chars (chars : list ascii) (s : string) : string :=
  match s with
  | EmptyString => EmptyString
  | String c s' =>
      match rstrip_chars chars s' with
      | EmptyString =>
          if existsb (Ascii.eqb c) chars then EmptyString else String c EmptyString
      | r => String c r
      end
  end.

(** The heading of the page, before [html.escape]:
    [os.path.basename(repo_url.rstrip('/').rstrip('.git'))]. *)
Definition repo_title (repo_url : string) : string :=
  Str.basename
    (rstrip_chars ["."%char; "g"%char; "i"%char; "t"%char] (Str.rstrip repo_url)).

End Naming.

(** ** Counting the nodes of the folder dictionary *)

Module TreeCount.

Import Classifier Tree.

(** Every chain of nested keys of a dictionary, the empty chain first. *)
Fixpoint chains_of (t : Folders) : list (list string) :=
  match t with
  | Dict its =>
      [] :: flat_map (fun kv => map (cons (fst kv)) (chains_of (snd kv))) its
  end.

(** Each key occurs once in its dictionary, at every level. *)
Inductive uniq : Folders -> Prop :=
| uniq_dict its :
    NoDup (map fst its) ->
    (forall k v, In (k, v) its -> uniq v) ->
    uniq (Dict its).

End TreeCount.

(** ** The page a browser builds from the document *)

Module Dom.

Import Classifier Tree Page.

(** The page holds what [build_html] wrote: its file and folder
    checkboxes carry, in document order, the [data-file] and
    [data-folder] values [build_folder_tree] wrote, and its sections the
    relative paths of the included records.  The values are written
    between double quotes without escaping, so a browser builds such a
    page when it reads every one of them back as written, as it does for
    a value without an ampersand, a double quote, CR or NUL. *)
Definition as_written (infos : list FileInfo) (pg : Page) : Prop :=
  map data_file (file_checkboxes pg) = flat_map file_paths (build_folder_tree infos) /\
  map data_folder (folder_checkboxes pg) = flat_map folder_paths (build_folder_tree infos) /\
  map section_file (sections pg)
  = map rel (filter (fun i => include (decision i)) infos).

End Dom.

(* ================================================================== *)
(** * Part II: properties *)
(* ================================================================== *)

Unset Implicit Arguments.

(** ** Facts about the string operations *)

Module StrFacts.

Lemma mem_In (x : string) (table : list string) :
  Str.mem x table = true <-> In x table.
Proof.
  unfold Str.mem. rewrite existsb_exists. split.
  - intros [y [Hy Heq]]. apply String.eqb_eq in Heq. now subst.
  - intros H. exists x. split; [assumption | apply String.eqb_refl].
Qed.

Lemma split_nonempty (s : string) : Str.split s <> [].
Proof.
  destruct s as [| c s]; simpl; [discriminate |].
  destruct (Ascii.eqb c Str.slash); [discriminate |].
  destruct (Str.split s); discriminate.
Qed.

End StrFacts.

(** ** Classifier *)

Module ClassifierFacts.

Import Classifier Examples.

(** [decide_file] once the relative path and the size are known. *)
Lemma decide_file_unfold fs p root max_bytes skip_bloat rp sz :
  relative_to p root = Ok rp ->
  stat_size fs p = Ok sz ->
  decide_file fs p root max_bytes skip_bloat =
  Ok (info_of p rp sz
        (if is_vcs (str_of_path rp) then ignored
         else if is_bloat (str_of_path rp) skip_bloat then bloat
         else if (sz >? max_bytes)%Z then too_large
         else if looks_binary fs p then binary
         else ok)).
Proof.
  intros Hrel Hstat. unfold decide_file. rewrite Hrel. simpl. rewrite Hstat. simpl.
  destruct (is_vcs (str_of_path rp)); [reflexivity |].
  destruct (is_bloat (str_of_path rp) skip_bloat); [reflexivity |].
  destruct (sz >? max_bytes)%Z; [reflexivity |].
  destruct (looks_binary fs p); reflexivity.
Qed.

Lemma decide_file_inv fs p root max_bytes skip_bloat info :
  decide_file fs p root max_bytes skip_bloat = Ok info ->
  exists rp sz,
    relative_to p root = Ok rp /\ stat_size fs p = Ok sz /\
    rel info = str_of_path rp.
Proof.
  unfold decide_file. intros H.
  destruct (relative_to p root) as [rp | e] eqn:Hrel; simpl in H; [| discriminate].
  destruct (stat_size fs p) as [sz | e] eqn:Hstat; simpl in H; [| discriminate].
  exists rp, sz. repeat split.
  destruct (is_vcs (str_of_path rp)); [now inversion H |].
  destruct (is_bloat (str_of_path rp) skip_bloat); [now inversion H |].
  destruct (sz >? max_bytes)%Z; [now inversion H |].
  destruct (looks_binary fs p); now inversion H.
Qed.

(** C1. The verdict of [decide_file] is the first rule that matches, in
    the order version-control metadata, bloat, size over the ceiling,
    binary sniff, include; a file that passes the first two rules and is
    larger than the ceiling is "too_large" whatever the sniff would say. *)
Theorem decide_file_first_match fs p root max_bytes skip_bloat rp sz :
  relative_to p root = Ok rp ->
  stat_size fs p = Ok sz ->
  exists d,
    decide_file fs p root max_bytes skip_bloat = Ok (info_of p rp sz d) /\
    (is_vcs (str_of_path rp) = true -> d = ignored) /\
    (is_vcs (str_of_path rp) = false ->
     is_bloat (str_of_path rp) skip_bloat = true -> d = bloat) /\
    (is_vcs (str_of_path rp) = false ->
     is_bloat (str_of_path rp) skip_bloat = false ->
     (sz > max_bytes)%Z -> d = too_large) /\
    (is_vcs (str_of_path rp) = false ->
     is_bloat (str_of_path rp) skip_bloat = false ->
     (sz <= max_bytes)%Z -> looks_binary fs p = true -> d = binary) /\
    (is_vcs (str_of_path rp) = false ->
     is_bloat (str_of_path rp) skip_bloat = false ->
     (sz <= max_bytes)%Z -> looks_binary fs p = false -> d = ok) /\
    (forall fs',
        stat_size fs' p = Ok sz ->
        is_vcs (str_of_path rp) = false ->
        is_bloat (str_of_path rp) skip_bloat = false ->
        (sz > max_bytes)%Z ->
        decide_file fs' p root max_bytes skip_bloat = Ok (info_of p rp sz too_large)).
Proof.
  intros Hrel Hstat.
  assert (Hany : forall fs',
             stat_size fs' p = Ok sz ->
             is_vcs (str_of_path rp) = false ->
             is_bloat (str_of_path rp) skip_bloat = false ->
             (sz > max_bytes)%Z ->
             decide_file fs' p root max_bytes skip_bloat = Ok (info_of p rp sz too_large)).
  { intros fs' Hstat' Hvcs Hbloat Hsize.
    rewrite (decide_file_unfold fs' p root max_bytes skip_bloat rp sz Hrel Hstat').
    rewrite Hvcs, Hbloat.
    replace (sz >? max_bytes)%Z with true; [reflexivity |].
    symmetry. apply Z.gtb_lt. lia. }
  eexists. split; [apply (decide_file_unfold _ _ _ _ _ _ _ Hrel Hstat) |].
  destruct (is_vcs (str_of_path rp)) eqn:Hvcs;
    [repeat split; intros; congruence |].
  destruct (is_bloat (str_of_path rp) skip_bloat) eqn:Hbloat;
    [repeat split; intros; congruence |].
  destruct (sz >? max_bytes)%Z eqn:Hsize.
  - apply Z.gtb_lt in Hsize.
    repeat split; intros; try congruence; try (apply Hany; auto; fail); lia.
  - assert (sz <= max_bytes)%Z by (rewrite Z.gtb_ltb in Hsize; apply Z.ltb_ge in Hsize; lia).
    destruct (looks_binary fs p);
      repeat split; intros; try congruence; try (apply Hany; auto; fail); lia.
Qed.

Lemma decide_file_first_match_witness :
  looks_binary fs_notes ["repo"; "notes.txt"] = false /\
  decide_file fs_notes ["repo"; "notes.txt"] ["repo"] 100 true =
  Ok {| path := ["repo"; "notes.txt"]; rel := "notes.txt"; size := 150;
        decision := too_large |}.
Proof.
  split; [vm_compute; reflexivity |].
  destruct (decide_file_first_match fs_notes ["repo"; "notes.txt"] ["repo"] 100 true
              ["notes.txt"] 150%Z eq_refl eq_refl)
    as [d [Hd [_ [_ [Hlarge _]]]]].
  rewrite Hd, Hlarge; [reflexivity | reflexivity | reflexivity | lia].
Defined.

(** C8. A file classified "bloat" was classified with bloat-skipping on,
    and its basename is a known lockfile name or one of its
    slash-separated segments is a known generated directory; with
    bloat-skipping off no file is classified "bloat". *)
Theorem bloat_verdict_sound fs p root max_bytes skip_bloat info :
  decide_file fs p root max_bytes skip_bloat = Ok info ->
  (reason (decision info) = "bloat" ->
   skip_bloat = true /\
   (In (Str.basename (rel info)) BLOAT_PATTERNS \/
    exists part, In part (Str.split (rel info)) /\ In part BLOAT_DIRS)) /\
  (skip_bloat = false -> reason (decision info) <> "bloat").
Proof.
  intros H.
  destruct (decide_file_inv _ _ _ _ _ _ H) as [rp [sz [Hrel [Hstat Hr]]]].
  rewrite (decide_file_unfold fs p root max_bytes skip_bloat rp sz Hrel Hstat) in H.
  inversion H as [Hinfo]. clear H. unfold info_of. cbn [rel decision].
  destruct (is_vcs (str_of_path rp)); [split; intros; discriminate |].
  destruct (is_bloat (str_of_path rp) skip_bloat) eqn:Hbloat.
  - unfold is_bloat in Hbloat.
    destruct skip_bloat; cbn [negb] in Hbloat; [| discriminate].
    split; [| intros; discriminate]. intros _. split; [reflexivity |].
    destruct (Str.mem (Str.basename (str_of_path rp)) BLOAT_PATTERNS) eqn:Hname.
    + left. now apply StrFacts.mem_In.
    + right. apply existsb_exists in Hbloat. destruct Hbloat as [part [Hin Hmem]].
      exists part. split; [assumption | now apply StrFacts.mem_In].
  - destruct (sz >? max_bytes)%Z; [split; intros; discriminate |].
    destruct (looks_binary fs p); split; intros; discriminate.
Qed.

Lemma bloat_verdict_sound_witness :
  decide_file fs_lock ["repo"; "web"; "package-lock.json"] ["repo"] 51200 true
  = Ok lock_info /\
  (In (Str.basename (rel lock_info)) BLOAT_PATTERNS \/
   exists part, In part (Str.split (rel lock_info)) /\ In part BLOAT_DIRS).
Proof.
  split; [reflexivity |].
  apply (bloat_verdict_sound fs_lock ["repo"; "web"; "package-lock.json"] ["repo"]
           51200%Z true lock_info eq_refl).
  reflexivity.
Defined.

(** C9, as stated, fails: a [stat] failure other than
    [FileNotFoundError] is not caught and leaves [decide_file] as an
    exception, without a verdict. *)
Lemma decide_file_stat_error_escapes :
  decide_file fs_denied ["repo"; "a.py"] ["repo"] MAX_DEFAULT_BYTES true
  = Raise OtherOSError /\
  ~ (exists info,
       decide_file fs_denied ["repo"; "a.py"] ["repo"] MAX_DEFAULT_BYTES true = Ok info).
Proof.
  split; [reflexivity |].
  intros [info H]. vm_compute in H. discriminate.
Qed.

(** C9, amended. For a path under the root whose [stat] succeeds or
    fails with [FileNotFoundError], [decide_file] returns a record with
    one of the five verdicts, included exactly when the verdict is "ok";
    a [FileNotFoundError] gives size 0; any other [stat] error leaves
    [decide_file] as that error. *)
Theorem decide_file_total fs p root max_bytes skip_bloat rp :
  relative_to p root = Ok rp ->
  (forall e, fs_stat fs p = Raise e -> e = FileNotFoundError) ->
  (exists info,
     decide_file fs p root max_bytes skip_bloat = Ok info /\
     In (reason (decision info)) verdicts /\
     (include (decision info) = true <-> reason (decision info) = "ok") /\
     (fs_stat fs p = Raise FileNotFoundError -> size info = 0%Z)) /\
  (forall fs' e,
     fs_stat fs' p = Raise e -> e <> FileNotFoundError ->
     decide_file fs' p root max_bytes skip_bloat = Raise e).
Proof.
  intros Hrel Hstat. split.
  - assert (Hsz : exists sz, stat_size fs p = Ok sz /\
                             (fs_stat fs p = Raise FileNotFoundError -> sz = 0%Z)).
    { unfold stat_size. destruct (fs_stat fs p) as [n | e] eqn:Hs.
      - exists n. split; [reflexivity | discriminate].
      - rewrite (Hstat e eq_refl). exists 0%Z. split; reflexivity. }
    destruct Hsz as [sz [Hsz Hzero]].
    eexists. split; [apply (decide_file_unfold _ _ _ _ _ _ _ Hrel Hsz) |].
    unfold info_of, verdicts. cbn [decision size].
    destruct (is_vcs (str_of_path rp));
      [cbn; repeat split; auto; try discriminate; tauto |].
    destruct (is_bloat (str_of_path rp) skip_bloat);
      [cbn; repeat split; auto; try discriminate; tauto |].
    destruct (sz >? max_bytes)%Z;
      [cbn; repeat split; auto; try discriminate; tauto |].
    destruct (looks_binary fs p);
      cbn; repeat split; auto; try discriminate; tauto.
  - intros fs' e He Hne. unfold decide_file. rewrite Hrel. cbn [bind].
    unfold stat_size. rewrite He. destruct e; [reflexivity | congruence | reflexivity].
Qed.

Lemma decide_file_total_witness :
  exists info,
    decide_file fs_gone ["repo"; "gone.txt"] ["repo"] MAX_DEFAULT_BYTES true = Ok info /\
    In (reason (decision info)) verdicts /\
    (include (decision info) = true <-> reason (decision info) = "ok") /\
    (fs_stat fs_gone ["repo"; "gone.txt"] = Raise FileNotFoundError -> size info = 0%Z).
Proof.
  apply (decide_file_total fs_gone ["repo"; "gone.txt"] ["repo"] MAX_DEFAULT_BYTES true
           ["gone.txt"] eq_refl).
  intros e He. cbn in He. now inversion He.
Defined.

(** C10. A file that reaches the binary sniff and cannot be opened or
    read makes [looks_binary] answer true, and [decide_file] returns the
    "binary" verdict instead of the error. *)
Theorem unreadable_is_binary fs p root max_bytes skip_bloat rp sz :
  relative_to p root = Ok rp ->
  stat_size fs p = Ok sz ->
  is_vcs (str_of_path rp) = false ->
  is_bloat (str_of_path rp) skip_bloat = false ->
  (sz <= max_bytes)%Z ->
  fs_read fs p = None ->
  looks_binary fs p = true /\
  decide_file fs p root max_bytes skip_bloat = Ok (info_of p rp sz binary).
Proof.
  intros Hrel Hstat Hvcs Hbloat Hsize Hread.
  assert (Hbin : looks_binary fs p = true).
  { unfold looks_binary. rewrite Hread.
    destruct (Str.mem (Str.lower (suffix p)) BINARY_EXTENSIONS); reflexivity. }
  split; [assumption |].
  rewrite (decide_file_unfold fs p root max_bytes skip_bloat rp sz Hrel Hstat).
  rewrite Hvcs, Hbloat, Hbin.
  replace (sz >? max_bytes)%Z with false; [reflexivity |].
  symmetry. rewrite Z.gtb_ltb. apply Z.ltb_ge. assumption.
Qed.

Lemma unreadable_is_binary_witness :
  looks_binary fs_gone ["repo"; "gone.txt"] = true /\
  decide_file fs_gone ["repo"; "gone.txt"] ["repo"] MAX_DEFAULT_BYTES true
  = Ok (info_of ["repo"; "gone.txt"] ["gone.txt"] 0%Z binary).
Proof.
  apply (unreadable_is_binary fs_gone ["repo"; "gone.txt"] ["repo"] MAX_DEFAULT_BYTES true
           ["gone.txt"] 0%Z);
    [reflexivity | reflexivity | reflexivity | reflexivity | vm_compute; discriminate
    | reflexivity].
Defined.

End ClassifierFacts.

(** ** Selection model and export *)

Module PageFacts.

Import Page Cxml Examples.

Lemma append_assoc (a b c : string) : ((a ++ b) ++ c = a ++ (b ++ c))%string.
Proof. induction a as [| x a IH]; simpl; [reflexivity | now rewrite IH]. Qed.

Lemma append_nil_r (a : string) : (a ++ "" = a)%string.
Proof. induction a as [| x a IH]; simpl; [reflexivity | now rewrite IH]. Qed.

Lemma set_checked_same (cb : FileCheckbox) : set_checked (checked cb) cb = cb.
Proof. now destruct cb. Qed.

Section Script.

Variable fileData : list FileDatum.

(** The derived views are functions of the file checkboxes and of the
    sections' paths. *)
Lemma updateSelection_ext (pg1 pg2 : Page) :
  file_checkboxes pg1 = file_checkboxes pg2 ->
  folder_checkboxes pg1 = folder_checkboxes pg2 ->
  map section_file (sections pg1) = map section_file (sections pg2) ->
  updateSelection fileData pg1 = updateSelection fileData pg2.
Proof.
  intros Hf Hd Hs. unfold updateSelection, selected_files, checked_boxes.
  rewrite Hf, Hd. f_equal.
  set (view := fun path : string =>
         {| section_file := path;
            hidden := negb (existsb (fun cb => String.eqb (data_file cb) path)
                                    (filter checked (file_checkboxes pg2))) |}).
  change (map (fun s => view (section_file s)) (sections pg1)
          = map (fun s => view (section_file s)) (sections pg2)).
  rewrite <- !(map_map section_file view). now rewrite Hs.
Qed.

Lemma updateSelection_sections (pg : Page) :
  map section_file (sections (updateSelection fileData pg))
  = map section_file (sections pg).
Proof. unfold updateSelection. cbn [sections]. rewrite map_map. reflexivity. Qed.

Lemma updateSelection_idem (pg : Page) :
  updateSelection fileData (updateSelection fileData pg) = updateSelection fileData pg.
Proof.
  apply updateSelection_ext; [reflexivity | reflexivity | apply updateSelection_sections].
Qed.

(** Replacing the file checkboxes of a refreshed page and refreshing
    again is the same as doing so on the page before its refresh. *)
Lemma refresh_with_files (fcs : list FileCheckbox) (pg : Page) :
  updateSelection fileData (with_files fcs (updateSelection fileData pg))
  = updateSelection fileData (with_files fcs pg).
Proof.
  apply updateSelection_ext; [reflexivity | reflexivity |].
  cbn [with_files sections]. apply updateSelection_sections.
Qed.

Lemma refresh_same_files (pg : Page) :
  updateSelection fileData (with_files (file_checkboxes pg) pg)
  = updateSelection fileData pg.
Proof. apply updateSelection_ext; reflexivity. Qed.

(** C4. One run of [toggleTests] keeps every file checkbox in its place
    with its path, negates the checkbox when the path matches the test
    heuristic and leaves it as it is otherwise, so the matched set is
    the same on the next run.  Two runs give back the checkboxes of the
    page they started from, file and folder alike; on a page whose views
    are up to date they give back the page itself. *)
Theorem toggleTests_involutive (pg : Page) :
  (forall i cb,
      nth_error (file_checkboxes pg) i = Some cb ->
      nth_error (file_checkboxes (toggleTests fileData pg)) i
      = Some {| data_file := data_file cb;
                checked := if is_test_path (data_file cb)
                           then negb (checked cb) else checked cb |}) /\
  List.length (file_checkboxes (toggleTests fileData pg))
  = List.length (file_checkboxes pg) /\
  file_checkboxes (toggleTests fileData (toggleTests fileData pg)) = file_checkboxes pg /\
  folder_checkboxes (toggleTests fileData (toggleTests fileData pg)) = folder_checkboxes pg /\
  toggleTests fileData (toggleTests fileData (updateSelection fileData pg))
  = updateSelection fileData pg.
Proof.
  assert (Hflip : forall fcs : list FileCheckbox,
             map (fun cb => if is_test_path (data_file cb)
                            then set_checked (negb (checked cb)) cb else cb)
                 (map (fun cb => if is_test_path (data_file cb)
                                 then set_checked (negb (checked cb)) cb else cb) fcs)
             = fcs).
  { intros fcs. rewrite map_map. rewrite <- (map_id fcs) at 2.
    apply map_ext. intros [f c]. cbn [data_file checked].
    destruct (is_test_path f) eqn:Ht; cbn [data_file checked set_checked].
    - rewrite Ht. cbn [set_checked data_file checked]. now rewrite negb_involutive.
    - now rewrite Ht. }
  assert (Htwice : forall pg0,
             toggleTests fileData (toggleTests fileData pg0) = updateSelection fileData pg0).
  { intros pg0. unfold toggleTests at 1.
    apply updateSelection_ext.
    - cbn [with_files file_checkboxes]. unfold toggleTests, updateSelection.
      cbn [with_files file_checkboxes]. apply Hflip.
    - reflexivity.
    - cbn [with_files sections]. unfold toggleTests.
      rewrite updateSelection_sections. reflexivity. }
  split; [| split; [| split; [| split]]].
  - intros i cb Hnth. unfold toggleTests, updateSelection.
    cbn [with_files file_checkboxes].
    rewrite nth_error_map, Hnth. cbn [option_map]. destruct cb as [f c].
    cbn [data_file checked]. now destruct (is_test_path f).
  - unfold toggleTests, updateSelection. cbn [with_files file_checkboxes].
    apply length_map.
  - rewrite Htwice. reflexivity.
  - rewrite Htwice. reflexivity.
  - rewrite Htwice. apply updateSelection_idem.
Qed.

(** After the folder listener ran with value [w], every file checkbox
    under the folder holds [w]. *)
Lemma toggleFolder_descendants (p : string) (w : bool) (pg0 : Page) :
  Forall (fun cb => checked cb = w)
         (SelectionSpec.descendants p (toggleFolder fileData p w pg0)).
Proof.
  unfold SelectionSpec.descendants, toggleFolder, updateSelection.
  cbn [with_files file_checkboxes].
  apply Forall_forall. intros cb Hin. apply filter_In in Hin. destruct Hin as [Hin Hp].
  apply in_map_iff in Hin. destruct Hin as [cb0 [Heq _]]. subst cb.
  destruct (in_folder p (data_file cb0)) eqn:Hcb0; [reflexivity |].
  rewrite Hcb0 in Hp. discriminate.
Qed.

(** C5. The folder listener with path [p] and value [v] overwrites every
    file checkbox whose path is [p] or starts with [p/] with [v] and
    leaves the others as they were; doing it again changes nothing; and
    after [toggleFolder p true] then [toggleFolder p false] no
    descendant of [p] is selected, whatever the page was. *)
Theorem toggleFolder_overwrites (p : string) (v : bool) (pg : Page) :
  (forall i cb,
     nth_error (file_checkboxes pg) i = Some cb ->
     nth_error (file_checkboxes (toggleFolder fileData p v pg)) i =
     Some (if in_folder p (data_file cb) then set_checked v cb else cb)) /\
  Forall (fun cb => checked cb = v)
         (SelectionSpec.descendants p (toggleFolder fileData p v pg)) /\
  toggleFolder fileData p v (toggleFolder fileData p v pg) = toggleFolder fileData p v pg /\
  filter checked
    (SelectionSpec.descendants p
       (toggleFolder fileData p false (toggleFolder fileData p true pg))) = [].
Proof.
  split; [| split; [| split]].
  - intros i cb Hnth. unfold toggleFolder, updateSelection.
    cbn [with_files file_checkboxes].
    exact (map_nth_error
             (fun fileCb => if in_folder p (data_file fileCb)
                            then set_checked v fileCb else fileCb)
             _ _ Hnth).
  - apply toggleFolder_descendants.
  - unfold toggleFolder. rewrite refresh_with_files.
    apply updateSelection_ext; [| reflexivity | reflexivity].
    cbn [with_files file_checkboxes updateSelection]. rewrite map_map.
    apply map_ext. intros [f c]. cbn [data_file].
    destruct (in_folder p f) eqn:Hf; cbn [data_file set_checked]; now rewrite Hf.
  - pose proof (toggleFolder_descendants p false (toggleFolder fileData p true pg)) as Hdesc.
    induction (SelectionSpec.descendants p
                 (toggleFolder fileData p false (toggleFolder fileData p true pg)))
      as [| cb l IH]; [reflexivity |].
    inversion Hdesc as [| ? ? Hcb Hl]; subst. cbn [filter]. rewrite Hcb. now apply IH.
Qed.

Lemma fold_toggleFile (paths : list string) :
  forall pg,
    fold_left (fun pg path => SelectionSpec.toggleFile fileData path true pg)
              paths (updateSelection fileData pg)
    = updateSelection fileData (with_files (map (SelectionSpec.mark paths) (file_checkboxes pg)) pg).
Proof.
  induction paths as [| path paths IH]; intros pg; cbn [fold_left].
  - rewrite <- (refresh_same_files pg) at 1. f_equal. f_equal.
    rewrite <- (map_id (file_checkboxes pg)) at 1. apply map_ext. reflexivity.
  - unfold SelectionSpec.toggleFile at 2. rewrite refresh_with_files.
    rewrite IH. apply updateSelection_ext; [| reflexivity | reflexivity].
    cbn [with_files file_checkboxes updateSelection]. rewrite map_map.
    apply map_ext. intros [f c]. unfold SelectionSpec.mark, Str.mem. cbn [data_file existsb].
    destruct (String.eqb f path) eqn:Hf; cbn [data_file set_checked orb].
    + destruct (existsb (String.eqb f) paths); reflexivity.
    + reflexivity.
Qed.

Lemma set_all_files (v : bool) (pg : Page) :
  file_checkboxes (set_all v pg) = map (set_checked v) (file_checkboxes pg).
Proof. reflexivity. Qed.

(** C6. [filterByExtension ext] is [deselectAll] followed by
    [toggleFile path true] for every path ending in [ext]; afterwards a
    file checkbox is checked exactly when its path ends in [ext]; after
    [selectAll] every file checkbox is checked and after [deselectAll]
    none is; no action adds, drops or renames a checkbox. *)
Theorem filterByExtension_refines (ext : string) (pg : Page) :
  filterByExtension fileData ext pg = SelectionSpec.filterByExtension fileData ext pg /\
  file_checkboxes (filterByExtension fileData ext pg)
  = map (fun cb => {| data_file := data_file cb;
                      checked := Str.endswith (data_file cb) ext |})
        (file_checkboxes pg) /\
  file_checkboxes (selectAll fileData pg)
  = map (fun cb => {| data_file := data_file cb; checked := true |})
        (file_checkboxes pg) /\
  file_checkboxes (deselectAll fileData pg)
  = map (fun cb => {| data_file := data_file cb; checked := false |})
        (file_checkboxes pg).
Proof.
  split; [| split; [| split]].
  - unfold SelectionSpec.filterByExtension, filterByExtension, deselectAll.
    rewrite fold_toggleFile, refresh_with_files.
    apply updateSelection_ext; [| reflexivity | reflexivity].
    cbn [with_files file_checkboxes updateSelection]. rewrite set_all_files.
    rewrite !map_map. apply map_ext_in. intros [f c] Hin.
    unfold SelectionSpec.mark. cbn [data_file set_checked].
    destruct (Str.endswith f ext) eqn:Hext.
    + assert (Hmem : Str.mem f (filter (fun path => Str.endswith path ext)
                                       (map data_file (file_checkboxes pg))) = true).
      { apply StrFacts.mem_In. apply filter_In. split; [| assumption].
        apply in_map_iff. exists {| data_file := f; checked := c |}. now split. }
      rewrite Hmem. reflexivity.
    + assert (Hmem : Str.mem f (filter (fun path => Str.endswith path ext)
                                       (map data_file (file_checkboxes pg))) = false).
      { apply not_true_is_false. intros H. apply StrFacts.mem_In in H.
        apply filter_In in H. destruct H as [_ H]. congruence. }
      rewrite Hmem. reflexivity.
  - unfold filterByExtension, deselectAll, updateSelection.
    cbn [with_files file_checkboxes]. rewrite set_all_files, map_map.
    apply map_ext. intros [f c]. cbn [data_file set_checked].
    destruct (Str.endswith f ext); reflexivity.
  - reflexivity.
  - reflexivity.
Qed.

Lemma concat_cons (x : string) (xs : list string) :
  String.concat "" (x :: xs) = (x ++ String.concat "" xs)%string.
Proof.
  destruct xs as [| y ys]; cbn [String.concat].
  - now rewrite append_nil_r.
  - reflexivity.
Qed.

Lemma llm_loop_documents (files : list FileDatum) :
  forall index cxml,
    llm_loop files index cxml = (cxml ++ documents (index + 1) files)%string.
Proof.
  induction files as [| file files IH]; intros index cxml.
  - cbn. now rewrite append_nil_r.
  - cbn [llm_loop]. rewrite IH. unfold documents, numbered.
    cbn [List.length seq combine map fst snd]. rewrite concat_cons.
    unfold document_entry. rewrite !append_assoc. reflexivity.
Qed.

Lemma selected_paths (boxes : list FileCheckbox) :
  map fd_path
      (flat_map (fun cb => match find_file fileData (data_file cb) with
                           | Some fileInfo => [fileInfo]
                           | None => []
                           end) boxes)
  = filter (fun path => existsb (fun f => String.eqb (fd_path f) path) fileData)
           (map data_file boxes).
Proof.
  induction boxes as [| cb boxes IH]; [reflexivity |].
  cbn [flat_map map filter]. rewrite map_app, IH.
  unfold find_file at 1.
  destruct (find (fun f => String.eqb (fd_path f) (data_file cb)) fileData) as [f |] eqn:Hfind.
  - apply find_some in Hfind. destruct Hfind as [Hin Heq].
    assert (Hex : existsb (fun f => String.eqb (fd_path f) (data_file cb)) fileData = true).
    { apply existsb_exists. now exists f. }
    rewrite Hex. apply String.eqb_eq in Heq. cbn [map app]. now rewrite Heq.
  - assert (Hex : existsb (fun f => String.eqb (fd_path f) (data_file cb)) fileData = false).
    { apply not_true_is_false. intros H. apply existsb_exists in H.
      destruct H as [f [Hin Heq]]. now rewrite (find_none _ _ Hfind f Hin) in Heq. }
    rewrite Hex. reflexivity.
Qed.

(** No action adds, drops, renames or reorders a file checkbox. *)
Lemma flip_file_paths (i : nat) (fcs : list FileCheckbox) :
  map data_file (flip_file i fcs) = map data_file fcs.
Proof.
  revert i. induction fcs as [| cb fcs IH]; intros [| i]; cbn; try reflexivity.
  now rewrite IH.
Qed.

Lemma map_paths (g : FileCheckbox -> FileCheckbox) (fcs : list FileCheckbox) :
  (forall cb, data_file (g cb) = data_file cb) ->
  map data_file (map g fcs) = map data_file fcs.
Proof. intros Hg. rewrite map_map. now apply map_ext. Qed.

Lemma act_paths (a : Action) (pg : Page) :
  map data_file (file_checkboxes (act fileData a pg)) = map data_file (file_checkboxes pg).
Proof.
  destruct a as [i | i | | | ext |]; cbn [act].
  - unfold click_file. destruct (nth_error (file_checkboxes pg) i); [| reflexivity].
    cbn [updateSelection with_files file_checkboxes]. apply flip_file_paths.
  - unfold click_folder. destruct (nth_error (folder_checkboxes pg) i); [| reflexivity].
    unfold toggleFolder. cbn [updateSelection with_files with_folders file_checkboxes].
    apply map_paths. intros cb. now destruct (in_folder _ _).
  - cbn. now apply map_paths.
  - cbn. now apply map_paths.
  - unfold filterByExtension, deselectAll.
    cbn [updateSelection with_files file_checkboxes]. rewrite set_all_files.
    rewrite map_paths; [now apply map_paths |].
    intros cb. now destruct (Str.endswith _ _).
  - unfold toggleTests. cbn [updateSelection with_files file_checkboxes].
    apply map_paths. intros cb. now destruct (is_test_path _).
Qed.

Lemma run_paths (actions : list Action) :
  forall pg,
    map data_file (file_checkboxes (run fileData actions pg))
    = map data_file (file_checkboxes pg).
Proof.
  induction actions as [| a actions IH]; intros pg; [reflexivity |].
  unfold run in *. cbn [fold_left]. rewrite IH. apply act_paths.
Qed.

(** C2, amended. The regenerated export wraps one [<document>] for each
    checked file checkbox whose [data-file] value is the path of an
    entry of [fileData], and none for a checked checkbox whose value is
    the path of no entry; the documents are in the document order of the
    checkboxes, numbered from 1 in that order, each with the path and
    the content, as they are there, of the first entry of [fileData]
    with that path.  When every checkbox value is the path of an entry,
    there is exactly one document per checked checkbox.  No action
    adds, drops, renames or reorders a file checkbox, so the document
    order is the one the page was built with. *)
Theorem export_in_document_order (pg : Page) :
  llm_text (updateSelection fileData pg)
  = ("<documents>" ++ Str.newline ++ documents 1 (selected_files fileData pg)
     ++ "</documents>")%string /\
  map fd_path (selected_files fileData pg)
  = filter (fun path => existsb (fun f => String.eqb (fd_path f) path) fileData)
           (map data_file (checked_boxes pg)) /\
  Forall (fun f => find_file fileData (fd_path f) = Some f) (selected_files fileData pg) /\
  ((forall cb, In cb (file_checkboxes pg) ->
               exists f, In f fileData /\ fd_path f = data_file cb) ->
   map fd_path (selected_files fileData pg) = map data_file (checked_boxes pg)) /\
  (forall actions,
      map data_file (file_checkboxes (run fileData actions pg))
      = map data_file (file_checkboxes pg)).
Proof.
  split; [| split; [| split; [| split]]].
  - cbn [updateSelection llm_text]. unfold updateLLMText.
    rewrite llm_loop_documents. cbn [Nat.add]. now rewrite !append_assoc.
  - apply selected_paths.
  - unfold selected_files. apply Forall_forall. intros f Hin.
    apply in_flat_map in Hin. destruct Hin as [cb [_ Hf]].
    destruct (find_file fileData (data_file cb)) as [g |] eqn:Hfind; [| contradiction].
    destruct Hf as [Hf | []]. subst g.
    unfold find_file in Hfind. pose proof (find_some _ _ Hfind) as [_ Heq].
    apply String.eqb_eq in Heq. unfold find_file. now rewrite Heq.
  - intros Hall. unfold selected_files. rewrite selected_paths.
    unfold checked_boxes.
    induction (file_checkboxes pg) as [| cb fcs IH]; [reflexivity |].
    cbn [filter]. assert (Hrest : forall c, In c fcs ->
                             exists f, In f fileData /\ fd_path f = data_file c)
      by (intros c Hc; apply Hall; now right).
    destruct (checked cb); [| now apply IH].
    cbn [map filter].
    destruct (Hall cb (or_introl eq_refl)) as [f [Hf Hpath]].
    assert (Hex : existsb (fun f => String.eqb (fd_path f) (data_file cb)) fileData = true).
    { apply existsb_exists. exists f. split; [exact Hf | now apply String.eqb_eq]. }
    rewrite Hex. f_equal. now apply IH.
  - intros actions. apply run_paths.
Qed.

(** C3, amended. A click on a folder checkbox flips that checkbox and
    writes the new value through to every file checkbox under the
    folder; the derived views do not read the folder checkboxes; the
    folder checkboxes keep their own flags, which a click on a file and
    [toggleTests] leave as they are and [filterByExtension] leaves
    cleared. *)
Theorem folder_click_writes_through (pg : Page) :
  (forall i cb,
     nth_error (folder_checkboxes pg) i = Some cb ->
     nth_error (folder_checkboxes (click_folder fileData i pg)) i
     = Some (set_folder_checked (negb (folder_checked cb)) cb) /\
     Forall (fun f => checked f = negb (folder_checked cb))
            (SelectionSpec.descendants (data_folder cb) (click_folder fileData i pg))) /\
  (forall dcs,
     let pg' := updateSelection fileData (with_folders dcs pg) in
     sections pg' = sections (updateSelection fileData pg) /\
     selected_count pg' = selected_count (updateSelection fileData pg) /\
     selected_size pg' = selected_size (updateSelection fileData pg) /\
     llm_text pg' = llm_text (updateSelection fileData pg)) /\
  (forall i, folder_checkboxes (click_file fileData i pg) = folder_checkboxes pg) /\
  folder_checkboxes (toggleTests fileData pg) = folder_checkboxes pg /\
  (forall ext,
     folder_checkboxes (filterByExtension fileData ext pg)
     = map (set_folder_checked false) (folder_checkboxes pg)).
Proof.
  split; [| split; [| split; [| split]]].
  - intros i cb Hnth. unfold click_folder. rewrite Hnth. split.
    + unfold toggleFolder, updateSelection. cbn [with_files with_folders folder_checkboxes].
      clear - Hnth. revert i Hnth.
      induction (folder_checkboxes pg) as [| d dcs IH]; intros [| i] Hnth;
        try discriminate.
      * cbn in Hnth. inversion Hnth. reflexivity.
      * cbn [flip_folder nth_error]. apply IH. exact Hnth.
    + apply toggleFolder_descendants.
  - intros dcs. repeat split.
  - intros i. unfold click_file.
    destruct (nth_error (file_checkboxes pg) i); reflexivity.
  - reflexivity.
  - intros ext. reflexivity.
Qed.

End Script.

(** *** Concrete pages *)

Lemma toggleTests_involutive_witness :
  nth_error (file_checkboxes (toggleTests data_tests page_tests)) 1
  = Some {| data_file := "src/main_test.py"; checked := false |}.
Proof.
  apply (proj1 (toggleTests_involutive data_tests page_tests) 1
           {| data_file := "src/main_test.py"; checked := true |}).
  reflexivity.
Defined.

(** C2, as stated, fails: the manifest lists [a.py] before [b/c.py],
    the tree shows the folder [b] before the file [a.py], and the export
    follows the tree: [b/c.py] is document 1 and [a.py] document 2. *)
Lemma export_not_in_manifest_order :
  Scanner.collect_files fs_two ["repo"] Classifier.MAX_DEFAULT_BYTES true = Ok manifest_two /\
  file_data read_two manifest_two = Some data_two /\
  map data_file (checked_boxes page_two) = ["b/c.py"; "a.py"] /\
  llm_text page_two
  = ("<documents>" ++ Str.newline ++ document_entry 1 datum_c ++ document_entry 2 datum_a
     ++ "</documents>")%string /\
  SelectionSpec.export_in_manifest_order data_two page_two = [datum_a; datum_c] /\
  selected_files data_two page_two <> SelectionSpec.export_in_manifest_order data_two page_two.
Proof.
  split; [vm_compute; reflexivity |].
  split; [vm_compute; reflexivity |].
  split; [vm_compute; reflexivity |].
  split; [vm_compute; reflexivity |].
  split; [vm_compute; reflexivity |].
  intros H. vm_compute in H. discriminate.
Qed.

Lemma export_in_document_order_witness :
  map fd_path (selected_files data_two page_two) = map data_file (checked_boxes page_two).
Proof.
  apply (export_in_document_order data_two page_two).
  intros cb Hin. cbn in Hin.
  destruct Hin as [Hin | [Hin | []]]; subst cb.
  - exists datum_c. split; [right; now left | reflexivity].
  - exists datum_a. split; [now left | reflexivity].
Defined.

(** C3, as stated, fails: the folder checkbox holds a flag of its own.
    Unchecking the file leaves the folder [a] checked although none of
    its files is selected; unchecking the folder gives the same file
    checkboxes with the folder unchecked; filtering by ".py" leaves the
    folder unchecked although all its files are selected. *)
Lemma folder_flag_diverges :
  (folder_checkboxes (click_file data_one 0 page_one)
   = [{| data_folder := "a"; folder_checked := true |}] /\
   SelectionSpec.folder_view "a" (click_file data_one 0 page_one)
   = SelectionSpec.NoneSelected) /\
  (file_checkboxes (click_folder data_one 0 page_one)
   = file_checkboxes (click_file data_one 0 page_one) /\
   folder_checkboxes (click_folder data_one 0 page_one)
   <> folder_checkboxes (click_file data_one 0 page_one)) /\
  (folder_checkboxes (filterByExtension data_one ".py" page_one)
   = [{| data_folder := "a"; folder_checked := false |}] /\
   file_checkboxes (filterByExtension data_one ".py" page_one)
   = [{| data_file := "a/x.py"; checked := true |}] /\
   SelectionSpec.folder_view "a" (filterByExtension data_one ".py" page_one)
   = SelectionSpec.AllSelected).
Proof.
  split; [split; vm_compute; reflexivity |].
  split; [| repeat split; vm_compute; reflexivity].
  split; [vm_compute; reflexivity |].
  intros H. vm_compute in H. discriminate.
Qed.

Lemma folder_click_writes_through_witness :
  nth_error (folder_checkboxes (click_folder data_two 0 page_two)) 0
  = Some {| data_folder := "b"; folder_checked := false |} /\
  Forall (fun f => checked f = false)
         (SelectionSpec.descendants "b" (click_folder data_two 0 page_two)).
Proof.
  apply (proj1 (folder_click_writes_through data_two page_two) 0
           {| data_folder := "b"; folder_checked := true |}).
  reflexivity.
Defined.

Lemma toggleFolder_overwrites_witness :
  nth_error (file_checkboxes (toggleFolder data_two "b" false page_two)) 0
  = Some {| data_file := "b/c.py"; checked := false |}.
Proof.
  apply (proj1 (toggleFolder_overwrites data_two "b" false page_two) 0
           {| data_file := "b/c.py"; checked := true |}).
  reflexivity.
Defined.

End PageFacts.

(** ** Paths as joined segments *)

Module SegFacts.

Import TreeShape.

Lemma split_no_slash (s : string) : Forall (fun seg => no_slash seg = true) (Str.split s).
Proof.
  induction s as [| c s IH]; cbn [Str.split].
  - repeat constructor.
  - destruct (Ascii.eqb c Str.slash) eqn:Hc.
    + constructor; [reflexivity | exact IH].
    + destruct (Str.split s) as [| field fields].
      * repeat constructor. cbn. now rewrite Hc.
      * inversion IH as [| ? ? Hfield Hfields]; subst.
        constructor; [| exact Hfields]. cbn. now rewrite Hc, Hfield.
Qed.

Lemma rstrip_no_slash (s : string) : no_slash s = true -> Str.rstrip s = s.
Proof.
  induction s as [| c s IH]; [reflexivity |].
  cbn [no_slash Str.rstrip]. intros H. apply andb_true_iff in H. destruct H as [Hc Hs].
  rewrite (IH Hs). apply negb_true_iff in Hc. rewrite Hc. now destruct s.
Qed.

Lemma rstrip_append (a b : string) :
  b <> "" -> Str.rstrip b = b -> Str.rstrip (a ++ b) = (a ++ b)%string.
Proof.
  intros Hb Hr. induction a as [| c a IH]; [exact Hr |].
  cbn [String.append Str.rstrip]. rewrite IH.
  destruct (a ++ b)%string eqn:Hab; [| reflexivity].
  destruct a; [cbn in Hab; contradiction | discriminate].
Qed.

Lemma join_cons (x : string) (xs : list string) :
  xs <> [] -> Str.join (x :: xs) = (x ++ "/" ++ Str.join xs)%string.
Proof. destruct xs; [contradiction | reflexivity]. Qed.

Lemma join_snoc (xs : list string) (k : string) :
  xs <> [] -> Str.join (xs ++ [k]) = (Str.join xs ++ "/" ++ k)%string.
Proof.
  induction xs as [| x xs IH]; [contradiction |]. intros _.
  destruct xs as [| y ys]; [reflexivity |].
  change ((x :: y :: ys) ++ [k]) with (x :: ((y :: ys) ++ [k])).
  rewrite (join_cons x ((y :: ys) ++ [k])) by (cbn; discriminate).
  rewrite IH by discriminate.
  rewrite (join_cons x (y :: ys)) by discriminate.
  now rewrite !PageFacts.append_assoc.
Qed.

Lemma join_nonempty (xs : list string) :
  xs <> [] -> Forall (fun seg => seg <> "") xs -> Str.join xs <> "".
Proof.
  destruct xs as [| x xs]; [contradiction |]. intros _ H.
  inversion H as [| ? ? Hx _]; subst.
  destruct xs; [exact Hx |].
  rewrite join_cons by discriminate. destruct x; [contradiction | discriminate].
Qed.

(** The path of a folder below [join pre]. *)
Lemma folder_path_join (pre : list string) (k : string) :
  Forall (fun seg => seg <> "") pre ->
  Tree.folder_path_of (Str.join pre) k = Str.join (pre ++ [k]).
Proof.
  intros Hpre. destruct pre as [| x xs]; [reflexivity |].
  rewrite join_snoc by discriminate.
  unfold Tree.folder_path_of.
  destruct (Str.join (x :: xs)) eqn:Hj; [| reflexivity].
  exfalso. revert Hj. apply join_nonempty; [discriminate | exact Hpre].
Qed.

(** A joined path of non-empty, slash-free segments has no trailing slash. *)
Lemma rstrip_join (xs : list string) :
  Forall (fun seg => seg <> "") xs ->
  Forall (fun seg => no_slash seg = true) xs ->
  Str.rstrip (Str.join xs) = Str.join xs.
Proof.
  intros Hne Hns.
  destruct xs as [| x xs]; [reflexivity |].
  destruct (@exists_last _ (x :: xs) ltac:(discriminate)) as [ys [k Hk]].
  rewrite Hk in *. clear Hk x xs.
  apply Forall_app in Hne. destruct Hne as [_ Hk].
  apply Forall_app in Hns. destruct Hns as [_ Hks].
  inversion Hk as [| ? ? Hkne _]; subst. inversion Hks as [| ? ? Hkns _]; subst.
  destruct ys as [| y ys]; [cbn; now apply rstrip_no_slash |].
  rewrite join_snoc by discriminate.
  rewrite <- PageFacts.append_assoc.
  apply rstrip_append; [exact Hkne | now apply rstrip_no_slash].
Qed.

Lemma substring_all (s : string) : String.substring 0 (String.length s) s = s.
Proof. induction s as [| c s IH]; [reflexivity |]. cbn. now rewrite IH. Qed.

Lemma from_S (i : nat) (c : ascii) (s : string) :
  Str.from (S i) (String c s) = Str.from i s.
Proof. reflexivity. Qed.

Lemma from_0 (s : string) : Str.from 0 s = s.
Proof. unfold Str.from. rewrite Nat.sub_0_r. apply substring_all. Qed.

Lemma split_single (s : string) : Str.rfind Str.slash s = None -> Str.split s = [s].
Proof.
  induction s as [| c s IH]; [reflexivity |]. cbn [Str.rfind Str.split].
  destruct (Str.rfind Str.slash s); [discriminate |].
  destruct (Ascii.eqb c Str.slash); [discriminate |]. intros _. now rewrite IH.
Qed.

Lemma split_many (s : string) (i : nat) :
  Str.rfind Str.slash s = Some i -> exists a b rest, Str.split s = a :: b :: rest.
Proof.
  revert i. induction s as [| c s IH]; [discriminate |]. intros i. cbn [Str.rfind Str.split].
  destruct (Ascii.eqb c Str.slash).
  - intros _. destruct (Str.split s) as [| a rest] eqn:Hs.
    + now destruct (StrFacts.split_nonempty s).
    + now exists "", a, rest.
  - destruct (Str.rfind Str.slash s) as [j |]; [| discriminate]. intros _.
    destruct (IH j eq_refl) as [a [b [rest Hs]]]. rewrite Hs.
    now exists (String c a), b, rest.
Qed.

(** [os.path.basename(rel)] is [rel.split("/")[-1]]. *)
Lemma basename_last (s : string) : Str.basename s = last (Str.split s) "".
Proof.
  induction s as [| c s IH]; [reflexivity |].
  unfold Str.basename in *. cbn [Str.rfind Str.split].
  destruct (Str.rfind Str.slash s) as [i |] eqn:Hr.
  - replace (S i + 1) with (S (i + 1)) by reflexivity. rewrite from_S, IH.
    destruct (split_many s i Hr) as [a [b [rest Hs]]]. rewrite Hs.
    destruct (Ascii.eqb c Str.slash); reflexivity.
  - rewrite (split_single s Hr). destruct (Ascii.eqb c Str.slash).
    + cbn [Nat.add]. rewrite from_S, from_0. reflexivity.
    + reflexivity.
Qed.

End SegFacts.

(** ** The stable insertion sort *)

Module SortFacts.

Section Sorting.

Variable A : Type.
Variable le : A -> A -> bool.
Hypothesis le_total : forall a b, le a b = true \/ le b a = true.

Lemma insert_sorted_In (x y : A) (l : list A) :
  In y (insert_sorted le x l) <-> y = x \/ In y l.
Proof.
  induction l as [| z l IH]; cbn [insert_sorted].
  - cbn. intuition auto.
  - destruct (le x z); cbn [In]; [intuition auto |].
    rewrite IH. intuition auto.
Qed.

Lemma sorted_In (y : A) (l : list A) : In y (sorted le l) <-> In y l.
Proof.
  induction l as [| x l IH]; cbn [sorted]; [reflexivity |].
  rewrite insert_sorted_In, IH. cbn. intuition auto.
Qed.

Lemma insert_sorted_HdRel (x a : A) (l : list A) :
  le a x = true ->
  HdRel (fun u v => le u v = true) a l ->
  HdRel (fun u v => le u v = true) a (insert_sorted le x l).
Proof.
  intros Hax Hal. destruct l as [| z l]; cbn [insert_sorted].
  - now constructor.
  - destruct (le x z); constructor; [exact Hax |].
    now inversion Hal.
Qed.

Lemma insert_sorted_Sorted (x : A) (l : list A) :
  Sorted (fun u v => le u v = true) l ->
  Sorted (fun u v => le u v = true) (insert_sorted le x l).
Proof.
  induction l as [| z l IH]; intros Hl; cbn [insert_sorted].
  - repeat constructor.
  - destruct (le x z) eqn:Hxz.
    + constructor; [exact Hl | now constructor].
    + inversion Hl as [| ? ? Hs Hh]; subst.
      constructor; [now apply IH |].
      apply insert_sorted_HdRel; [| exact Hh].
      destruct (le_total z x) as [H | H]; [exact H | congruence].
Qed.

Lemma sorted_Sorted (l : list A) : Sorted (fun u v => le u v = true) (sorted le l).
Proof.
  induction l as [| x l IH]; cbn [sorted]; [constructor |].
  now apply insert_sorted_Sorted.
Qed.

End Sorting.

Lemma Sorted_map_key {A : Type} (key : A -> string) (l : list A) :
  Sorted (fun u v => String.leb (key u) (key v) = true) l ->
  Sorted le_str (map key l).
Proof.
  induction 1 as [| x l Hs IH Hh]; cbn [map]; constructor; [exact IH |].
  destruct Hh; cbn [map]; now constructor.
Qed.

Lemma sorted_by_key_Sorted {A : Type} (key : A -> string) (l : list A) :
  Sorted le_str (map key (sorted_by_key key l)).
Proof.
  apply Sorted_map_key. unfold sorted_by_key.
  apply (sorted_Sorted A (fun x y => String.leb (key x) (key y))).
  intros a b. apply String.leb_total.
Qed.

Lemma sorted_by_key_In {A : Type} (key : A -> string) (y : A) (l : list A) :
  In y (sorted_by_key key l) <-> In y l.
Proof. apply sorted_In. Qed.

End SortFacts.

(** ** Tree builder *)

Module TreeFacts.

Import Classifier Tree TreeShape Examples.

Lemma has_chain_empty (chain : list string) : has_chain chain (Dict []) -> chain = [].
Proof. destruct chain; [reflexivity |]. intros [v [[] _]]. Qed.

(** What [descend] leaves in the dictionary. *)
Lemma descend_In (part : string) (walk : Folders -> Folders) (its : list (string * Folders))
    (k : string) (v : Folders) :
  In (k, v) (descend part walk its) ->
  In (k, v) its \/
  (k = part /\ exists v0, (In (part, v0) its \/ v0 = Dict []) /\ v = walk v0).
Proof.
  induction its as [| [k0 v0] its IH]; cbn [descend].
  - intros [H | []]. inversion H; subst. right. split; [reflexivity |].
    exists (Dict []). split; [now right | reflexivity].
  - destruct (String.eqb k0 part) eqn:Hk.
    + apply String.eqb_eq in Hk. subst k0. intros [H | H].
      * inversion H; subst. right. split; [reflexivity |].
        exists v0. split; [left; now left | reflexivity].
      * left. now right.
    + intros [H | H].
      * left. now left.
      * destruct (IH H) as [Hin | [Hkp [w [[Hw | Hw] Hv]]]].
        -- left. now right.
        -- right. split; [exact Hkp |]. exists w. split; [left; now right | exact Hv].
        -- right. split; [exact Hkp |]. exists w. split; [now right | exact Hv].
Qed.

Lemma descend_keeps (part : string) (walk : Folders -> Folders)
    (its : list (string * Folders)) (k : string) (v : Folders) :
  In (k, v) its ->
  In (k, v) (descend part walk its) \/ (k = part /\ In (k, walk v) (descend part walk its)).
Proof.
  induction its as [| [k0 v0] its IH]; [intros [] |].
  cbn [descend]. destruct (String.eqb k0 part) eqn:Hk.
  - apply String.eqb_eq in Hk. subst k0. intros [H | H].
    + inversion H; subst. right. split; [reflexivity | now left].
    + left. now right.
  - intros [H | H].
    + left. now left.
    + destruct (IH H) as [Hin | [Hkp Hin]].
      * left. now right.
      * right. split; [exact Hkp | now right].
Qed.

Lemma descend_has (part : string) (walk : Folders -> Folders)
    (its : list (string * Folders)) :
  exists v0, In (part, walk v0) (descend part walk its).
Proof.
  induction its as [| [k0 v0] its IH]; cbn [descend].
  - exists (Dict []). now left.
  - destruct (String.eqb k0 part) eqn:Hk.
    + apply String.eqb_eq in Hk. subst k0. exists v0. now left.
    + destruct IH as [w Hw]. exists w. now right.
Qed.

(** The chains of a dictionary after one walk of [add_path]. *)
Lemma add_path_chains (parts : list string) :
  forall t chain,
    has_chain chain (add_path parts t) <->
    has_chain chain t \/ exists rest, parts = chain ++ rest.
Proof.
  induction parts as [| part parts IH]; intros t chain; cbn [add_path].
  - split; [now left |]. intros [H | [rest H]]; [exact H |].
    symmetry in H. apply app_eq_nil in H. destruct H as [H _]. subst. exact I.
  - destruct chain as [| k ks].
    + split; [now left | intros _; exact I].
    + cbn [has_chain items]. split.
      * intros [v [Hin Hks]].
        destruct (descend_In _ _ _ _ _ Hin) as [Hold | [Hk [v0 [Hv0 Hv]]]].
        -- left. now exists v.
        -- subst k v. apply IH in Hks. destruct Hks as [Hks | [rest Hrest]].
           ++ destruct Hv0 as [Hv0 | Hv0].
              ** left. now exists v0.
              ** subst v0. apply has_chain_empty in Hks. subst ks.
                 right. now exists parts.
           ++ right. exists rest. cbn. now rewrite Hrest.
      * intros [[v [Hin Hks]] | [rest Hrest]].
        -- destruct (descend_keeps part (add_path parts) _ _ _ Hin) as [Hnew | [Hk Hnew]].
           ++ now exists v.
           ++ exists (add_path parts v). split; [exact Hnew |]. apply IH. now left.
        -- cbn in Hrest. injection Hrest as Hk Hparts. subst k.
           destruct (descend_has part (add_path parts) (items t)) as [v0 Hv0].
           exists (add_path parts v0). split; [exact Hv0 |].
           apply IH. right. now exists rest.
Qed.

Lemma fold_add_path_chains (rendered : list FileInfo) :
  forall t chain,
    has_chain chain
      (fold_left (fun folders info => add_path (parent_parts info) folders) rendered t) <->
    has_chain chain t \/
    exists info rest, In info rendered /\ parent_parts info = chain ++ rest.
Proof.
  induction rendered as [| i rendered IH]; intros t chain; cbn [fold_left].
  - split; [now left |]. intros [H | [info [rest [[] _]]]]. exact H.
  - rewrite IH, add_path_chains. split.
    + intros [[H | [rest H]] | [info [rest [Hin H]]]].
      * now left.
      * right. exists i, rest. split; [now left | exact H].
      * right. exists info, rest. split; [now right | exact H].
    + intros [H | [info [rest [[Hin | Hin] H]]]].
      * left. now left.
      * subst info. left. right. now exists rest.
      * right. now exists info, rest.
Qed.

(** The chains of [build_folders]: the prefixes of the directory
    segments of the rendered files. *)
Lemma build_folders_chains (rendered : list FileInfo) (chain : list string) :
  has_chain chain (build_folders rendered) <->
  chain = [] \/ exists info rest, In info rendered /\ parent_parts info = chain ++ rest.
Proof.
  unfold build_folders. rewrite fold_add_path_chains. split.
  - intros [H | H]; [left; now apply has_chain_empty | now right].
  - intros [H | H]; [left; subst; exact I | now right].
Qed.

Lemma render_tree_eq (rendered : list FileInfo) (its : list (string * Folders))
    (path : string) (level : nat) :
  render_tree rendered (Dict its) path level
  = map snd (sorted_by_key fst (map (folder_node rendered path level) its))
    ++ map (file_node level) (sorted_by_key file_name (files_at rendered path)).
Proof. reflexivity. Qed.

Lemma folder_nodes_In (rendered : list FileInfo) (its : list (string * Folders))
    (path : string) (level : nat) (n : Node) :
  In n (map snd (sorted_by_key fst (map (folder_node rendered path level) its))) <->
  exists kv, In kv its /\ n = snd (folder_node rendered path level kv).
Proof.
  rewrite in_map_iff. split.
  - intros [kn [Hn Hin]]. apply SortFacts.sorted_by_key_In in Hin.
    apply in_map_iff in Hin. destruct Hin as [kv [Hkv Hin]].
    exists kv. split; [exact Hin | now subst].
  - intros [kv [Hin Hn]]. exists (folder_node rendered path level kv).
    split; [now symmetry |]. apply SortFacts.sorted_by_key_In. now apply in_map.
Qed.

Lemma file_nodes_folders (level : nat) (l : list FileInfo) :
  flat_map folder_paths (map (file_node level) l) = [].
Proof. induction l as [| i l IH]; [reflexivity | exact IH]. Qed.

Lemma file_nodes_files (level : nat) (l : list FileInfo) :
  flat_map file_paths (map (file_node level) l) = map rel l.
Proof. induction l as [| i l IH]; [reflexivity |]. cbn. now rewrite <- IH. Qed.

Lemma folder_nodes_files (l : list Node) (f : string) :
  In f (flat_map file_paths l) <-> exists n, In n l /\ In f (file_paths n).
Proof. apply in_flat_map. Qed.

(** The folder checkboxes of a rendered tree: one per non-empty chain. *)
Lemma render_tree_folders (rendered : list FileInfo) (t : Folders) :
  forall path level p,
    In p (flat_map folder_paths (render_tree rendered t path level)) <->
    exists chain, chain <> [] /\ has_chain chain t /\ p = extend path chain.
Proof.
  induction t as [its IH] using Folders_nested_ind. intros path level p.
  rewrite render_tree_eq, flat_map_app, in_app_iff, file_nodes_folders.
  rewrite Forall_forall in IH. split.
  - intros [H | []]. apply in_flat_map in H. destruct H as [n [Hn Hp]].
    apply folder_nodes_In in Hn. destruct Hn as [[k v] [Hkv Hn]]. subst n.
    cbn [folder_node fst snd folder_paths In] in Hp. destruct Hp as [Hp | Hp].
    + exists [k]. split; [discriminate |]. split; [| now subst].
      exists v. split; [exact Hkv | exact I].
    + apply (IH (k, v) Hkv) in Hp. destruct Hp as [chain [Hne [Hchain Hp]]].
      exists (k :: chain). split; [discriminate |]. split; [| exact Hp].
      exists v. split; [exact Hkv | exact Hchain].
  - intros [chain [Hne [Hchain Hp]]]. left.
    destruct chain as [| k chain]; [contradiction |].
    destruct Hchain as [v [Hkv Hchain]]. cbn [items] in Hkv.
    apply in_flat_map. exists (snd (folder_node rendered path level (k, v))). split.
    + apply folder_nodes_In. now exists (k, v).
    + cbn [folder_node fst snd folder_paths In].
      destruct chain as [| k' chain]; [left; now subst |].
      right. apply (IH (k, v) Hkv). exists (k' :: chain).
      split; [discriminate |]. split; [exact Hchain | exact Hp].
Qed.

(** The file checkboxes of a rendered tree: the rendered files whose
    directory is the path of a chain. *)
Lemma render_tree_files (rendered : list FileInfo) (t : Folders) :
  forall path level f,
    In f (flat_map file_paths (render_tree rendered t path level)) <->
    exists chain info,
      has_chain chain t /\ In info rendered /\
      Str.join (parent_parts info) = Str.rstrip (extend path chain) /\
      rel info = f.
Proof.
  induction t as [its IH] using Folders_nested_ind. intros path level f.
  rewrite render_tree_eq, flat_map_app, in_app_iff, file_nodes_files.
  rewrite Forall_forall in IH. split.
  - intros [H | H].
    + apply in_flat_map in H. destruct H as [n [Hn Hf]].
      apply folder_nodes_In in Hn. destruct Hn as [[k v] [Hkv Hn]]. subst n.
      cbn [folder_node fst snd file_paths] in Hf.
      apply (IH (k, v) Hkv) in Hf. destruct Hf as [chain [info [Hchain H]]].
      exists (k :: chain), info. split; [| exact H].
      exists v. split; [exact Hkv | exact Hchain].
    + apply in_map_iff in H. destruct H as [info [Hrel Hin]].
      apply SortFacts.sorted_by_key_In in Hin. apply filter_In in Hin.
      destruct Hin as [Hin Heq]. apply String.eqb_eq in Heq.
      exists [], info. split; [exact I |]. split; [exact Hin |]. split; [exact Heq | exact Hrel].
  - intros [chain [info [Hchain [Hin [Heq Hrel]]]]].
    destruct chain as [| k chain].
    + right. apply in_map_iff. exists info. split; [exact Hrel |].
      apply SortFacts.sorted_by_key_In. apply filter_In. split; [exact Hin |].
      apply String.eqb_eq. exact Heq.
    + left. destruct Hchain as [v [Hkv Hchain]]. cbn [items] in Hkv.
      apply in_flat_map. exists (snd (folder_node rendered path level (k, v))). split.
      * apply folder_nodes_In. now exists (k, v).
      * cbn [folder_node fst snd file_paths].
        apply (IH (k, v) Hkv). exists chain, info. now repeat split.
Qed.

Lemma extend_join (chain : list string) :
  forall pre,
    Forall (fun seg => seg <> "") pre ->
    Forall (fun seg => seg <> "") chain ->
    extend (Str.join pre) chain = Str.join (pre ++ chain).
Proof.
  induction chain as [| k chain IH]; intros pre Hpre Hchain.
  - now rewrite app_nil_r.
  - inversion Hchain as [| ? ? Hk Hrest]; subst.
    unfold extend. cbn [fold_left]. fold (extend (folder_path_of (Str.join pre) k) chain).
    rewrite SegFacts.folder_path_join by exact Hpre.
    rewrite IH; [| | exact Hrest].
    + now rewrite <- app_assoc.
    + apply Forall_app. split; [exact Hpre | now repeat constructor].
Qed.

Lemma Forall_removelast {A : Type} (P : A -> Prop) (l : list A) :
  Forall P l -> Forall P (removelast l).
Proof.
  induction 1 as [| x l Hx Hl IH]; [constructor |].
  cbn [removelast]. destruct l; [constructor | now constructor].
Qed.

Lemma covered_add_path (rendered : list FileInfo) (info : FileInfo) (parts : list string) :
  In info rendered ->
  forall pre t,
    parent_parts info = pre ++ parts ->
    covered rendered pre t ->
    covered rendered pre (add_path parts t).
Proof.
  intros Hinfo. induction parts as [| part parts IH]; intros pre t Hpp Hcov; [exact Hcov |].
  cbn [add_path]. destruct Hcov as [pre its Hits]. cbn [items].
  constructor. intros k v Hin.
  assert (Hpp' : parent_parts info = (pre ++ [part]) ++ parts)
    by (now rewrite <- app_assoc).
  destruct (descend_In _ _ _ _ _ Hin) as [Hold | [Hk [v0 [[Hv0 | Hv0] Hv]]]].
  - now apply Hits.
  - subst k v. destruct (Hits part v0 Hv0) as [[info1 [rest1 [Hin1 [Hpp1 Hc1]]]] Hcov1].
    split.
    + exists info1, rest1. split; [exact Hin1 |]. split; [exact Hpp1 |].
      apply add_path_chains. now left.
    + now apply IH.
  - subst k v v0. split.
    + exists info, parts. split; [exact Hinfo |]. split; [exact Hpp |].
      apply add_path_chains. right. exists []. now rewrite app_nil_r.
    + apply IH; [exact Hpp' |]. constructor. intros k v [].
Qed.

Lemma covered_build_folders (rendered : list FileInfo) :
  covered rendered [] (build_folders rendered).
Proof.
  unfold build_folders.
  assert (H : forall l t,
             incl l rendered -> covered rendered [] t ->
             covered rendered []
               (fold_left (fun folders info => add_path (parent_parts info) folders) l t)).
  { induction l as [| i l IH]; intros t Hl Ht; [exact Ht |].
    cbn [fold_left]. apply IH.
    - intros x Hx. apply Hl. now right.
    - apply (covered_add_path rendered i); [apply Hl; now left | reflexivity | exact Ht]. }
  apply H; [apply incl_refl |]. constructor. intros k v [].
Qed.

Section Rendered.

Variable rendered : list FileInfo.

Hypothesis rendered_wf : forall info, In info rendered -> TreeShape.wf_rel (rel info).

Lemma parent_parts_nonempty (info : FileInfo) :
  In info rendered -> Forall (fun seg => seg <> "") (parent_parts info).
Proof. intros H. apply Forall_removelast. now apply rendered_wf. Qed.

Lemma parent_parts_no_slash (info : FileInfo) :
  Forall (fun seg => no_slash seg = true) (parent_parts info).
Proof. apply Forall_removelast. apply SegFacts.split_no_slash. Qed.

Lemma rstrip_parent (info : FileInfo) :
  In info rendered ->
  Str.rstrip (Str.join (parent_parts info)) = Str.join (parent_parts info).
Proof.
  intros H. apply SegFacts.rstrip_join;
    [now apply parent_parts_nonempty | apply parent_parts_no_slash].
Qed.

Lemma render_tree_populated (t : Folders) :
  forall pre level,
    covered rendered pre t ->
    Forall (fun seg => seg <> "") pre ->
    Forall populated (render_tree rendered t (Str.join pre) level).
Proof.
  induction t as [its IH] using Folders_nested_ind. intros pre level Hcov Hpre.
  rewrite Forall_forall in IH. rewrite render_tree_eq. apply Forall_app. split.
  - apply Forall_forall. intros n Hn.
    apply folder_nodes_In in Hn. destruct Hn as [[k v] [Hkv Hn]]. subst n.
    cbn [folder_node fst snd].
    inversion Hcov as [pre' its' Hits]; subst.
    destruct (Hits k v Hkv) as [[info [rest [Hin [Hpp Hchain]]]] Hcov'].
    pose proof (parent_parts_nonempty info Hin) as Hne. rewrite Hpp in Hne.
    apply Forall_app in Hne. destruct Hne as [_ Hne].
    inversion Hne as [| ? ? Hk Hrest]; subst.
    assert (Hpre' : Forall (fun seg => seg <> "") (pre ++ [k])).
    { apply Forall_app. split; [exact Hpre | now repeat constructor]. }
    rewrite SegFacts.folder_path_join by exact Hpre.
    constructor.
    + assert (Hleaf : In (rel info)
                         (flat_map file_paths
                            (render_tree rendered v (Str.join (pre ++ [k])) (S level)))).
      { apply render_tree_files. exists rest, info.
        split; [exact Hchain |]. split; [exact Hin |]. split; [| reflexivity].
        rewrite extend_join by assumption.
        rewrite <- app_assoc. cbn [app]. rewrite <- Hpp.
        symmetry. now apply rstrip_parent. }
      intros Hnil. rewrite Hnil in Hleaf. exact Hleaf.
    + now apply (IH (k, v) Hkv).
  - apply Forall_forall. intros n Hn. apply in_map_iff in Hn.
    destruct Hn as [info [Hn _]]. subst n. constructor.
Qed.

End Rendered.

Lemma render_tree_ordered (rendered : list FileInfo) (t : Folders) :
  forall path level, ordered (render_tree rendered t path level).
Proof.
  induction t as [its IH] using Folders_nested_ind. intros path level.
  rewrite Forall_forall in IH. rewrite render_tree_eq. constructor.
  - apply Forall_forall. intros n Hn. apply folder_nodes_In in Hn.
    destruct Hn as [kv [_ Hn]]. subst n. exact I.
  - apply Forall_forall. intros n Hn. apply in_map_iff in Hn.
    destruct Hn as [info [Hn _]]. subst n. exact I.
  - rewrite map_map.
    rewrite (map_ext_in _ fst).
    + apply SortFacts.sorted_by_key_Sorted.
    + intros kn Hkn. apply SortFacts.sorted_by_key_In in Hkn.
      apply in_map_iff in Hkn. destruct Hkn as [kv [Hkv _]]. now subst kn.
  - rewrite map_map.
    rewrite (map_ext _ file_name).
    + apply SortFacts.sorted_by_key_Sorted.
    + intros info. cbn [file_node label_of]. apply SegFacts.basename_last.
  - intros lvl p label children Hn. apply folder_nodes_In in Hn.
    destruct Hn as [[k v] [Hkv Hn]]. cbn [folder_node fst snd] in Hn.
    inversion Hn; subst. now apply (IH (k, v) Hkv).
Qed.

Lemma extend_root (chain : list string) :
  Forall (fun seg => seg <> "") chain -> extend "" chain = Str.join chain.
Proof. intros H. apply (extend_join chain [] (Forall_nil _) H). Qed.

(** C7. For a manifest whose included paths have no empty segment, the
    built tree has a file leaf exactly for the included records, a
    folder node exactly for the directories above some included file,
    no folder without a file below it, and at every level the folders
    before the files, each group sorted by name. *)
Theorem build_folder_tree_shape (infos : list FileInfo) :
  wf_manifest infos ->
  (forall f,
      In f (flat_map file_paths (build_folder_tree infos)) <->
      exists info, In info infos /\ include (decision info) = true /\ rel info = f) /\
  (forall p,
      In p (flat_map folder_paths (build_folder_tree infos)) <->
      exists info, In info infos /\ include (decision info) = true /\ under_dir p info) /\
  Forall populated (build_folder_tree infos) /\
  ordered (build_folder_tree infos).
Proof.
  intros Hwf. unfold build_folder_tree.
  set (rendered := filter (fun i => include (decision i)) infos).
  assert (HR : forall info, In info rendered -> wf_rel (rel info)).
  { intros info Hin. apply filter_In in Hin. destruct Hin as [Hin Hinc]. now apply Hwf. }
  split; [| split; [| split]].
  - intros f. rewrite render_tree_files. split.
    + intros [chain [info [_ [Hin [_ Hrel]]]]].
      apply filter_In in Hin. destruct Hin as [Hin Hinc]. now exists info.
    + intros [info [Hin [Hinc Hrel]]].
      assert (Hr : In info rendered) by (apply filter_In; now split).
      exists (parent_parts info), info.
      split; [| split; [exact Hr | split; [| exact Hrel]]].
      * apply build_folders_chains. right. exists info, []. split; [exact Hr |].
        now rewrite app_nil_r.
      * rewrite extend_root by (now apply (parent_parts_nonempty rendered HR)).
        symmetry. now apply (rstrip_parent rendered HR).
  - intros p. rewrite render_tree_folders. split.
    + intros [chain [Hne [Hchain Hp]]].
      apply build_folders_chains in Hchain.
      destruct Hchain as [Hnil | [info [rest [Hr Hpp]]]]; [contradiction |].
      pose proof (parent_parts_nonempty rendered HR info Hr) as Hsegs.
      rewrite Hpp in Hsegs. apply Forall_app in Hsegs. destruct Hsegs as [Hsegs _].
      rewrite extend_root in Hp by exact Hsegs.
      apply filter_In in Hr. destruct Hr as [Hin Hinc].
      exists info. split; [exact Hin |]. split; [exact Hinc |].
      now exists chain, rest.
    + intros [info [Hin [Hinc [dirs [rest [Hne [Hpp Hp]]]]]]].
      assert (Hr : In info rendered) by (apply filter_In; now split).
      exists dirs. split; [exact Hne |]. split.
      * apply build_folders_chains. right. now exists info, rest.
      * pose proof (parent_parts_nonempty rendered HR info Hr) as Hsegs.
        rewrite Hpp in Hsegs. apply Forall_app in Hsegs. destruct Hsegs as [Hsegs _].
        now rewrite extend_root.
  - apply (render_tree_populated rendered HR (build_folders rendered) [] 0).
    + apply covered_build_folders.
    + constructor.
  - apply render_tree_ordered.
Qed.

Lemma build_folder_tree_shape_witness :
  build_folder_tree sample_manifest
  = [TreeFolder 0 "src" "src"
       [TreeFolder 1 "src/app" "app" [TreeFile 2 "src/app/main.py" "main.py"];
        TreeFile 1 "src/util.py" "util.py"];
     TreeFile 0 "a.py" "a.py"] /\
  Forall populated (build_folder_tree sample_manifest) /\
  ordered (build_folder_tree sample_manifest).
Proof.
  split; [vm_compute; reflexivity |].
  apply (build_folder_tree_shape sample_manifest).
  intros info Hin _. unfold wf_rel. cbn in Hin.
  repeat (destruct Hin as [Hin | Hin]; [subst info; cbn; repeat constructor; discriminate |]).
  contradiction.
Defined.

End TreeFacts.

(** ** Classifier: path rules and the binary sniff *)

Module ClassifierMore.

Import Classifier TreeShape Examples MoreExamples.

Lemma prefix_cons (c d : ascii) (a b : string) :
  String.prefix (String c a) (String d b)
  = if Ascii.eqb c d then String.prefix a b else false.
Proof.
  cbn [String.prefix]. destruct (ascii_dec c d) as [e | n].
  - subst. now rewrite Ascii.eqb_refl.
  - apply Ascii.eqb_neq in n. now rewrite n.
Qed.

Lemma prefix_nil (b : string) : String.prefix "" b = true.
Proof. now destruct b. Qed.

Lemma prefix_app (a : string) : forall b c,
  String.prefix a b = true -> String.prefix a (b ++ c) = true.
Proof.
  induction a as [| x a IH]; intros b c H; [now destruct (b ++ c)%string |].
  destruct b as [| y b]; [discriminate |].
  cbn [String.append]. rewrite prefix_cons in *.
  destruct (Ascii.eqb x y); [now apply IH | discriminate].
Qed.

Lemma hd_split (d : ascii) (s : string) :
  hd "" (Str.split (String d s))
  = if Ascii.eqb "/" d then "" else String d (hd "" (Str.split s)).
Proof.
  cbn [Str.split]. unfold Str.slash. rewrite (Ascii.eqb_sym d "/").
  destruct (Ascii.eqb "/" d); [reflexivity |].
  destruct (Str.split s) eqn:Hs; [now destruct (StrFacts.split_nonempty s) | reflexivity].
Qed.

Lemma tl_split (d : ascii) (s : string) :
  tl (Str.split (String d s))
  = if Ascii.eqb "/" d then Str.split s else tl (Str.split s).
Proof.
  cbn [Str.split]. unfold Str.slash. rewrite (Ascii.eqb_sym d "/").
  destruct (Ascii.eqb "/" d); [reflexivity |].
  destruct (Str.split s) eqn:Hs; [now destruct (StrFacts.split_nonempty s) | reflexivity].
Qed.

Lemma split_hd_tl (s : string) : Str.split s = hd "" (Str.split s) :: tl (Str.split s).
Proof.
  destruct (Str.split s) eqn:Hs; [now destruct (StrFacts.split_nonempty s) | reflexivity].
Qed.

(** [seg + "/"] starts [s + "/"] exactly when [seg] is the first field of [s]. *)
Lemma prefix_first_field (seg : string) :
  no_slash seg = true ->
  forall s, String.prefix (seg ++ "/") (s ++ "/") = true <-> hd "" (Str.split s) = seg.
Proof.
  induction seg as [| c seg IH]; intros Hseg s.
  - destruct s as [| d s].
    + split; reflexivity.
    + cbn [String.append]. rewrite prefix_cons, hd_split.
      destruct (Ascii.eqb "/" d); split; intros H;
        try reflexivity; try discriminate; apply prefix_nil.
  - cbn [no_slash] in Hseg. apply andb_true_iff in Hseg. destruct Hseg as [Hc Hseg].
    apply negb_true_iff in Hc. unfold Str.slash in Hc.
    destruct s as [| d s].
    + cbn [String.append]. rewrite prefix_cons, Hc. split; discriminate.
    + cbn [String.append]. rewrite prefix_cons, hd_split.
      destruct (Ascii.eqb c d) eqn:Hcd.
      * apply Ascii.eqb_eq in Hcd. subst d. rewrite (Ascii.eqb_sym "/" c), Hc.
        rewrite (IH Hseg s).
        split; [intros H; now rewrite H | intros H; now inversion H].
      * split; [discriminate |]. intros H.
        destruct (Ascii.eqb "/" d); [discriminate |].
        inversion H. subst. now rewrite Ascii.eqb_refl in Hcd.
Qed.

Lemma prefix_of_empty (seg : string) : String.prefix (seg ++ "/") "" = false.
Proof. now destruct seg. Qed.

Lemma or_bool (b c : bool) (P Q : Prop) :
  (b = true <-> P) -> (c = true <-> Q) ->
  ((if b then true else c) = true <-> P \/ Q).
Proof. destruct b, c; intuition discriminate. Qed.

(** ["/" + seg + "/"] occurs in [s + "/"] exactly when [seg] is a field
    of [s] after the first. *)
Lemma includes_later_field (seg : string) :
  no_slash seg = true ->
  forall s,
    Str.includes ("/" ++ seg ++ "/") (s ++ "/") = true <-> In seg (tl (Str.split s)).
Proof.
  intros Hseg. induction s as [| d s IH].
  - cbn [String.append Str.includes]. rewrite prefix_cons.
    rewrite Ascii.eqb_refl, prefix_of_empty. cbn. split; [discriminate | contradiction].
  - cbn [String.append] in *.
    cbn [Str.includes]. rewrite prefix_cons, tl_split.
    destruct (Ascii.eqb "/" d).
    + rewrite (split_hd_tl s). cbn [In].
      apply or_bool; [| exact IH].
      rewrite (prefix_first_field seg Hseg s). split; intros H; now symmetry.
    + exact IH.
Qed.

Lemma includes_field (seg : string) (s : string) :
  no_slash seg = true ->
  Str.includes ("/" ++ seg ++ "/") ("/" ++ s ++ "/") = true <-> In seg (Str.split s).
Proof.
  intros Hseg. cbn [String.append]. cbn [Str.includes]. rewrite prefix_cons, Ascii.eqb_refl.
  rewrite (split_hd_tl s). cbn [In].
  apply or_bool.
  - rewrite (prefix_first_field seg Hseg s). split; intros H; now symmetry.
  - apply (includes_later_field seg Hseg s).
Qed.

(** X1. A path is treated as version-control metadata exactly when one
    of its slash-separated segments is ".git": the directory at any
    depth and a file named ".git" itself, but not ".gitignore" or
    ".github". *)
Theorem is_vcs_iff_git_segment (rel : string) :
  is_vcs rel = true <-> In ".git" (Str.split rel).
Proof.
  unfold is_vcs. rewrite orb_true_iff.
  rewrite (includes_field ".git" rel eq_refl). split; [| now left].
  intros [H | H]; [exact H |].
  unfold Str.startswith in H.
  apply (prefix_app ".git/" rel "/") in H.
  apply (prefix_first_field ".git" eq_refl rel) in H.
  rewrite (split_hd_tl rel). left. exact H.
Qed.


(** *** The binary sniff *)

Lemma between_bounds (lo hi : N) (b : byte) :
  between lo hi b = true <-> (lo <= Byte.to_N b /\ Byte.to_N b <= hi)%N.
Proof. unfold between. rewrite andb_true_iff, !N.leb_le. reflexivity. Qed.

Lemma utf8_valid_ascii (bs : list byte) :
  Forall (fun b => between 1 127 b = true) bs -> utf8_valid bs = true.
Proof.
  induction 1 as [| b bs Hb _ IH]; [reflexivity |].
  cbn [utf8_valid]. apply between_bounds in Hb.
  replace (between 0 127 b) with true; [exact IH |].
  symmetry. apply between_bounds. lia.
Qed.

Lemma no_nul_ascii (bs : list byte) :
  Forall (fun b => between 1 127 b = true) bs -> existsb (Byte.eqb x00) bs = false.
Proof.
  induction 1 as [| b bs Hb _ IH]; [reflexivity |].
  cbn [existsb]. rewrite IH, orb_false_r.
  destruct (Byte.eqb x00 b) eqn:Hz; [| reflexivity].
  apply Byte.byte_dec_bl in Hz. subst b. discriminate.
Qed.

Lemma Forall_firstn_keep {A : Type} (P : A -> Prop) (n : nat) (l : list A) :
  Forall P l -> Forall P (firstn n l).
Proof.
  revert l. induction n as [| n IH]; intros l H; [constructor |].
  destruct H; cbn [firstn]; constructor; auto.
Qed.

(** The extension test lowers KELVIN SIGN to "k", as [str.lower()]
    does: [clip.mKv] written with U+212A has a binary extension. *)
Lemma kelvin_sign_suffix_is_binary :
  Str.lower (".m" ++ String "226" (String "132" (String "170" "v"))) = ".mkv" /\
  looks_binary fs_notes
    ["repo"; ("clip.m" ++ String "226" (String "132" (String "170" "v")))%string] = true.
Proof. split; reflexivity. Qed.

(** X2. A readable file whose bytes are all ASCII and non-zero, with an
    extension outside the binary table, is not binary; when it also
    passes the path rules and the size ceiling, [decide_file] includes
    it. *)
Theorem ascii_text_is_included fs p root max_bytes skip_bloat rp sz content :
  relative_to p root = Ok rp ->
  stat_size fs p = Ok sz ->
  is_vcs (str_of_path rp) = false ->
  is_bloat (str_of_path rp) skip_bloat = false ->
  (sz <= max_bytes)%Z ->
  Str.mem (Str.lower (suffix p)) BINARY_EXTENSIONS = false ->
  fs_read fs p = Some content ->
  Forall (fun b => between 1 127 b = true) content ->
  looks_binary fs p = false /\
  decide_file fs p root max_bytes skip_bloat = Ok (info_of p rp sz ok).
Proof.
  intros Hrel Hstat Hvcs Hbloat Hsize Hext Hread Hascii.
  assert (Hbin : looks_binary fs p = false).
  { unfold looks_binary. rewrite Hext, Hread.
    pose proof (Forall_firstn_keep _ CHUNK content Hascii) as Hchunk.
    now rewrite (no_nul_ascii _ Hchunk), (utf8_valid_ascii _ Hchunk). }
  split; [exact Hbin |].
  unfold decide_file. rewrite Hrel. cbn [bind]. rewrite Hstat. cbn [bind].
  rewrite Hvcs, Hbloat, Hbin.
  replace (sz >? max_bytes)%Z with false; [reflexivity |].
  symmetry. rewrite Z.gtb_ltb. apply Z.ltb_ge. exact Hsize.
Qed.

Lemma ascii_text_is_included_witness :
  looks_binary fs_notes ["repo"; "notes.txt"] = false /\
  decide_file fs_notes ["repo"; "notes.txt"] ["repo"] 200 true
  = Ok (info_of ["repo"; "notes.txt"] ["notes.txt"] 150 ok).
Proof.
  apply (ascii_text_is_included fs_notes ["repo"; "notes.txt"] ["repo"] 200%Z true
           ["notes.txt"] 150%Z text150);
    try reflexivity; [vm_compute; discriminate |].
  unfold text150. apply Forall_forall. intros b Hb.
  apply repeat_spec in Hb. now subst b.
Defined.

(** A valid sequence never ends in a lead byte. *)
Lemma cont_bound (b : byte) : cont b = true -> (Byte.to_N b <= 191)%N.
Proof. unfold cont. intros H. apply between_bounds in H. lia. Qed.

Lemma utf8_valid_last (n : nat) :
  forall l b,
    List.length l <= n -> utf8_valid (l ++ [b]) = true -> (Byte.to_N b <= 191)%N.
Proof.
  induction n as [| n IH]; intros l b Hlen H.
  - destruct l; [| cbn in Hlen; lia]. cbn in H.
    destruct (between 0 127 b) eqn:Hb; [| discriminate].
    apply between_bounds in Hb. lia.
  - destruct l as [| b0 r0].
    + cbn in H. destruct (between 0 127 b) eqn:Hb; [| discriminate].
      apply between_bounds in Hb. lia.
    + cbn [List.length] in Hlen. cbn [app utf8_valid] in H.
      destruct (between 0 127 b0); [apply (IH r0 b); [lia | exact H] |].
      destruct r0 as [| b1 r1]; cbn [app List.length] in *.
      { destruct (between 194 223 b0); [| discriminate].
        apply andb_true_iff in H. destruct H as [H _]. now apply cont_bound. }
      destruct (between 194 223 b0).
      { apply andb_true_iff in H. destruct H as [_ H]. apply (IH r1 b); [lia | exact H]. }
      destruct r1 as [| b2 r2]; cbn [app List.length] in *.
      { destruct (between 224 239 b0); [| discriminate].
        apply andb_true_iff in H. destruct H as [H _].
        apply andb_true_iff in H. destruct H as [_ H]. now apply cont_bound. }
      destruct (between 224 239 b0).
      { apply andb_true_iff in H. destruct H as [_ H]. apply (IH r2 b); [lia | exact H]. }
      destruct r2 as [| b3 r3]; cbn [app List.length] in *.
      { destruct (between 240 244 b0); [| discriminate].
        apply andb_true_iff in H. destruct H as [H _].
        apply andb_true_iff in H. destruct H as [_ H]. now apply cont_bound. }
      destruct (between 240 244 b0); [| discriminate].
      apply andb_true_iff in H. destruct H as [_ H]. apply (IH r3 b); [lia | exact H].
Qed.

Lemma firstn_snoc {A : Type} (n : nat) :
  forall (l : list A) (x : A),
    nth_error l n = Some x -> firstn (S n) l = firstn n l ++ [x].
Proof.
  induction n as [| n IH]; intros [| y l] x H; try discriminate.
  - cbn in H. inversion H. reflexivity.
  - cbn [nth_error] in H. change (firstn (S (S n)) (y :: l)) with (y :: firstn (S n) l).
    now rewrite (IH l x H).
Qed.

(** X3. The sniff decodes the first 8192 bytes on their own: a file
    whose byte 8192 is the lead byte of a multi-byte character (any byte
    from 0xC0 up) is binary, also when the whole file is valid UTF-8. *)
Theorem lead_byte_at_chunk_end_is_binary fs p content b :
  fs_read fs p = Some content ->
  nth_error content (pred CHUNK) = Some b ->
  (192 <= Byte.to_N b)%N ->
  looks_binary fs p = true.
Proof.
  intros Hread Hnth Hlead. unfold looks_binary. rewrite Hread.
  destruct (Str.mem (Str.lower (suffix p)) BINARY_EXTENSIONS); [reflexivity |].
  replace CHUNK with (S (pred CHUNK)) by reflexivity.
  rewrite (firstn_snoc _ _ _ Hnth).
  destruct (existsb (Byte.eqb x00) (firstn (pred CHUNK) content ++ [b])); [reflexivity |].
  destruct (utf8_valid (firstn (pred CHUNK) content ++ [b])) eqn:Hvalid; [| reflexivity].
  apply (utf8_valid_last _ _ _ (le_n _)) in Hvalid. lia.
Qed.

Lemma lead_byte_at_chunk_end_is_binary_witness :
  utf8_valid accent_at_boundary = true /\
  looks_binary fs_accent ["repo"; "notes.txt"] = true.
Proof.
  split; [vm_compute; reflexivity |].
  apply (lead_byte_at_chunk_end_is_binary fs_accent ["repo"; "notes.txt"]
           accent_at_boundary xc3);
    [reflexivity | vm_compute; reflexivity | vm_compute; discriminate].
Defined.

(** X4. The verdict does not depend on the bytes after the first 8192:
    two file systems that agree on the size of a file and on its first
    8192 bytes (or on its being unreadable) give the same result. *)
Theorem verdict_reads_first_chunk_only fs fs' p root max_bytes skip_bloat :
  fs_stat fs p = fs_stat fs' p ->
  option_map (firstn CHUNK) (fs_read fs p) = option_map (firstn CHUNK) (fs_read fs' p) ->
  decide_file fs p root max_bytes skip_bloat = decide_file fs' p root max_bytes skip_bloat.
Proof.
  intros Hstat Hread.
  assert (Hbin : looks_binary fs p = looks_binary fs' p).
  { unfold looks_binary. revert Hread. generalize CHUNK. intros n Hread.
    destruct (fs_read fs p) as [c |], (fs_read fs' p) as [c' |];
      cbn [option_map] in Hread; [| discriminate Hread | discriminate Hread | reflexivity].
    injection Hread as Hchunk. rewrite Hchunk. reflexivity. }
  unfold decide_file, stat_size. rewrite Hstat, Hbin. reflexivity.
Qed.

Lemma verdict_reads_first_chunk_only_witness :
  decide_file fs_late_nul ["repo"; "notes.txt"] ["repo"] MAX_DEFAULT_BYTES true
  = decide_file fs_no_nul ["repo"; "notes.txt"] ["repo"] MAX_DEFAULT_BYTES true.
Proof.
  apply (verdict_reads_first_chunk_only fs_late_nul fs_no_nul);
    [reflexivity | vm_compute; reflexivity].
Defined.

End ClassifierMore.



(** ** Corpus scanner *)

Module ScannerFacts.

Import Classifier Scanner ScanShape Examples.

Lemma collect_loop_ok fs root max_bytes skip_bloat (ps : list Path) :
  forall infos,
    collect_loop fs root max_bytes skip_bloat ps = Ok infos ->
    map path infos = filter (eligible fs) ps /\
    Forall (fun info => decide_file fs (path info) root max_bytes skip_bloat = Ok info) infos.
Proof.
  induction ps as [| p ps IH]; intros infos H; cbn [collect_loop] in H.
  - inversion H. split; [reflexivity | constructor].
  - unfold eligible. cbn [filter]. fold (eligible fs).
    destruct (fs_is_symlink fs p) as [[|] | e]; cbn [bind] in H;
      [now apply IH | | discriminate].
    destruct (fs_is_file fs p) as [[|] | e]; cbn [bind] in H;
      [| now apply IH | discriminate].
    destruct (decide_file fs p root max_bytes skip_bloat) as [info | e] eqn:Hd;
      cbn [bind] in H; [| discriminate].
    destruct (collect_loop fs root max_bytes skip_bloat ps) as [rest | e] eqn:Hrest;
      cbn [bind] in H; [| discriminate].
    inversion H. subst infos. destruct (IH rest eq_refl) as [Hpaths Hall].
    assert (Hp : path info = p).
    { destruct (ClassifierFacts.decide_file_inv _ _ _ _ _ _ Hd) as [rp [sz [Hrel [Hstat _]]]].
      rewrite (ClassifierFacts.decide_file_unfold _ _ _ _ _ _ _ Hrel Hstat) in Hd.
      inversion Hd. reflexivity. }
    split.
    + cbn [map]. now rewrite Hp, Hpaths.
    + constructor; [now rewrite Hp | exact Hall].
Qed.

(** X5. When the scan returns a manifest, its records are, in order,
    the regular files of the sorted directory walk that are not
    symlinks, and each record is what [decide_file] returns for its
    path: a symlink or a directory never gets a record. *)
Theorem collect_files_manifest fs root max_bytes skip_bloat infos :
  collect_files fs root max_bytes skip_bloat = Ok infos ->
  map path infos = filter (eligible fs) (sorted path_leb (fs_rglob fs root)) /\
  Forall (fun info => decide_file fs (path info) root max_bytes skip_bloat = Ok info) infos.
Proof. apply collect_loop_ok. Qed.

Lemma collect_files_manifest_witness :
  map path manifest_two = [["repo"; "a.py"]; ["repo"; "b"; "c.py"]] /\
  Forall (fun info => decide_file fs_two (path info) ["repo"] MAX_DEFAULT_BYTES true = Ok info)
         manifest_two.
Proof.
  destruct (collect_files_manifest fs_two ["repo"] MAX_DEFAULT_BYTES true manifest_two)
    as [Hpaths Hall]; [vm_compute; reflexivity |].
  split; [reflexivity | exact Hall].
Defined.

Lemma collect_loop_all_or_nothing fs root max_bytes skip_bloat (ps : list Path) :
  (exists infos, collect_loop fs root max_bytes skip_bloat ps = Ok infos) <->
  (forall p, In p ps ->
             probed fs p /\
             (eligible fs p = true ->
              exists info, decide_file fs p root max_bytes skip_bloat = Ok info)).
Proof.
  induction ps as [| p ps IH]; cbn [collect_loop].
  - split; [intros _ p [] | intros _; now exists []].
  - unfold eligible, probed in *. split.
    + intros [infos H] q [Hq | Hq].
      * subst q.
        destruct (fs_is_symlink fs p) as [[|] | e]; cbn [bind] in H; [| | discriminate].
        { split; [exists true; split; [reflexivity | discriminate] | discriminate]. }
        destruct (fs_is_file fs p) as [[|] | e]; cbn [bind] in H; [| | discriminate].
        -- split; [exists false; split; [reflexivity | intros _; now exists true] |].
           intros _.
           destruct (decide_file fs p root max_bytes skip_bloat) as [info | e];
             [now exists info | discriminate].
        -- split; [exists false; split; [reflexivity | intros _; now exists false] |].
           discriminate.
      * apply (proj1 IH); [| exact Hq].
        destruct (fs_is_symlink fs p) as [[|] | e]; cbn [bind] in H;
          [now exists infos | | discriminate].
        destruct (fs_is_file fs p) as [[|] | e]; cbn [bind] in H;
          [| now exists infos | discriminate].
        destruct (decide_file fs p root max_bytes skip_bloat) as [info | e];
          cbn [bind] in H; [| discriminate].
        destruct (collect_loop fs root max_bytes skip_bloat ps) as [rest | e];
          [now exists rest | discriminate].
    + intros Hall.
      assert (Hrest : exists infos, collect_loop fs root max_bytes skip_bloat ps = Ok infos).
      { apply (proj2 IH). intros q Hq. apply Hall. now right. }
      destruct Hrest as [rest Hrest].
      destruct (Hall p (or_introl eq_refl)) as [[is_symlink [Hs Hfile]] Hdec].
      rewrite Hs in *. cbn [bind].
      destruct is_symlink; [now exists rest |].
      destruct (Hfile eq_refl) as [is_file Hf]. rewrite Hf in *. cbn [bind].
      destruct is_file; [| now exists rest].
      destruct (Hdec eq_refl) as [info Hinfo].
      rewrite Hinfo, Hrest. cbn [bind]. now exists (info :: rest).
Qed.

(** X6. The scan is all or nothing: it returns a manifest exactly when,
    for every path of the walk, [is_symlink] returns, [is_file] returns
    if the path is not a symlink, and [decide_file] returns if the path
    is a regular file; one path for which any of them raises makes the
    whole scan raise, with no partial manifest. *)
Theorem collect_files_all_or_nothing fs root max_bytes skip_bloat :
  (exists infos, collect_files fs root max_bytes skip_bloat = Ok infos) <->
  (forall p, In p (fs_rglob fs root) ->
             probed fs p /\
             (eligible fs p = true ->
              exists info, decide_file fs p root max_bytes skip_bloat = Ok info)).
Proof.
  unfold collect_files. rewrite collect_loop_all_or_nothing.
  split; intros H p Hp; apply H.
  - apply (proj2 (SortFacts.sorted_In Path path_leb p (fs_rglob fs root))). exact Hp.
  - apply (proj1 (SortFacts.sorted_In Path path_leb p (fs_rglob fs root))). exact Hp.
Qed.

Lemma collect_files_all_or_nothing_witness :
  (exists infos, collect_files fs_two ["repo"] MAX_DEFAULT_BYTES true = Ok infos) /\
  collect_files MoreExamples.fs_locked ["repo"] MAX_DEFAULT_BYTES true = Raise OtherOSError.
Proof.
  split; [| reflexivity].
  apply (proj2 (collect_files_all_or_nothing fs_two ["repo"] MAX_DEFAULT_BYTES true)).
  intros p Hin. cbn in Hin.
  repeat (destruct Hin as [Hin | Hin];
          [subst p; split;
           [exists false; split; [reflexivity | intros _; eexists; reflexivity]
           | intros _; eexists; vm_compute; reflexivity] |]).
  contradiction.
Defined.

(** *** The manifest order *)

Lemma compare_refl (a : string) : String.compare a a = Eq.
Proof. now apply OrderedTypeEx.String_as_OT.cmp_eq. Qed.

Lemma compare_lt_trans (a b c : string) :
  String.compare a b = Lt -> String.compare b c = Lt -> String.compare a c = Lt.
Proof.
  intros Hab Hbc. apply OrderedTypeEx.String_as_OT.cmp_lt.
  apply OrderedTypeEx.String_as_OT.cmp_lt in Hab, Hbc.
  exact (OrderedTypeEx.String_as_OT.lt_trans _ _ _ Hab Hbc).
Qed.

Lemma path_leb_total (p : Path) : forall q, path_leb p q = true \/ path_leb q p = true.
Proof.
  induction p as [| a p IH]; intros q; [now left |].
  destruct q as [| b q]; [now right |].
  cbn [path_leb]. pose proof (OrderedTypeEx.String_as_OT.cmp_antisym a b) as Hanti.
  unfold OrderedTypeEx.String_as_OT.cmp in Hanti. rewrite Hanti.
  destruct (String.compare b a); cbn [CompOpp]; [apply IH | now right | now left].
Qed.

Lemma path_leb_trans (p : Path) :
  forall q r, path_leb p q = true -> path_leb q r = true -> path_leb p r = true.
Proof.
  induction p as [| a p IH]; intros q r Hpq Hqr; [reflexivity |].
  destruct q as [| b q]; [discriminate |].
  destruct r as [| c r]; [discriminate |].
  cbn [path_leb] in *.
  destruct (String.compare a b) eqn:Hab; [| | discriminate].
  - apply OrderedTypeEx.String_as_OT.cmp_eq in Hab. subst b.
    destruct (String.compare a c); [now apply (IH q r) | reflexivity | discriminate].
  - destruct (String.compare b c) eqn:Hbc; [| | discriminate].
    + apply OrderedTypeEx.String_as_OT.cmp_eq in Hbc. subst c. now rewrite Hab.
    + now rewrite (compare_lt_trans a b c Hab Hbc).
Qed.

Lemma StronglySorted_filter {A : Type} (R : A -> A -> Prop) (f : A -> bool) (l : list A) :
  StronglySorted R l -> StronglySorted R (filter f l).
Proof.
  induction 1 as [| x l Hs IH Hx]; [constructor |].
  cbn [filter]. destruct (f x); [| exact IH].
  constructor; [exact IH |].
  apply Forall_forall. intros y Hy. apply filter_In in Hy.
  rewrite Forall_forall in Hx. now apply Hx.
Qed.

Lemma insert_sorted_perm {A : Type} (le : A -> A -> bool) (x : A) (l : list A) :
  Permutation (insert_sorted le x l) (x :: l).
Proof.
  induction l as [| y l IH]; cbn [insert_sorted]; [reflexivity |].
  destruct (le x y); [reflexivity |].
  rewrite IH. apply perm_swap.
Qed.

Lemma sorted_perm {A : Type} (le : A -> A -> bool) (l : list A) :
  Permutation (sorted le l) l.
Proof.
  induction l as [| x l IH]; cbn [sorted]; [reflexivity |].
  rewrite insert_sorted_perm. now constructor.
Qed.

Lemma sorted_paths_strongly (ps : list Path) : StronglySorted path_le (sorted path_leb ps).
Proof.
  apply Sorted_StronglySorted.
  - intros p q r. apply path_leb_trans.
  - apply (SortFacts.sorted_Sorted Path path_leb). intros a b. apply path_leb_total.
Qed.

(** X7. The manifest is in path order, each path before every later one
    (components compared one by one, as strings), and lists no path
    twice when the directory walk does not. *)
Theorem collect_files_sorted fs root max_bytes skip_bloat infos :
  collect_files fs root max_bytes skip_bloat = Ok infos ->
  StronglySorted path_le (map path infos) /\
  (NoDup (fs_rglob fs root) -> NoDup (map path infos)).
Proof.
  intros H. apply collect_loop_ok in H. destruct H as [Hpaths _]. rewrite Hpaths.
  split.
  - apply StronglySorted_filter. apply sorted_paths_strongly.
  - intros Hnd. apply NoDup_filter.
    apply (Permutation_NoDup (Permutation_sym (sorted_perm path_leb (fs_rglob fs root)))).
    exact Hnd.
Qed.

Lemma collect_files_sorted_witness :
  StronglySorted path_le (map path manifest_two) /\ NoDup (map path manifest_two).
Proof.
  destruct (collect_files_sorted fs_two ["repo"] MAX_DEFAULT_BYTES true manifest_two)
    as [Hs Hn]; [vm_compute; reflexivity |].
  split; [exact Hs |]. apply Hn.
  cbn. repeat constructor; cbn; intuition discriminate.
Defined.

End ScannerFacts.



(** ** Selection model: how the actions compose *)

Module PageMore.

Import Page Examples.

Section Script.

Variable fileData : list FileDatum.

(** Every action ends by refreshing the views, or changes nothing. *)
Lemma act_refreshed (a : Action) (pg : Page) :
  updateSelection fileData pg = pg ->
  updateSelection fileData (act fileData a pg) = act fileData a pg.
Proof.
  intros Hpg. destruct a as [i | i | | | ext |]; cbn [act].
  - unfold click_file. destruct (nth_error (file_checkboxes pg) i); [| exact Hpg].
    apply PageFacts.updateSelection_idem.
  - unfold click_folder. destruct (nth_error (folder_checkboxes pg) i); [| exact Hpg].
    apply PageFacts.updateSelection_idem.
  - apply PageFacts.updateSelection_idem.
  - apply PageFacts.updateSelection_idem.
  - apply PageFacts.updateSelection_idem.
  - apply PageFacts.updateSelection_idem.
Qed.

(** X8. Once [updateSelection] has run on a page, whatever the page was,
    the derived views stay those of the checkboxes through any sequence
    of actions: refreshing again changes nothing, so the count, the
    size, the hidden sections and the export text are the ones computed
    from the current selection. *)
Theorem views_always_current (pg0 : Page) (actions : list Action) :
  let pg := run fileData actions (updateSelection fileData pg0) in
  updateSelection fileData pg = pg /\
  selected_count pg = List.length (selected_files fileData pg) /\
  llm_text pg = updateLLMText (selected_files fileData pg).
Proof.
  assert (H : forall pg, updateSelection fileData pg = pg ->
                         updateSelection fileData (run fileData actions pg)
                         = run fileData actions pg).
  { induction actions as [| a actions IH]; intros pg Hpg; [exact Hpg |].
    unfold run in *. cbn [fold_left]. apply IH. now apply act_refreshed. }
  specialize (H (updateSelection fileData pg0) (PageFacts.updateSelection_idem fileData pg0)).
  cbv zeta. split; [exact H |].
  split; rewrite <- H at 1; reflexivity.
Qed.

(** No action adds, drops, renames or reorders a folder checkbox or a
    section. *)
Lemma flip_folder_paths (i : nat) (dcs : list FolderCheckbox) :
  map data_folder (flip_folder i dcs) = map data_folder dcs.
Proof.
  revert i. induction dcs as [| cb dcs IH]; intros [| i]; cbn; try reflexivity.
  now rewrite IH.
Qed.

Lemma act_folder_paths (a : Action) (pg : Page) :
  map data_folder (folder_checkboxes (act fileData a pg))
  = map data_folder (folder_checkboxes pg).
Proof.
  destruct a as [i | i | | | ext |]; cbn [act]; try reflexivity.
  - unfold click_file. now destruct (nth_error (file_checkboxes pg) i).
  - unfold click_folder. destruct (nth_error (folder_checkboxes pg) i); [| reflexivity].
    cbn. apply flip_folder_paths.
  - cbn. rewrite map_map. now apply map_ext.
  - cbn. rewrite map_map. now apply map_ext.
  - cbn. rewrite map_map. now apply map_ext.
Qed.

Lemma act_sections (a : Action) (pg : Page) :
  map section_file (sections (act fileData a pg)) = map section_file (sections pg).
Proof.
  destruct a as [i | i | | | ext |]; cbn [act].
  - unfold click_file. destruct (nth_error (file_checkboxes pg) i); [| reflexivity].
    now rewrite PageFacts.updateSelection_sections.
  - unfold click_folder. destruct (nth_error (folder_checkboxes pg) i); [| reflexivity].
    unfold toggleFolder. now rewrite PageFacts.updateSelection_sections.
  - unfold selectAll. now rewrite PageFacts.updateSelection_sections.
  - unfold deselectAll. now rewrite PageFacts.updateSelection_sections.
  - unfold filterByExtension. rewrite PageFacts.updateSelection_sections.
    cbn [with_files sections]. unfold deselectAll.
    now rewrite PageFacts.updateSelection_sections.
  - unfold toggleTests. now rewrite PageFacts.updateSelection_sections.
Qed.

Lemma run_keeps (actions : list Action) :
  forall pg,
    map data_file (file_checkboxes (run fileData actions pg))
    = map data_file (file_checkboxes pg) /\
    map data_folder (folder_checkboxes (run fileData actions pg))
    = map data_folder (folder_checkboxes pg) /\
    map section_file (sections (run fileData actions pg)) = map section_file (sections pg).
Proof.
  induction actions as [| a actions IH]; intros pg; [now repeat split |].
  unfold run in *. cbn [fold_left].
  destruct (IH (act fileData a pg)) as [Hf [Hd Hs]].
  rewrite Hf, Hd, Hs.
  now rewrite PageFacts.act_paths, act_folder_paths, act_sections.
Qed.

Lemma map_by_key {A B : Type} (key : A -> B) (g : B -> A) (h : A -> A) (l1 : list A) :
  (forall x, h x = g (key x)) ->
  forall l2, map key l1 = map key l2 -> map h l1 = map h l2.
Proof.
  intros Hh. induction l1 as [| x l1 IH]; intros [| y l2] H; try discriminate;
    [reflexivity |].
  cbn in H. injection H as Hxy Hrest. cbn [map].
  now rewrite !Hh, Hxy, (IH l2 Hrest).
Qed.

Lemma set_all_ext (v : bool) (pg1 pg2 : Page) :
  map data_file (file_checkboxes pg1) = map data_file (file_checkboxes pg2) ->
  map data_folder (folder_checkboxes pg1) = map data_folder (folder_checkboxes pg2) ->
  map section_file (sections pg1) = map section_file (sections pg2) ->
  updateSelection fileData (set_all v pg1) = updateSelection fileData (set_all v pg2).
Proof.
  intros Hf Hd Hs. apply PageFacts.updateSelection_ext; cbn.
  - apply (map_by_key data_file (fun f => {| data_file := f; checked := v |}));
      [reflexivity | exact Hf].
  - apply (map_by_key data_folder (fun f => {| data_folder := f; folder_checked := v |}));
      [reflexivity | exact Hd].
  - exact Hs.
Qed.

(** X9. The bulk actions forget the selection they start from:
    [selectAll], [deselectAll] and [filterByExtension] give the same
    page whatever actions came before. *)
Theorem bulk_actions_absorb (actions : list Action) (pg : Page) :
  selectAll fileData (run fileData actions pg) = selectAll fileData pg /\
  deselectAll fileData (run fileData actions pg) = deselectAll fileData pg /\
  (forall ext,
      filterByExtension fileData ext (run fileData actions pg)
      = filterByExtension fileData ext pg).
Proof.
  destruct (run_keeps actions pg) as [Hf [Hd Hs]].
  assert (Hde : deselectAll fileData (run fileData actions pg) = deselectAll fileData pg)
    by (now apply set_all_ext).
  split; [now apply set_all_ext |]. split; [exact Hde |].
  intros ext. unfold filterByExtension. cbv zeta. now rewrite Hde.
Qed.

Lemma flip_file_twice (i : nat) (fcs : list FileCheckbox) :
  flip_file i (flip_file i fcs) = fcs.
Proof.
  revert i. induction fcs as [| [f c] fcs IH]; intros [| i]; cbn; try reflexivity.
  - unfold set_checked. cbn. now rewrite negb_involutive.
  - now rewrite IH.
Qed.

Lemma flip_file_nth (i : nat) (fcs : list FileCheckbox) (cb : FileCheckbox) :
  nth_error fcs i = Some cb ->
  nth_error (flip_file i fcs) i = Some (set_checked (negb (checked cb)) cb).
Proof.
  revert i. induction fcs as [| c fcs IH]; intros [| i] H; try discriminate.
  - cbn in H. inversion H. reflexivity.
  - cbn [flip_file nth_error]. now apply IH.
Qed.

(** X10. Clicking the same file checkbox twice gives back the page it
    started from (with its views refreshed); a click on a checkbox that
    does not exist changes nothing. *)
Theorem click_file_twice (i : nat) (pg : Page) :
  (i < List.length (file_checkboxes pg) ->
   click_file fileData i (click_file fileData i pg) = updateSelection fileData pg) /\
  (List.length (file_checkboxes pg) <= i -> click_file fileData i pg = pg).
Proof.
  split; intros Hi.
  - destruct (nth_error (file_checkboxes pg) i) as [cb |] eqn:Hnth.
    + unfold click_file at 2. rewrite Hnth. unfold click_file.
      cbn [updateSelection with_files file_checkboxes].
      rewrite (flip_file_nth i _ cb Hnth), flip_file_twice.
      rewrite PageFacts.refresh_with_files.
      apply PageFacts.updateSelection_ext; reflexivity.
    + apply nth_error_None in Hnth. lia.
  - unfold click_file. apply nth_error_None in Hi. now rewrite Hi.
Qed.

Lemma prefix_trans (a : string) :
  forall b c, String.prefix a b = true -> String.prefix b c = true -> String.prefix a c = true.
Proof.
  induction a as [| x a IH]; intros b c Hab Hbc; [apply ClassifierMore.prefix_nil |].
  destruct b as [| y b]; [discriminate |]. destruct c as [| z c]; [discriminate |].
  rewrite ClassifierMore.prefix_cons in *.
  destruct (Ascii.eqb x y) eqn:Hxy; [| discriminate].
  destruct (Ascii.eqb y z) eqn:Hyz; [| discriminate].
  apply Ascii.eqb_eq in Hxy, Hyz. subst. rewrite Ascii.eqb_refl. now apply (IH b c).
Qed.

Lemma in_folder_nested (p q f : string) :
  Str.startswith q (p ++ "/") = true ->
  in_folder q f = true -> in_folder p f = true.
Proof.
  unfold in_folder, Str.startswith. intros Hq Hf.
  apply orb_true_iff in Hf. apply orb_true_iff. left. destruct Hf as [Hf | Hf].
  - apply (prefix_trans _ (q ++ "/")); [| exact Hf]. now apply ClassifierMore.prefix_app.
  - apply String.eqb_eq in Hf. now subst f.
Qed.

(** X11. Setting a folder overrides what was set on a folder inside it:
    when [q] lies under [p], [toggleFolder q w] followed by
    [toggleFolder p v] is [toggleFolder p v]. *)
Theorem parent_folder_overrides (p q : string) (v w : bool) (pg : Page) :
  Str.startswith q (p ++ "/") = true ->
  toggleFolder fileData p v (toggleFolder fileData q w pg) = toggleFolder fileData p v pg.
Proof.
  intros Hq. unfold toggleFolder. rewrite PageFacts.refresh_with_files.
  apply PageFacts.updateSelection_ext; [| reflexivity | reflexivity].
  cbn [with_files file_checkboxes updateSelection]. rewrite map_map.
  apply map_ext. intros [f c].
  cbn [data_file]. destruct (in_folder q f) eqn:Hqf; [| reflexivity].
  cbn [set_checked data_file]. now rewrite (in_folder_nested p q f Hq Hqf).
Qed.

Lemma flip_folder_twice (i : nat) (dcs : list FolderCheckbox) :
  flip_folder i (flip_folder i dcs) = dcs.
Proof.
  revert i. induction dcs as [| [d c] dcs IH]; intros [| i]; cbn; try reflexivity.
  - unfold set_folder_checked. cbn. now rewrite negb_involutive.
  - now rewrite IH.
Qed.

Lemma flip_folder_nth (i : nat) (dcs : list FolderCheckbox) (cb : FolderCheckbox) :
  nth_error dcs i = Some cb ->
  nth_error (flip_folder i dcs) i = Some (set_folder_checked (negb (folder_checked cb)) cb).
Proof.
  revert i. induction dcs as [| c dcs IH]; intros [| i] H; try discriminate.
  - cbn in H. inversion H. reflexivity.
  - cbn [flip_folder nth_error]. now apply IH.
Qed.

(** X12. Clicking the same folder checkbox twice gives back the folder
    checkboxes but not the files: every file under the folder ends with
    the value the folder checkbox had at the start, whatever mix of
    selected and unselected files was there before. *)
Theorem click_folder_twice (i : nat) (cb : FolderCheckbox) (pg : Page) :
  nth_error (folder_checkboxes pg) i = Some cb ->
  folder_checkboxes (click_folder fileData i (click_folder fileData i pg))
  = folder_checkboxes pg /\
  Forall (fun f => checked f = folder_checked cb)
         (SelectionSpec.descendants (data_folder cb)
            (click_folder fileData i (click_folder fileData i pg))).
Proof.
  intros Hnth.
  assert (Hsecond :
    click_folder fileData i (click_folder fileData i pg)
    = toggleFolder fileData (data_folder cb) (folder_checked cb)
        (with_folders (folder_checkboxes pg) (click_folder fileData i pg))).
  { unfold click_folder at 1.
    assert (Hfc : folder_checkboxes (click_folder fileData i pg)
                  = flip_folder i (folder_checkboxes pg)).
    { unfold click_folder. now rewrite Hnth. }
    rewrite Hfc, (flip_folder_nth i _ cb Hnth), flip_folder_twice.
    cbn [set_folder_checked data_folder folder_checked]. now rewrite negb_involutive. }
  rewrite Hsecond. split; [reflexivity |].
  apply PageFacts.toggleFolder_descendants.
Qed.

Lemma prefix_weaken (a b : string) :
  forall h, String.prefix (a ++ b) h = true -> String.prefix a h = true.
Proof.
  induction a as [| x a IH]; intros h H; [apply ClassifierMore.prefix_nil |].
  destruct h as [| y h]; [discriminate |].
  cbn [String.append] in H. rewrite ClassifierMore.prefix_cons in *.
  destruct (Ascii.eqb x y); [now apply IH | discriminate].
Qed.

Lemma includes_weaken (a b : string) :
  forall h, Str.includes (a ++ b) h = true -> Str.includes a h = true.
Proof.
  induction h as [| y h IH]; cbn [Str.includes]; intros H.
  - destruct (String.prefix (a ++ b) "") eqn:Hp; [| discriminate].
    now rewrite (prefix_weaken a b _ Hp).
  - destruct (String.prefix (a ++ b) (String y h)) eqn:Hp.
    + now rewrite (prefix_weaken a b _ Hp).
    + rewrite (IH H). now destruct (String.prefix a (String y h)).
Qed.

(** X13. The test heuristic is decided by three substrings, ["/test"],
    ["_test."] and [".test."]: the ["/tests"] test never changes the
    answer, since a path that contains ["/tests"] contains ["/test"]. *)
Theorem is_test_path_three_substrings (filePath : string) :
  is_test_path filePath
  = Str.includes "/test" filePath || Str.includes "_test." filePath
    || Str.includes ".test." filePath.
Proof.
  unfold is_test_path.
  destruct (Str.includes "/tests" filePath) eqn:Hs.
  - rewrite (includes_weaken "/test" "s" filePath Hs). reflexivity.
  - now rewrite orb_false_r.
Qed.

(** X14. Export and visible sections agree: for a section whose path
    has an entry in [fileData], the section is shown exactly when that
    entry is in the export. *)
Theorem export_matches_visible (pg : Page) (s : FileSection) (f : FileDatum) :
  In s (sections (updateSelection fileData pg)) ->
  find_file fileData (section_file s) = Some f ->
  (hidden s = false <-> In f (selected_files fileData pg)).
Proof.
  intros Hs Hfind. cbn [updateSelection sections] in Hs.
  apply in_map_iff in Hs. destruct Hs as [s0 [Hs _]]. subst s.
  cbn [section_file hidden] in *. rewrite negb_false_iff, existsb_exists.
  unfold selected_files. rewrite in_flat_map. split.
  - intros [cb [Hcb Heq]]. apply String.eqb_eq in Heq. exists cb. split; [exact Hcb |].
    rewrite Heq, Hfind. now left.
  - intros [cb [Hcb Hf]]. exists cb. split; [exact Hcb |].
    destruct (find_file fileData (data_file cb)) as [g |] eqn:Hg; [| contradiction].
    destruct Hf as [Hf | []]. subst g.
    unfold find_file in Hg, Hfind.
    apply find_some in Hg, Hfind. destruct Hg as [_ Hg]. destruct Hfind as [_ Hfind].
    apply String.eqb_eq in Hg, Hfind. apply String.eqb_eq. congruence.
Qed.

End Script.

Lemma click_file_twice_witness :
  click_file data_two 1 (click_file data_two 1 page_two) = updateSelection data_two page_two /\
  click_file data_two 2 page_two = page_two.
Proof.
  split.
  - apply (click_file_twice data_two 1 page_two). cbn. lia.
  - apply (click_file_twice data_two 2 page_two). cbn. lia.
Defined.

Lemma parent_folder_overrides_witness :
  toggleFolder data_two "b" true (toggleFolder data_two "b/sub" false page_two)
  = toggleFolder data_two "b" true page_two.
Proof. apply (parent_folder_overrides data_two "b" "b/sub" true false page_two). reflexivity. Defined.

Lemma click_folder_twice_witness :
  folder_checkboxes (click_folder data_two 0 (click_folder data_two 0 page_two))
  = folder_checkboxes page_two /\
  Forall (fun f => checked f = true)
         (SelectionSpec.descendants "b"
            (click_folder data_two 0 (click_folder data_two 0 page_two))).
Proof.
  apply (click_folder_twice data_two 0 {| data_folder := "b"; folder_checked := true |} page_two).
  reflexivity.
Defined.

Lemma export_matches_visible_witness :
  hidden {| section_file := "a.py"; hidden := false |} = false
  <-> In datum_a (selected_files data_two page_two).
Proof.
  apply (export_matches_visible data_two page_two
           {| section_file := "a.py"; hidden := false |} datum_a).
  - cbn. now left.
  - reflexivity.
Defined.

End PageMore.

(** ** The embedded file data *)

Module FileDataFacts.

Import Classifier Page Examples MoreExamples.

Section Reading.

Variable read_text : Path -> option string.

Lemma loop_with_text (rendered : list FileInfo) :
  forall t, exists data, file_data_loop read_text rendered (Some t) = Some data.
Proof.
  induction rendered as [| i rendered IH]; intros t; cbn [file_data_loop].
  - now exists [].
  - destruct (read_text (path i)) as [t' |].
    + destruct (IH t') as [data Hd]. rewrite Hd. eauto.
    + destruct (IH t) as [data Hd]. rewrite Hd. eauto.
Qed.

Lemma loop_paths (rendered : list FileInfo) :
  forall text data,
    file_data_loop read_text rendered text = Some data ->
    map fd_path data = map rel rendered /\ map fd_size data = map size rendered.
Proof.
  induction rendered as [| i rendered IH]; intros text data H; cbn [file_data_loop] in H.
  - inversion H. now split.
  - destruct (match read_text (path i) with Some t => Some t | None => text end)
      as [t |] eqn:Ht; [| discriminate].
    destruct (file_data_loop read_text rendered (Some t)) as [rest |] eqn:Hrest;
      [| discriminate].
    inversion H. subst data. destruct (IH _ _ Hrest) as [Hp Hs].
    cbn [map fd_path fd_size]. now rewrite Hp, Hs.
Qed.

Lemma file_data_follows_manifest_paths (infos : list FileInfo) (data : list FileDatum) :
  file_data read_text infos = Some data ->
  map fd_path data = map rel (filter (fun i => include (decision i)) infos) /\
  map fd_size data = map size (filter (fun i => include (decision i)) infos).
Proof. apply loop_paths. Qed.

(** X15. When the file data is built, it has one entry per included
    record, in manifest order, with that record's relative path and
    size. *)
Theorem file_data_follows_manifest (infos : list FileInfo) (data : list FileDatum) :
  file_data read_text infos = Some data ->
  map fd_path data = map rel (filter (fun i => include (decision i)) infos) /\
  map fd_size data = map size (filter (fun i => include (decision i)) infos).
Proof. apply loop_paths. Qed.

(** X16. Building the file data fails exactly when the first included
    file cannot be read (its text is used before any was assigned); an
    unreadable file further down does not make it fail, and a manifest
    without included files gives the empty array. *)
Theorem file_data_fails_on_first_only (infos : list FileInfo) :
  file_data read_text infos = None <->
  exists i rest,
    filter (fun i => include (decision i)) infos = i :: rest /\
    read_text (path i) = None.
Proof.
  unfold file_data.
  destruct (filter (fun i => include (decision i)) infos) as [| i rest];
    cbn [file_data_loop].
  - split; [discriminate | intros [i [rest [H _]]]; discriminate].
  - destruct (read_text (path i)) as [t |] eqn:Hread.
    + destruct (loop_with_text rest t) as [data Hd]. rewrite Hd.
      split; [discriminate |]. intros [j [rest' [H Hj]]]. inversion H. subst. congruence.
    + split; [| reflexivity]. intros _. now exists i, rest.
Qed.

Lemma loop_contents (rendered : list FileInfo) :
  forall text data,
    file_data_loop read_text rendered text = Some data ->
    forall k i,
      nth_error rendered k = Some i ->
      exists d,
        nth_error data k = Some d /\
        (forall t, read_text (path i) = Some t -> fd_content d = t) /\
        (read_text (path i) = None ->
         match k with
         | O => text = Some (fd_content d)
         | S k' => exists d', nth_error data k' = Some d' /\ fd_content d = fd_content d'
         end).
Proof.
  induction rendered as [| i0 rendered IH]; intros text data H k i Hk;
    [destruct k; discriminate |].
  cbn [file_data_loop] in H.
  destruct (match read_text (path i0) with Some t => Some t | None => text end)
    as [t0 |] eqn:Ht0; [| discriminate].
  destruct (file_data_loop read_text rendered (Some t0)) as [rest |] eqn:Hrest;
    [| discriminate].
  inversion H. subst data. clear H.
  destruct k as [| k].
  - cbn in Hk. inversion Hk. subst i0. eexists. split; [reflexivity |].
    cbn [fd_content]. split.
    + intros t Hread. rewrite Hread in Ht0. now inversion Ht0.
    + intros Hread. now rewrite Hread in Ht0.
  - cbn [nth_error] in Hk.
    destruct (IH _ _ Hrest k i Hk) as [d [Hd [Hgood Hbad]]].
    exists d. split; [exact Hd |]. split; [exact Hgood |].
    intros Hread. specialize (Hbad Hread). destruct k as [| k'].
    + eexists. split; [reflexivity |]. cbn [fd_content]. now inversion Hbad.
    + destruct Hbad as [d' [Hd' Heq]]. exists d'. split; [exact Hd' | exact Heq].
Qed.

(** X17. The entry of a file that was read holds its text; the entry of
    a file that could not be read holds the content of the entry before
    it: the export then shows the previous file's text under the
    unreadable file's path. *)
Theorem file_data_contents (infos : list FileInfo) (data : list FileDatum)
    (k : nat) (i : FileInfo) :
  file_data read_text infos = Some data ->
  nth_error (filter (fun i => include (decision i)) infos) k = Some i ->
  exists d,
    nth_error data k = Some d /\
    fd_path d = rel i /\
    (forall t, read_text (path i) = Some t -> fd_content d = t) /\
    (read_text (path i) = None ->
     exists k' d', k = S k' /\ nth_error data k' = Some d' /\ fd_content d = fd_content d').
Proof.
  intros Hdata Hk. unfold file_data in Hdata.
  destruct (loop_contents _ _ _ Hdata k i Hk) as [d [Hd [Hgood Hbad]]].
  exists d. split; [exact Hd |]. split.
  - destruct (loop_paths _ _ _ Hdata) as [Hp _].
    apply (map_nth_error fd_path) in Hd. rewrite Hp in Hd.
    rewrite (map_nth_error rel _ _ Hk) in Hd. now inversion Hd.
  - split; [exact Hgood |]. intros Hread. specialize (Hbad Hread).
    destruct k as [| k']; [discriminate |].
    destruct Hbad as [d' [Hd' Heq]]. now exists k', d'.
Qed.

End Reading.

Lemma file_data_follows_manifest_witness :
  map fd_path data_two = ["a.py"; "b/c.py"] /\ map fd_size data_two = [9%Z; 9%Z].
Proof. apply (file_data_follows_manifest read_two manifest_two data_two). reflexivity. Defined.

Lemma file_data_fails_on_first_only_witness :
  file_data read_none manifest_two = None.
Proof.
  apply (proj2 (file_data_fails_on_first_only read_none manifest_two)).
  eexists. eexists. split; reflexivity.
Defined.

Lemma file_data_contents_witness :
  exists d,
    nth_error data_stale 1 = Some d /\
    fd_path d = "b/c.py" /\
    (forall t, read_first_only ["repo"; "b"; "c.py"] = Some t -> fd_content d = t) /\
    (read_first_only ["repo"; "b"; "c.py"] = None ->
     exists k' d', 1 = S k' /\ nth_error data_stale k' = Some d' /\
                   fd_content d = fd_content d').
Proof.
  apply (file_data_contents read_first_only manifest_two data_stale 1
           (ok_info ["repo"; "b"; "c.py"] "b/c.py" 9)); reflexivity.
Defined.

End FileDataFacts.

(** ** Anchors, output name and page title *)

Module NamingFacts.

Import Naming TreeShape.

Section Slugify.

Variable char : Type.
Variable isalnum : char -> bool.
Variable char_eqb : char -> char -> bool.
Variables hyphen underscore : char.

Hypothesis char_eqb_eq : forall a b, char_eqb a b = true <-> a = b.

Abbreviation kept := (kept isalnum char_eqb hyphen underscore).
Abbreviation slugify := (slugify isalnum char_eqb hyphen underscore).

Lemma kept_hyphen : kept hyphen = true.
Proof.
  unfold Naming.kept. rewrite (proj2 (char_eqb_eq hyphen hyphen) eq_refl).
  now rewrite orb_true_r.
Qed.

(** X18. An anchor has as many characters as the path, all of them
    alphanumeric, "-" or "_"; slugifying an anchor changes nothing; and
    anchors collide: replacing any other character of a path by "-"
    gives a different path with the same anchor. *)
Theorem slugify_anchor (path_str : list char) :
  List.length (slugify path_str) = List.length path_str /\
  Forall (fun ch => kept ch = true) (slugify path_str) /\
  slugify (slugify path_str) = slugify path_str /\
  (forall a b c,
      kept c = false ->
      a ++ c :: b <> a ++ hyphen :: b /\
      slugify (a ++ c :: b) = slugify (a ++ hyphen :: b)).
Proof.
  split; [apply length_map |]. split; [| split].
  - apply Forall_forall. intros ch Hin. apply in_map_iff in Hin.
    destruct Hin as [x [Hx _]]. subst ch.
    destruct (kept x) eqn:Hk; [exact Hk | apply kept_hyphen].
  - unfold Naming.slugify. rewrite map_map. apply map_ext. intros ch.
    destruct (kept ch) eqn:Hk; [now rewrite Hk | now rewrite kept_hyphen].
  - intros a b c Hc. split.
    + intros H. apply app_inv_head in H. inversion H. subst c.
      rewrite kept_hyphen in Hc. discriminate.
    + unfold Naming.slugify. rewrite !map_app. cbn [map].
      now rewrite Hc, kept_hyphen.
Qed.

End Slugify.

Lemma slugify_anchor_witness :
  list_ascii_of_string "a/b.py" <> list_ascii_of_string "a-b.py" /\
  Naming.slugify ascii_isalnum Ascii.eqb "-"%char "_"%char (list_ascii_of_string "a/b.py")
  = Naming.slugify ascii_isalnum Ascii.eqb "-"%char "_"%char (list_ascii_of_string "a-b.py").
Proof.
  destruct (slugify_anchor ascii ascii_isalnum Ascii.eqb "-"%char "_"%char Ascii.eqb_eq [])
    as [_ [_ [_ H]]].
  apply (H ["a"%char] (list_ascii_of_string "b.py") "/"%char). reflexivity.
Defined.

(** *** The output file name *)

Lemma no_slash_app (a b : string) :
  no_slash a = true -> no_slash b = true -> no_slash (a ++ b) = true.
Proof.
  induction a as [| c a IH]; intros Ha Hb; [exact Hb |].
  cbn [no_slash String.append] in *. apply andb_true_iff in Ha. destruct Ha as [Hc Ha].
  now rewrite Hc, IH.
Qed.

Lemma no_slash_substring (s : string) :
  no_slash s = true -> forall m, no_slash (String.substring 0 m s) = true.
Proof.
  induction s as [| c s IH]; intros Hs m; [now destruct m |].
  cbn [no_slash] in Hs. apply andb_true_iff in Hs. destruct Hs as [Hc Hs].
  destruct m as [| m]; [reflexivity |]. cbn [String.substring no_slash].
  now rewrite Hc, IH.
Qed.

Lemma no_slash_last (l : list string) :
  Forall (fun seg => no_slash seg = true) l -> no_slash (last l "") = true.
Proof.
  induction 1 as [| x l Hx Hl IH]; [reflexivity |].
  cbn [last]. destruct l; [exact Hx | exact IH].
Qed.

Lemma endswith_app (a b : string) : Str.endswith (a ++ b) b = true.
Proof.
  induction a as [| c a IH]; cbn [String.append].
  - destruct b; cbn [Str.endswith]; now rewrite String.eqb_refl.
  - cbn [Str.endswith]. rewrite IH. now destruct (String.eqb (String c (a ++ b)) b).
Qed.

Lemma split_no_slash_single (x : string) : no_slash x = true -> Str.split x = [x].
Proof.
  induction x as [| c x IH]; intros H; [reflexivity |].
  cbn [no_slash] in H. apply andb_true_iff in H. destruct H as [Hc Hx].
  apply negb_true_iff in Hc. cbn [Str.split]. now rewrite Hc, (IH Hx).
Qed.

Lemma split_snoc (a x : string) :
  no_slash x = true -> Str.split (a ++ "/" ++ x) = Str.split a ++ [x].
Proof.
  intros Hx. induction a as [| c a IH].
  - cbn [String.append Str.split]. unfold Str.slash. rewrite Ascii.eqb_refl.
    now rewrite (split_no_slash_single x Hx).
  - cbn [String.append Str.split]. cbn [String.append] in IH. rewrite IH.
    destruct (Ascii.eqb c Str.slash); [reflexivity |].
    destruct (Str.split a) eqn:Ha; [now destruct (StrFacts.split_nonempty a) | reflexivity].
Qed.

Lemma substring_prefix (a b : string) : String.substring 0 (String.length a) (a ++ b) = a.
Proof.
  induction a as [| c a IH]; [now destruct b |]. cbn. now rewrite IH.
Qed.

Lemma length_append (a b : string) :
  String.length (a ++ b) = String.length a + String.length b.
Proof. induction a as [| c a IH]; [reflexivity |]. cbn. now rewrite IH. Qed.

(** X19. The output name is a single path component ending in ".html":
    it never contains a slash, so the file lands directly in the
    temporary directory; and for a URL [.../name.git] it is
    [name.html]. *)
Theorem derive_temp_name_component (repo_url : string) :
  no_slash (derive_temp_name repo_url) = true /\
  Str.endswith (derive_temp_name repo_url) ".html" = true /\
  (forall base name,
      no_slash name = true ->
      repo_url = (base ++ "/" ++ name ++ ".git")%string ->
      derive_temp_name repo_url = (name ++ ".html")%string).
Proof.
  split; [| split].
  - unfold derive_temp_name.
    destruct (2 <=? List.length (Str.split (Str.rstrip repo_url)))%nat; [| reflexivity].
    apply no_slash_app; [| reflexivity].
    pose proof (no_slash_last _ (SegFacts.split_no_slash (Str.rstrip repo_url))) as Hlast.
    destruct (Str.endswith (last (Str.split (Str.rstrip repo_url)) "") ".git");
      [| exact Hlast].
    unfold drop_last. now apply no_slash_substring.
  - unfold derive_temp_name.
    destruct (2 <=? List.length (Str.split (Str.rstrip repo_url)))%nat; [| reflexivity].
    apply endswith_app.
  - intros base name Hname Hurl. subst repo_url. unfold derive_temp_name.
    assert (Hgit : no_slash (name ++ ".git") = true) by (now apply no_slash_app).
    assert (Hstrip : Str.rstrip (base ++ "/" ++ name ++ ".git")
                     = (base ++ "/" ++ name ++ ".git")%string).
    { rewrite <- PageFacts.append_assoc.
      apply SegFacts.rstrip_append; [now destruct name |].
      now apply SegFacts.rstrip_no_slash. }
    rewrite Hstrip, (split_snoc base (name ++ ".git") Hgit).
    rewrite length_app, last_last. cbn [List.length].
    assert (Hlen : (2 <=? List.length (Str.split base) + 1)%nat = true).
    { apply Nat.leb_le. destruct (Str.split base) eqn:Hb;
        [now destruct (StrFacts.split_nonempty base) | cbn; lia]. }
    rewrite Hlen, endswith_app. unfold drop_last.
    rewrite length_append. cbn [String.length].
    replace (String.length name + 4 - 4) with (String.length name) by lia.
    now rewrite substring_prefix.
Qed.

Lemma derive_temp_name_component_witness :
  derive_temp_name "https://github.com/peterdunson/rendergit-lite.git" = "rendergit-lite.html".
Proof.
  destruct (derive_temp_name_component "https://github.com/peterdunson/rendergit-lite.git")
    as [_ [_ H]].
  apply (H "https://github.com/peterdunson" "rendergit-lite"); reflexivity.
Defined.

(** *** The page title *)

Lemma rstrip_chars_last (chars : list ascii) (c : ascii) (s : string) :
  In c chars -> Str.endswith (rstrip_chars chars s) (String c "") = false.
Proof.
  intros Hc. induction s as [| d s IH]; [reflexivity |].
  cbn [rstrip_chars]. destruct (rstrip_chars chars s) as [| e r] eqn:Hr.
  - destruct (existsb (Ascii.eqb d) chars) eqn:Hd; [reflexivity |].
    cbn [Str.endswith String.eqb].
    destruct (Ascii.eqb d c) eqn:Hdc; [| reflexivity].
    apply Ascii.eqb_eq in Hdc. subst d.
    assert (existsb (Ascii.eqb c) chars = true)
      by (apply existsb_exists; exists c; split; [exact Hc | apply Ascii.eqb_refl]).
    congruence.
  - change (Str.endswith (String d (String e r)) (String c ""))
      with (if String.eqb (String d (String e r)) (String c "") then true
            else Str.endswith (String e r) (String c "")).
    rewrite IH. cbn [String.eqb]. destruct (Ascii.eqb d c); reflexivity.
Qed.

Lemma from_suffix (i : nat) : forall s, exists pre, s = (pre ++ Str.from i s)%string.
Proof.
  induction i as [| i IH]; intros s.
  - exists "". now rewrite SegFacts.from_0.
  - destruct s as [| c s]; [now exists "" |].
    rewrite SegFacts.from_S. destruct (IH s) as [pre Hpre].
    exists (String c pre). cbn. now rewrite <- Hpre.
Qed.

Lemma endswith_suffix (pre b x : string) :
  Str.endswith b x = true -> Str.endswith (pre ++ b) x = true.
Proof.
  intros H. induction pre as [| c pre IH]; [exact H |].
  cbn [String.append Str.endswith]. rewrite IH.
  now destruct (String.eqb (String c (pre ++ b)) x).
Qed.

(** X20. The title drops trailing characters, not a suffix: whatever
    the URL, the title never ends in ".", "g", "i" or "t" (a repository
    called "rendergit" is titled "render"). *)
Theorem repo_title_never_ends_in_git_letters (repo_url : string) :
  Str.endswith (repo_title repo_url) "." = false /\
  Str.endswith (repo_title repo_url) "g" = false /\
  Str.endswith (repo_title repo_url) "i" = false /\
  Str.endswith (repo_title repo_url) "t" = false /\
  repo_title "https://github.com/karpathy/rendergit" = "render".
Proof.
  assert (H : forall c, In c ["."%char; "g"%char; "i"%char; "t"%char] ->
                        Str.endswith (repo_title repo_url) (String c "") = false).
  { intros c Hc. unfold repo_title.
    set (r := rstrip_chars _ (Str.rstrip repo_url)).
    pose proof (rstrip_chars_last _ c (Str.rstrip repo_url) Hc) as Hr. fold r in Hr.
    destruct (Str.endswith (Str.basename r) (String c "")) eqn:Hb; [| reflexivity].
    assert (Hsuf : exists pre, r = (pre ++ Str.basename r)%string).
    { unfold Str.basename. destruct (Str.rfind Str.slash r);
        [apply from_suffix | now exists ""]. }
    destruct Hsuf as [pre Hpre]. rewrite Hpre in Hr.
    rewrite (endswith_suffix pre _ _ Hb) in Hr. discriminate. }
  repeat split; try (apply H; cbn; tauto). 
Qed.

End NamingFacts.

(** ** Tree builder: every included file once *)

Module TreeCountFacts.

Import Classifier Tree TreeShape TreeCount Examples.

Lemma chains_has (t : Folders) : forall c, In c (chains_of t) <-> has_chain c t.
Proof.
  induction t as [its IH] using Folders_nested_ind. intros c.
  rewrite Forall_forall in IH. cbn [chains_of].
  destruct c as [| k ks]; [split; [intros _; exact I | now left] |].
  cbn [In has_chain items]. rewrite in_flat_map. split.
  - intros [H | [kv [Hkv Hin]]]; [discriminate |].
    apply in_map_iff in Hin. destruct Hin as [c' [Hc' Hin]].
    inversion Hc'. subst. exists (snd kv). split; [now destruct kv |].
    now apply (IH kv Hkv).
  - intros [v [Hkv Hks]]. right. exists (k, v). split; [exact Hkv |].
    apply in_map. now apply (IH (k, v) Hkv).
Qed.

Lemma descend_keys (part : string) (walk : Folders -> Folders)
    (its : list (string * Folders)) (k : string) :
  In k (map fst (descend part walk its)) -> In k (map fst its) \/ k = part.
Proof.
  induction its as [| [k0 v0] its IH]; cbn [descend map fst In].
  - intros [H | []]. now right.
  - destruct (String.eqb k0 part); cbn [map fst In]; [tauto |].
    intros [H | H]; [tauto |]. destruct (IH H); tauto.
Qed.

Lemma descend_NoDup (part : string) (walk : Folders -> Folders)
    (its : list (string * Folders)) :
  NoDup (map fst its) -> NoDup (map fst (descend part walk its)).
Proof.
  induction its as [| [k0 v0] its IH]; cbn [descend map fst]; intros H.
  - repeat constructor. intros [].
  - inversion H as [| ? ? Hk0 Hrest]; subst.
    destruct (String.eqb k0 part) eqn:Hk; cbn [map fst]; [now constructor |].
    constructor; [| now apply IH].
    intros Hin. destruct (descend_keys _ _ _ _ Hin) as [Hold | Heq]; [contradiction |].
    subst. now rewrite String.eqb_refl in Hk.
Qed.

Lemma uniq_add_path (parts : list string) : forall t, uniq t -> uniq (add_path parts t).
Proof.
  induction parts as [| part parts IH]; intros t Ht; [exact Ht |].
  cbn [add_path]. destruct Ht as [its Hkeys Hsub]. cbn [items].
  constructor; [now apply descend_NoDup |].
  intros k v Hin.
  destruct (TreeFacts.descend_In _ _ _ _ _ Hin) as [Hold | [_ [v0 [[Hv0 | Hv0] Hv]]]].
  - now apply (Hsub k v).
  - subst v. apply IH. now apply (Hsub part v0).
  - subst v v0. apply IH. constructor; [constructor | intros ? ? []].
Qed.

Lemma uniq_build_folders (rendered : list FileInfo) : uniq (build_folders rendered).
Proof.
  unfold build_folders.
  assert (H : forall l t, uniq t ->
                          uniq (fold_left (fun folders info =>
                                             add_path (parent_parts info) folders) l t)).
  { induction l as [| i l IH]; intros t Ht; [exact Ht |].
    cbn [fold_left]. apply IH. now apply uniq_add_path. }
  apply H. constructor; [constructor | intros ? ? []].
Qed.

Lemma NoDup_map_cons (k : string) (l : list (list string)) :
  NoDup l -> NoDup (map (cons k) l).
Proof.
  induction 1 as [| c l Hc _ IH]; cbn [map]; constructor; [| exact IH].
  intros Hin. apply in_map_iff in Hin. destruct Hin as [c' [Heq Hin]].
  inversion Heq. now subst.
Qed.

Lemma chains_NoDup (t : Folders) : uniq t -> NoDup (chains_of t).
Proof.
  induction t as [its IH] using Folders_nested_ind. intros Ht.
  rewrite Forall_forall in IH. inversion Ht as [its' Hkeys Hsub]; subst.
  cbn [chains_of]. constructor.
  - intros Hin. apply in_flat_map in Hin. destruct Hin as [kv [_ Hin]].
    apply in_map_iff in Hin. destruct Hin as [c [Hc _]]. discriminate.
  - clear Ht. induction its as [| [k v] its IHits]; [constructor |].
    cbn [flat_map fst snd]. cbn [map fst] in Hkeys.
    inversion Hkeys as [| ? ? Hk Hrest]; subst.
    apply NoDup_app.
    + apply NoDup_map_cons. apply (IH (k, v)); [now left |].
      apply (Hsub k v). now left.
    + apply IHits; [| exact Hrest |].
      * intros kv Hkv. apply IH. now right.
      * intros k' v' Hin. apply (Hsub k' v'). now right.
    + intros c Hc Hc'. apply in_map_iff in Hc. destruct Hc as [c0 [Hc0 _]]. subst c.
      apply in_flat_map in Hc'. destruct Hc' as [[k' v'] [Hkv' Hin']].
      apply in_map_iff in Hin'. destruct Hin' as [c1 [Hc1 _]].
      cbn [fst] in Hc1. inversion Hc1. subst k'.
      apply Hk. apply in_map_iff. now exists (k, v').
Qed.

(** *** The leaves as the files at each chain *)

Lemma flat_map_pointwise {A B : Type} (f g : A -> list B) (l : list A) :
  (forall x, In x l -> Permutation (f x) (g x)) ->
  Permutation (flat_map f l) (flat_map g l).
Proof.
  induction l as [| x l IH]; intros H; [constructor |].
  cbn [flat_map]. apply Permutation_app; [apply H; now left |].
  apply IH. intros y Hy. apply H. now right.
Qed.

Lemma flat_map_of_map {A B C : Type} (f : A -> B) (g : B -> list C) (l : list A) :
  flat_map g (map f l) = flat_map (fun x => g (f x)) l.
Proof. induction l as [| x l IH]; [reflexivity |]. cbn. now rewrite IH. Qed.

Lemma flat_map_nested {A B C : Type} (f : A -> list B) (g : B -> list C) (l : list A) :
  flat_map g (flat_map f l) = flat_map (fun x => flat_map g (f x)) l.
Proof.
  induction l as [| x l IH]; [reflexivity |].
  cbn [flat_map]. now rewrite flat_map_app, IH.
Qed.

Lemma map_of_flat_map {A B C : Type} (f : B -> C) (g : A -> list B) (l : list A) :
  flat_map (fun x => map f (g x)) l = map f (flat_map g l).
Proof.
  induction l as [| x l IH]; [reflexivity |].
  cbn [flat_map]. now rewrite map_app, IH.
Qed.

Lemma render_tree_leaves (rendered : list FileInfo) (t : Folders) :
  forall path level,
    Permutation
      (flat_map file_paths (render_tree rendered t path level))
      (flat_map (fun c => map rel (files_at rendered (extend path c))) (chains_of t)).
Proof.
  induction t as [its IH] using Folders_nested_ind. intros path level.
  rewrite Forall_forall in IH.
  rewrite TreeFacts.render_tree_eq, flat_map_app, TreeFacts.file_nodes_files.
  cbn [chains_of flat_map]. rewrite Permutation_app_comm. apply Permutation_app.
  - apply Permutation_map. apply ScannerFacts.sorted_perm.
  - rewrite flat_map_nested.
    transitivity (flat_map file_paths
                    (map snd (map (folder_node rendered path level) its))).
    { apply Permutation_flat_map, Permutation_map. apply ScannerFacts.sorted_perm. }
    rewrite map_map, flat_map_of_map.
    apply flat_map_pointwise. intros kv Hkv.
    cbn [folder_node snd file_paths]. rewrite flat_map_of_map.
    apply (IH kv Hkv).
Qed.

(** *** Grouping a list by a key *)

Section Grouping.

Variables I C : Type.
Variable sel : C -> I -> bool.
Variable key : I -> C.

Lemma group_none (i : I) (cs : list C) :
  (forall c, In c cs -> sel c i = false) ->
  flat_map (fun c => if sel c i then [i] else []) cs = [].
Proof.
  induction cs as [| c cs IH]; intros H; [reflexivity |].
  cbn [flat_map]. rewrite (H c (or_introl eq_refl)). apply IH.
  intros c' Hc'. apply H. now right.
Qed.

Lemma group_one (i : I) (cs : list C) :
  NoDup cs ->
  (forall c, In c cs -> (sel c i = true <-> key i = c)) ->
  In (key i) cs ->
  flat_map (fun c => if sel c i then [i] else []) cs = [i].
Proof.
  induction 1 as [| c cs Hc Hnd IH]; intros Hsel Hin; [destruct Hin |].
  cbn [flat_map]. destruct (sel c i) eqn:Hs.
  - apply (Hsel c (or_introl eq_refl)) in Hs. subst c.
    rewrite group_none; [reflexivity |].
    intros c' Hc'. destruct (sel c' i) eqn:Hs'; [| reflexivity].
    apply (Hsel c' (or_intror Hc')) in Hs'. now subst c'.
  - apply IH.
    + intros c' Hc'. apply Hsel. now right.
    + destruct Hin as [Heq | Hin]; [| exact Hin].
      symmetry in Heq. apply (Hsel c (or_introl eq_refl)) in Heq. congruence.
Qed.

Lemma group_cons (i : I) (l : list I) (cs : list C) :
  Permutation
    (flat_map (fun c => filter (sel c) (i :: l)) cs)
    (flat_map (fun c => if sel c i then [i] else []) cs
     ++ flat_map (fun c => filter (sel c) l) cs).
Proof.
  induction cs as [| c cs IH]; [constructor |].
  cbn [flat_map filter]. rewrite IH.
  destruct (sel c i); cbn [app].
  - constructor. rewrite !app_assoc. apply Permutation_app_tail. apply Permutation_app_comm.
  - rewrite !app_assoc. apply Permutation_app_tail. apply Permutation_app_comm.
Qed.

Lemma group_all (l : list I) (cs : list C) :
  NoDup cs ->
  (forall i c, In i l -> In c cs -> (sel c i = true <-> key i = c)) ->
  (forall i, In i l -> In (key i) cs) ->
  Permutation (flat_map (fun c => filter (sel c) l) cs) l.
Proof.
  intros Hnd. induction l as [| i l IH]; intros Hsel Hin.
  - rewrite (flat_map_ext _ (fun _ => [])) by reflexivity.
    clear. induction cs; [constructor | exact IHcs].
  - rewrite group_cons.
    rewrite (group_one i cs Hnd); [| | apply Hin; now left].
    + cbn [app]. constructor. apply IH.
      * intros j c Hj. apply Hsel. now right.
      * intros j Hj. apply Hin. now right.
    + intros c Hc. apply Hsel; [now left | exact Hc].
Qed.

End Grouping.

(** *** Paths and their segments *)

Lemma split_after_segment (x : string) :
  no_slash x = true -> forall s, Str.split (x ++ "/" ++ s) = x :: Str.split s.
Proof.
  induction x as [| c x IH]; intros Hx s.
  - cbn [String.append Str.split]. unfold Str.slash. now rewrite Ascii.eqb_refl.
  - cbn [no_slash] in Hx. apply andb_true_iff in Hx. destruct Hx as [Hc Hx].
    apply negb_true_iff in Hc.
    cbn [String.append Str.split]. cbn [String.append] in IH. now rewrite Hc, (IH Hx s).
Qed.

Lemma split_join (l : list string) :
  l <> [] -> Forall (fun seg => no_slash seg = true) l -> Str.split (Str.join l) = l.
Proof.
  induction l as [| x l IH]; [contradiction |]. intros _ H.
  inversion H as [| ? ? Hx Hl]; subst.
  destruct l as [| y r]; [now apply NamingFacts.split_no_slash_single |].
  rewrite SegFacts.join_cons by discriminate.
  rewrite (split_after_segment x Hx). f_equal. now apply IH.
Qed.

Lemma join_injective (a b : list string) :
  Forall (fun seg => seg <> "") a -> Forall (fun seg => no_slash seg = true) a ->
  Forall (fun seg => seg <> "") b -> Forall (fun seg => no_slash seg = true) b ->
  Str.join a = Str.join b -> a = b.
Proof.
  intros Ha Hsa Hb Hsb Heq.
  destruct a as [| x a], b as [| y b]; [reflexivity | | |].
  - symmetry in Heq. exfalso. revert Heq. apply SegFacts.join_nonempty; [discriminate | exact Hb].
  - exfalso. revert Heq. apply SegFacts.join_nonempty; [discriminate | exact Ha].
  - rewrite <- (split_join (x :: a)), <- (split_join (y :: b)); try discriminate; try assumption.
    now rewrite Heq.
Qed.

Section Rendered.

Variable rendered : list FileInfo.

Hypothesis rendered_wf : forall info, In info rendered -> wf_rel (rel info).

Lemma chain_segments (c : list string) :
  has_chain c (build_folders rendered) ->
  Forall (fun seg => seg <> "") c /\ Forall (fun seg => no_slash seg = true) c.
Proof.
  intros H. apply TreeFacts.build_folders_chains in H.
  destruct H as [H | [info [rest [Hin Hpp]]]]; [subst; split; constructor |].
  pose proof (TreeFacts.parent_parts_nonempty rendered rendered_wf info Hin) as Hne.
  pose proof (TreeFacts.parent_parts_no_slash info) as Hns.
  rewrite Hpp in Hne, Hns. apply Forall_app in Hne, Hns. split; tauto.
Qed.

Lemma files_at_chain (c : list string) (i : FileInfo) :
  has_chain c (build_folders rendered) ->
  In i rendered ->
  (String.eqb (Str.join (parent_parts i)) (Str.rstrip (extend "" c)) = true
   <-> parent_parts i = c).
Proof.
  intros Hc Hi. destruct (chain_segments c Hc) as [Hne Hns].
  rewrite (TreeFacts.extend_root c Hne), (SegFacts.rstrip_join c Hne Hns), String.eqb_eq.
  split; [| now intros ->].
  apply join_injective; try assumption.
  - now apply (TreeFacts.parent_parts_nonempty rendered rendered_wf).
  - apply TreeFacts.parent_parts_no_slash.
Qed.

Lemma leaves_are_rendered :
  Permutation
    (flat_map file_paths (render_tree rendered (build_folders rendered) "" 0))
    (map rel rendered).
Proof.
  rewrite render_tree_leaves, map_of_flat_map. apply Permutation_map.
  unfold files_at.
  apply (group_all FileInfo (list string)
           (fun c i => String.eqb (Str.join (parent_parts i)) (Str.rstrip (extend "" c)))
           parent_parts).
  - apply chains_NoDup, uniq_build_folders.
  - intros i c Hi Hc. apply files_at_chain; [now apply chains_has | exact Hi].
  - intros i Hi. apply chains_has. apply TreeFacts.build_folders_chains.
    right. exists i, []. split; [exact Hi | now rewrite app_nil_r].
Qed.

End Rendered.

(** X21. For a manifest whose included paths have no empty segment, the
    tree has exactly one file checkbox per included record: its leaves
    are a rearrangement of the included relative paths, so there are as
    many checkboxes as included files, and no path has two checkboxes
    when no two records share a path. *)
Theorem tree_lists_each_file_once (infos : list FileInfo) :
  wf_manifest infos ->
  let leaves := flat_map file_paths (build_folder_tree infos) in
  let included := filter (fun i => include (decision i)) infos in
  Permutation leaves (map rel included) /\
  List.length leaves = List.length included /\
  (NoDup (map rel included) -> NoDup leaves).
Proof.
  intros Hwf leaves included.
  assert (Hperm : Permutation leaves (map rel included)).
  { apply leaves_are_rendered. intros info Hin. apply filter_In in Hin.
    destruct Hin as [Hin Hinc]. now apply Hwf. }
  split; [exact Hperm |]. split.
  - rewrite (Permutation_length Hperm). apply length_map.
  - intros Hnd. apply (Permutation_NoDup (Permutation_sym Hperm) Hnd).
Qed.

Lemma tree_lists_each_file_once_witness :
  Permutation (flat_map file_paths (build_folder_tree sample_manifest))
              ["a.py"; "src/app/main.py"; "src/util.py"] /\
  List.length (flat_map file_paths (build_folder_tree sample_manifest)) = 3.
Proof.
  destruct (tree_lists_each_file_once sample_manifest) as [Hp [Hl _]].
  - intros info Hin _. unfold wf_rel. cbn in Hin.
    repeat (destruct Hin as [Hin | Hin];
            [subst info; cbn; repeat constructor; discriminate |]).
    contradiction.
  - split; [exact Hp | exact Hl].
Defined.

(** *** The page as loaded *)

Lemma filter_all {A : Type} (f : A -> bool) (l : list A) :
  (forall x, In x l -> f x = true) -> filter f l = l.
Proof.
  induction l as [| x l IH]; intros H; [reflexivity |].
  cbn [filter]. rewrite (H x (or_introl eq_refl)), IH; [reflexivity |].
  intros y Hy. apply H. now right.
Qed.

(** X22. The first refresh selects everything: for a manifest whose
    included paths have no empty segment and whose file data could be
    built, on a page that holds the checkboxes and sections as they
    were written, all file checkboxes checked, [updateSelection] exports
    every path of the file data exactly as often as the file data has
    it (in the order of the tree), counts as many files as the file
    data has entries, and hides no section. *)
Theorem first_refresh_selects_all (read_text : Path -> option string)
    (infos : list FileInfo) (fileData : list Page.FileDatum) (pg : Page.Page) :
  wf_manifest infos ->
  Page.file_data read_text infos = Some fileData ->
  Dom.as_written infos pg ->
  Forall (fun cb => Page.checked cb = true) (Page.file_checkboxes pg) ->
  Permutation (map Page.fd_path (Page.selected_files fileData pg))
              (map Page.fd_path fileData) /\
  Page.selected_count (Page.updateSelection fileData pg) = List.length fileData /\
  Forall (fun s => Page.hidden s = false)
         (Page.sections (Page.updateSelection fileData pg)).
Proof.
  intros Hwf Hdata [Hfiles [_ Hsecs]] Hchecked.
  assert (Hperm : Permutation (flat_map file_paths (build_folder_tree infos))
                              (map rel (filter (fun i => include (decision i)) infos))).
  { apply leaves_are_rendered. intros info Hin. apply filter_In in Hin.
    destruct Hin as [Hin Hinc]. now apply Hwf. }
  pose proof (Permutation_length Hperm) as Hlen. rewrite length_map in Hlen.
  destruct (FileDataFacts.file_data_follows_manifest_paths read_text infos fileData Hdata)
    as [Hpaths _].
  set (leaves := flat_map file_paths (build_folder_tree infos)) in *.
  assert (Hboxes : map Page.data_file (Page.checked_boxes pg) = leaves).
  { unfold Page.checked_boxes. rewrite filter_all; [exact Hfiles |].
    now apply Forall_forall. }
  assert (Hentry : forall f, In f leaves ->
             existsb (fun d => String.eqb (Page.fd_path d) f) fileData = true).
  { intros f Hf. apply (Permutation_in _ Hperm) in Hf. rewrite <- Hpaths in Hf.
    apply in_map_iff in Hf. destruct Hf as [d [Hd Hin]].
    apply existsb_exists. exists d. split; [exact Hin | now apply String.eqb_eq]. }
  assert (Hsel : map Page.fd_path (Page.selected_files fileData pg) = leaves).
  { unfold Page.selected_files. rewrite PageFacts.selected_paths, Hboxes.
    now apply filter_all. }
  split; [| split].
  - rewrite Hsel, Hpaths. exact Hperm.
  - cbn [Page.updateSelection Page.selected_count].
    rewrite <- (length_map Page.fd_path), Hsel, Hlen, <- (length_map rel), <- Hpaths.
    apply length_map.
  - cbn [Page.updateSelection Page.sections].
    apply Forall_forall. intros s Hs. apply in_map_iff in Hs.
    destruct Hs as [s0 [Hs Hs0]]. subst s. cbn [Page.hidden Page.section_file].
    apply negb_false_iff, existsb_exists.
    assert (Hleaf : In (Page.section_file s0) leaves).
    { apply (Permutation_in _ (Permutation_sym Hperm)). rewrite <- Hsecs.
      now apply in_map. }
    rewrite <- Hboxes in Hleaf. apply in_map_iff in Hleaf.
    destruct Hleaf as [cb [Hcb Hcbin]]. exists cb. split; [exact Hcbin |].
    now apply String.eqb_eq.
Qed.

Lemma first_refresh_selects_all_witness :
  Permutation (map Page.fd_path (Page.selected_files data_two (Page.emitted manifest_two)))
              (map Page.fd_path data_two) /\
  Page.selected_count (Page.updateSelection data_two (Page.emitted manifest_two)) = 2 /\
  Forall (fun s => Page.hidden s = false)
         (Page.sections (Page.updateSelection data_two (Page.emitted manifest_two))).
Proof.
  apply (first_refresh_selects_all read_two manifest_two data_two (Page.emitted manifest_two)).
  - intros info Hin _. unfold wf_rel. cbn in Hin.
    repeat (destruct Hin as [Hin | Hin];
            [subst info; cbn; repeat constructor; discriminate |]).
    contradiction.
  - reflexivity.
  - split; [| split]; reflexivity.
  - repeat constructor.
Defined.

(** *** Folder checkboxes and the files they set *)

Lemma join_split (s : string) : Str.join (Str.split s) = s.
Proof.
  induction s as [| c s IH]; [reflexivity |].
  cbn [Str.split]. destruct (Ascii.eqb c Str.slash) eqn:Hc.
  - apply Ascii.eqb_eq in Hc. subst c.
    rewrite SegFacts.join_cons by apply StrFacts.split_nonempty.
    cbn. now rewrite IH.
  - destruct (Str.split s) as [| f fs] eqn:Hs; [now destruct (StrFacts.split_nonempty s) |].
    rewrite <- IH. destruct fs as [| g gs]; [reflexivity |].
    rewrite !SegFacts.join_cons by discriminate. reflexivity.
Qed.

Lemma prefix_split_off (p : string) :
  forall s, String.prefix p s = true -> exists t, s = (p ++ t)%string.
Proof.
  induction p as [| c p IH]; intros s H; [now exists s |].
  destruct s as [| d s]; [discriminate |].
  rewrite ClassifierMore.prefix_cons in H.
  destruct (Ascii.eqb c d) eqn:Hcd; [| discriminate].
  apply Ascii.eqb_eq in Hcd. subst d.
  destruct (IH s H) as [t Ht]. exists t. cbn. now rewrite Ht.
Qed.

Lemma prefix_append (p t : string) : String.prefix p (p ++ t) = true.
Proof.
  induction p as [| c p IH]; [apply ClassifierMore.prefix_nil |].
  cbn [String.append]. now rewrite ClassifierMore.prefix_cons, Ascii.eqb_refl.
Qed.

Lemma split_app (a t : string) :
  Str.split (a ++ "/" ++ t) = Str.split a ++ Str.split t.
Proof.
  induction a as [| c a IH].
  - cbn [String.append Str.split]. unfold Str.slash. now rewrite Ascii.eqb_refl.
  - cbn [String.append Str.split]. cbn [String.append] in IH. rewrite IH.
    destruct (Ascii.eqb c Str.slash); [reflexivity |].
    destruct (Str.split a) eqn:Ha; [now destruct (StrFacts.split_nonempty a) | reflexivity].
Qed.

Lemma join_app (a b : list string) :
  a <> [] -> b <> [] -> Str.join (a ++ b) = (Str.join a ++ "/" ++ Str.join b)%string.
Proof.
  induction a as [| x a IH]; [contradiction |]. intros _ Hb.
  destruct a as [| y a].
  - cbn [app]. now rewrite SegFacts.join_cons.
  - change ((x :: y :: a) ++ b) with (x :: ((y :: a) ++ b)).
    rewrite (SegFacts.join_cons x ((y :: a) ++ b)) by (cbn; discriminate).
    rewrite IH by (discriminate || exact Hb).
    rewrite (SegFacts.join_cons x (y :: a)) by discriminate.
    now rewrite !PageFacts.append_assoc.
Qed.

Lemma in_folder_segments (dirs : list string) (filePath : string) :
  dirs <> [] ->
  Forall (fun seg => no_slash seg = true) dirs ->
  (Page.in_folder (Str.join dirs) filePath = true
   <-> exists rest, Str.split filePath = dirs ++ rest).
Proof.
  intros Hne Hdirs. unfold Page.in_folder, Str.startswith.
  rewrite orb_true_iff. split.
  - intros [Hpre | Heq].
    + destruct (prefix_split_off _ _ Hpre) as [t Ht]. exists (Str.split t).
      rewrite Ht, PageFacts.append_assoc, split_app.
      now rewrite (split_join dirs Hne Hdirs).
    + apply String.eqb_eq in Heq. exists []. rewrite Heq, app_nil_r.
      exact (split_join dirs Hne Hdirs).
  - intros [rest Hrest]. rewrite <- (join_split filePath), Hrest.
    destruct rest as [| r rest].
    + right. rewrite app_nil_r. apply String.eqb_refl.
    + left. rewrite (join_app dirs (r :: rest) Hne) by discriminate.
      rewrite <- PageFacts.append_assoc. apply prefix_append.
Qed.

(** X23. A folder checkbox reaches a file exactly when the file's path
    segments begin with the folder's segments: matching is by whole
    segments, never by a raw string prefix, and it includes a file whose
    path equals the folder's. *)
Theorem folder_matches_by_segments (dirs : list string) (filePath : string) :
  dirs <> [] ->
  Forall (fun seg => no_slash seg = true) dirs ->
  (Page.in_folder (Str.join dirs) filePath = true
   <-> exists rest, Str.split filePath = dirs ++ rest).
Proof. exact (in_folder_segments dirs filePath). Qed.

Lemma folder_matches_by_segments_witness :
  (Page.in_folder "src" "src/a.py" = true <-> exists rest, Str.split "src/a.py" = ["src"] ++ rest)
  /\ Page.in_folder "src" "srcs/a.py" = false.
Proof.
  split; [| reflexivity].
  apply (folder_matches_by_segments ["src"] "src/a.py"); [discriminate |].
  repeat constructor.
Defined.

End TreeCountFacts.

(** ** The folder checkboxes of the tree *)

Module FolderBoxFacts.

Import Classifier Tree TreeShape TreeCount Examples.

Lemma chains_of_cons (t : Folders) : chains_of t = [] :: tl (chains_of t).
Proof. now destruct t. Qed.

(** The folder checkboxes of a rendered tree, one per non-empty chain of
    the dictionary. *)
Lemma render_tree_folder_list (rendered : list FileInfo) (t : Folders) :
  forall path level,
    Permutation
      (flat_map folder_paths (render_tree rendered t path level))
      (map (extend path) (tl (chains_of t))).
Proof.
  induction t as [its IH] using Folders_nested_ind. intros path level.
  rewrite Forall_forall in IH.
  rewrite TreeFacts.render_tree_eq, flat_map_app, TreeFacts.file_nodes_folders, app_nil_r.
  cbn [chains_of tl].
  transitivity (flat_map folder_paths
                  (map snd (map (folder_node rendered path level) its))).
  { apply Permutation_flat_map, Permutation_map. apply ScannerFacts.sorted_perm. }
  rewrite map_map, TreeCountFacts.flat_map_of_map.
  rewrite <- TreeCountFacts.map_of_flat_map.
  apply TreeCountFacts.flat_map_pointwise. intros kv Hkv.
  cbn [folder_node snd folder_paths]. rewrite map_map.
  rewrite (chains_of_cons (snd kv)). cbn [map]. apply perm_skip.
  apply (IH kv Hkv).
Qed.

Section Rendered.

Variable rendered : list FileInfo.

Hypothesis rendered_wf : forall info, In info rendered -> wf_rel (rel info).

Lemma folder_boxes_NoDup :
  NoDup (flat_map folder_paths (render_tree rendered (build_folders rendered) "" 0)).
Proof.
  apply (Permutation_NoDup (Permutation_sym (render_tree_folder_list rendered _ "" 0))).
  pose proof (TreeCountFacts.chains_NoDup _ (TreeCountFacts.uniq_build_folders rendered)) as Hnd.
  assert (Hin : forall c, In c (tl (chains_of (build_folders rendered))) ->
                          has_chain c (build_folders rendered)).
  { intros c Hc. apply TreeCountFacts.chains_has.
    rewrite chains_of_cons. now right. }
  rewrite chains_of_cons in Hnd. apply NoDup_cons_iff in Hnd. destruct Hnd as [_ Hnd].
  apply NoDup_map_NoDup_ForallPairs; [| exact Hnd].
  intros a b Ha Hb Heq.
  destruct (TreeCountFacts.chain_segments rendered rendered_wf a (Hin a Ha)) as [Hane Hans].
  destruct (TreeCountFacts.chain_segments rendered rendered_wf b (Hin b Hb)) as [Hbne Hbns].
  rewrite (TreeFacts.extend_root a Hane), (TreeFacts.extend_root b Hbne) in Heq.
  now apply TreeCountFacts.join_injective.
Qed.

Lemma folder_box_reach (p : string) (info : FileInfo) :
  In p (flat_map folder_paths (render_tree rendered (build_folders rendered) "" 0)) ->
  In info rendered ->
  (Page.in_folder p (rel info) = true <-> under_dir p info \/ rel info = p).
Proof.
  intros Hp Hin. apply TreeFacts.render_tree_folders in Hp.
  destruct Hp as [chain [Hne [Hchain Hp]]]. subst p.
  destruct (TreeCountFacts.chain_segments rendered rendered_wf chain Hchain) as [Hcne Hcns].
  rewrite (TreeFacts.extend_root chain Hcne).
  rewrite (TreeCountFacts.in_folder_segments chain (rel info) Hne Hcns).
  split.
  - intros [rest Hrest]. destruct rest as [| r rest].
    + right. rewrite app_nil_r in Hrest.
      now rewrite <- (TreeCountFacts.join_split (rel info)), Hrest.
    + left. exists chain, (removelast (r :: rest)).
      split; [exact Hne |]. split; [| reflexivity].
      unfold parent_parts. rewrite Hrest. apply removelast_app. discriminate.
  - intros [[dirs [rest [Hd [Hpp Hj]]]] | Heq].
    + pose proof (TreeFacts.parent_parts_nonempty rendered rendered_wf info Hin) as Hpne.
      pose proof (TreeFacts.parent_parts_no_slash info) as Hpns.
      rewrite Hpp in Hpne, Hpns. apply Forall_app in Hpne, Hpns.
      assert (Hdc : chain = dirs).
      { apply TreeCountFacts.join_injective; tauto. }
      subst dirs. exists (rest ++ [last (Str.split (rel info)) ""]).
      rewrite app_assoc, <- Hpp. unfold parent_parts.
      apply app_removelast_last. apply StrFacts.split_nonempty.
    + exists []. rewrite Heq, app_nil_r.
      now apply TreeCountFacts.split_join.
Qed.

End Rendered.

(** X24. For a manifest whose included paths have no empty segment, the
    tree has one folder checkbox per directory: no two folder checkboxes
    carry the same path. *)
Theorem folder_checkboxes_distinct (infos : list FileInfo) :
  wf_manifest infos ->
  NoDup (flat_map folder_paths (build_folder_tree infos)).
Proof.
  intros Hwf. unfold build_folder_tree. apply folder_boxes_NoDup.
  intros info Hin. apply filter_In in Hin. destruct Hin as [Hin Hinc]. now apply Hwf.
Qed.

Lemma folder_checkboxes_distinct_witness :
  NoDup (flat_map folder_paths (build_folder_tree sample_manifest)).
Proof.
  apply (folder_checkboxes_distinct sample_manifest).
  intros info Hin _. unfold wf_rel. cbn in Hin.
  repeat (destruct Hin as [Hin | Hin];
          [subst info; cbn; repeat constructor; discriminate |]).
  contradiction.
Defined.

(** X25. The tree and the folder listener agree: on a page that holds
    the checkboxes as they were written, for a manifest whose included
    paths have no empty segment, the listener's path test holds between
    a folder checkbox and a file checkbox exactly when the file checkbox
    is that of an included file and the folder is a directory above that
    file, or the file's own path is the folder's path. *)
Theorem folder_click_reaches_subtree (infos : list FileInfo) (pg : Page.Page)
    (folderCb : Page.FolderCheckbox) (fileCb : Page.FileCheckbox) :
  wf_manifest infos ->
  Dom.as_written infos pg ->
  In folderCb (Page.folder_checkboxes pg) ->
  In fileCb (Page.file_checkboxes pg) ->
  (Page.in_folder (Page.data_folder folderCb) (Page.data_file fileCb) = true <->
   exists info,
     In info infos /\ include (decision info) = true /\
     rel info = Page.data_file fileCb /\
     (under_dir (Page.data_folder folderCb) info
      \/ Page.data_file fileCb = Page.data_folder folderCb)).
Proof.
  intros Hwf [Hfiles [Hfolders _]] Hd Hf.
  set (rendered := filter (fun i => include (decision i)) infos).
  assert (HR : forall i, In i rendered -> wf_rel (rel i)).
  { intros i Hi. apply filter_In in Hi. destruct Hi as [Hi Hic]. now apply Hwf. }
  assert (Hp : In (Page.data_folder folderCb)
                  (flat_map folder_paths (render_tree rendered (build_folders rendered) "" 0))).
  { change (In (Page.data_folder folderCb) (flat_map folder_paths (build_folder_tree infos))).
    rewrite <- Hfolders. now apply in_map. }
  assert (Hleaf : exists info, In info rendered /\ rel info = Page.data_file fileCb).
  { assert (H : In (Page.data_file fileCb) (map rel rendered)).
    { apply (Permutation_in _ (TreeCountFacts.leaves_are_rendered rendered HR)).
      change (In (Page.data_file fileCb) (flat_map file_paths (build_folder_tree infos))).
      rewrite <- Hfiles. now apply in_map. }
    apply in_map_iff in H. destruct H as [info [Hrel Hin]]. now exists info. }
  destruct Hleaf as [info [Hin Hrel]].
  pose proof (folder_box_reach rendered HR (Page.data_folder folderCb) info Hp Hin) as Hreach.
  rewrite Hrel in Hreach. split.
  - intros H. apply Hreach in H. exists info. apply filter_In in Hin. tauto.
  - intros [info' [Hin' [Hinc' [Hrel' H]]]].
    assert (Hr' : In info' rendered) by (apply filter_In; now split).
    pose proof (folder_box_reach rendered HR (Page.data_folder folderCb) info' Hp Hr')
      as Hreach'.
    rewrite Hrel' in Hreach'. now apply Hreach'.
Qed.

Lemma folder_click_reaches_subtree_witness :
  Page.in_folder "src" "src/app/main.py" = true <->
  exists info,
    In info sample_manifest /\ include (decision info) = true /\
    rel info = "src/app/main.py" /\
    (under_dir "src" info \/ "src/app/main.py" = "src").
Proof.
  apply (folder_click_reaches_subtree sample_manifest (Page.emitted sample_manifest)
           {| Page.data_folder := "src"; Page.folder_checked := true |}
           {| Page.data_file := "src/app/main.py"; Page.checked := true |}).
  - intros info Hin _. unfold wf_rel. cbn in Hin.
    repeat (destruct Hin as [Hin | Hin];
            [subst info; cbn; repeat constructor; discriminate |]).
    contradiction.
  - split; [| split]; reflexivity.
  - vm_compute. tauto.
  - vm_compute. tauto.
Defined.

End FolderBoxFacts.

(** ** From the scan to the tree *)

Module PipelineFacts.

Import Classifier Scanner ScanShape TreeShape Examples.

Lemma relative_to_app (root : Path) :
  forall p rp, relative_to p root = Ok rp -> p = root ++ rp.
Proof.
  induction root as [| r root IH]; intros p rp H.
  - destruct p; inversion H; reflexivity.
  - destruct p as [| c p]; [discriminate |]. cbn [relative_to] in H.
    destruct (String.eqb c r) eqn:Hc; [| discriminate].
    apply String.eqb_eq in Hc. subst c. cbn [app]. f_equal. now apply IH.
Qed.

(** X26. The scan hands the tree builder what it needs: when the walked
    paths have non-empty, slash-free components, every record of the
    manifest has a relative path without empty segment, and for a path
    other than the root the segments of the relative path are the
    path's components below the root. *)
Theorem scanned_manifest_well_formed fs root max_bytes skip_bloat infos :
  (forall p, In p (fs_rglob fs root) ->
             Forall (fun c => c <> "" /\ no_slash c = true) p) ->
  collect_files fs root max_bytes skip_bloat = Ok infos ->
  wf_manifest infos /\
  Forall (fun info =>
            wf_rel (rel info) /\
            (path info <> root -> path info = root ++ Str.split (rel info)))
         infos.
Proof.
  intros Hcomp H.
  assert (Hall : Forall (fun info =>
                           wf_rel (rel info) /\
                           (path info <> root -> path info = root ++ Str.split (rel info)))
                        infos).
  { destruct (ScannerFacts.collect_loop_ok fs root max_bytes skip_bloat _ infos H)
      as [Hpaths Hdec].
    rewrite Forall_forall in Hdec. apply Forall_forall. intros info Hin.
    destruct (ClassifierFacts.decide_file_inv fs (path info) root max_bytes skip_bloat info
                (Hdec info Hin)) as [rp [sz [Hrel [_ Hstr]]]].
    assert (Hwalk : In (path info) (fs_rglob fs root)).
    { apply (proj1 (SortFacts.sorted_In Path path_leb (path info) (fs_rglob fs root))).
      apply (in_map path) in Hin. rewrite Hpaths in Hin.
      apply filter_In in Hin. tauto. }
    pose proof (relative_to_app root (path info) rp Hrel) as Hp.
    pose proof (Hcomp (path info) Hwalk) as Hc. rewrite Hp in Hc.
    apply Forall_app in Hc. destruct Hc as [_ Hc].
    rewrite Hstr. destruct rp as [| c rp].
    - split; [repeat constructor; discriminate |].
      intros Hne. rewrite app_nil_r in Hp. contradiction.
    - cbn [str_of_path].
      rewrite (TreeCountFacts.split_join (c :: rp)).
      + split; [| intros _; exact Hp].
        unfold wf_rel.
        rewrite (TreeCountFacts.split_join (c :: rp)).
        * eapply Forall_impl; [| exact Hc]. cbv beta. tauto.
        * discriminate.
        * eapply Forall_impl; [| exact Hc]. cbv beta. tauto.
      + discriminate.
      + eapply Forall_impl; [| exact Hc]. cbv beta. tauto. }
  split; [| exact Hall].
  intros info Hin _. rewrite Forall_forall in Hall. now apply Hall.
Qed.

Lemma scanned_manifest_well_formed_witness :
  wf_manifest manifest_two /\
  Forall (fun info =>
            wf_rel (rel info) /\
            (path info <> ["repo"] -> path info = ["repo"] ++ Str.split (rel info)))
         manifest_two.
Proof.
  apply (scanned_manifest_well_formed fs_two ["repo"] MAX_DEFAULT_BYTES true manifest_two).
  - intros p Hin. cbn in Hin.
    repeat (destruct Hin as [Hin | Hin];
            [subst p; repeat constructor; discriminate |]).
    contradiction.
  - vm_compute. reflexivity.
Defined.

End PipelineFacts.

(** ** The empty selection *)

Module EmptySelection.

Import Page.

Lemma none_checked (l : list FileCheckbox) :
  filter checked (map (set_checked false) l) = [].
Proof. induction l as [| cb l IH]; [reflexivity | exact IH]. Qed.

(** X27. After [deselectAll] nothing is left: every file and folder
    checkbox is unchecked, every section is hidden, the count and the
    size are zero and the export is the empty [documents] element,
    whatever the page and the file data were. *)
Theorem deselectAll_clears (fileData : list FileDatum) (pg : Page) :
  let pg' := deselectAll fileData pg in
  Forall (fun cb => checked cb = false) (file_checkboxes pg') /\
  Forall (fun cb => folder_checked cb = false) (folder_checkboxes pg') /\
  Forall (fun s => hidden s = true) (sections pg') /\
  selected_count pg' = 0 /\
  selected_size pg' = 0%Z /\
  llm_text pg' = ("<documents>" ++ Str.newline ++ "</documents>")%string.
Proof.
  cbv zeta. unfold deselectAll, updateSelection, selected_files, checked_boxes, set_all.
  cbn [file_checkboxes folder_checkboxes sections selected_count selected_size llm_text
       with_files with_folders].
  rewrite none_checked. cbn [flat_map List.length fold_left existsb negb].
  split; [| split; [| split; [| split; [| split]]]]; try reflexivity.
  - apply Forall_forall. intros cb Hin. apply in_map_iff in Hin.
    destruct Hin as [x [Hx _]]. now subst cb.
  - apply Forall_forall. intros cb Hin. apply in_map_iff in Hin.
    destruct Hin as [x [Hx _]]. now subst cb.
  - apply Forall_forall. intros sec Hin. apply in_map_iff in Hin.
    destruct Hin as [x [Hx _]]. now subst sec.
Qed.

End EmptySelection.
